(** * Resume field extraction and reconciliation: a shallow embedding

    The Python sources embedded here are
      extractors/layout.py     (normalize_text)
      extractors/pdf_utils.py  (is_scanned_pdf_bytes,
                                extract_text_from_pdf_bytes)
      extractors/entities.py   (extract_emails, extract_phones)
      import_cvs.py            (find_location_id, basic_regex_overrides,
                                detect_gender, clean_mobile_number, process_file)
      llm_utils.py             (detect_gender, normalize_bfsi_score,
                                extract_full_cv_fields)
      import_cvs.py            (calculate_cv_score)
      db/crud.py               (upsert_candidate_details)
      app.py                   (upload_resume)

    A Python [str] is a sequence of Unicode code points, modelled as a list
    of [N].  Dictionaries are [gmap]s keyed by field name. *)

From Stdlib Require Import NArith ZArith List Bool Ascii String Lia.
From Stdlib Require Import Floats.
From stdpp Require Import gmap strings list fin_maps.
Import ListNotations.

Local Open Scope N_scope.
Local Open Scope list_scope.

(** ** Code points and strings *)

Definition char := N.
Definition str := list char.

(** A literal of the source, written as a Rocq string. *)
Definition py (s : string) : str :=
  List.map N_of_ascii (list_ascii_of_string s).

Definition TAB : char := 9.
Definition LF : char := 10.
Definition CR : char := 13.
Definition SP : char := 32.
Definition HYPHEN : char := 45.
Definition DOT : char := 46.
Definition AT : char := 64.
Definition UNDERSCORE : char := 95.

Definition str_eqb (a b : str) : bool := bool_decide (a = b).

(** [c.isspace()], which is also what [\s] matches in a [str] pattern. *)
Definition is_space (c : char) : bool :=
  ((9 <=? c) && (c <=? 13)) || ((28 <=? c) && (c <=? 32))
  || (c =? 133) || (c =? 160) || (c =? 5760)
  || ((8192 <=? c) && (c <=? 8202))
  || (c =? 8232) || (c =? 8233) || (c =? 8239) || (c =? 8287) || (c =? 12288).

(** The line boundaries of [str.splitlines()]. *)
Definition is_linebreak (c : char) : bool :=
  ((10 <=? c) && (c <=? 13)) || ((28 <=? c) && (c <=? 30))
  || (c =? 133) || (c =? 8232) || (c =? 8233).

(** The Unicode tables the code consults through [unicodedata], [str.lower],
    and the [\w], [\d] and [re.I] of the [re] module.  They belong to the
    Python runtime; the program is embedded over any such tables.  The two
    law says that the space is not a word character. *)
Class Unicode := {
  nfkc : str -> str;            (* unicodedata.normalize("NFKC", _) *)
  lower : str -> str;           (* str.lower *)
  isalnum : char -> bool;       (* \w is isalnum or "_" *)
  isdecimal : char -> bool;     (* \d *)
  ci_eqb : char -> char -> bool;(* equality of two characters under re.I *)
  isalnum_SP : isalnum SP = false
}.

(** The tables restricted to ASCII, where they are known in closed form:
    NFKC fixes every ASCII string, and case only touches the 26 letters. *)
Definition ascii_upper_p (c : char) : bool := (65 <=? c) && (c <=? 90).
Definition ascii_lower_p (c : char) : bool := (97 <=? c) && (c <=? 122).
Definition ascii_digit_p (c : char) : bool := (48 <=? c) && (c <=? 57).
Definition ascii_tolower (c : char) : char := if ascii_upper_p c then c + 32 else c.

Definition ascii_tables : Unicode := {|
  nfkc := fun t => t;
  lower := List.map ascii_tolower;
  isalnum := fun c => ascii_upper_p c || ascii_lower_p c || ascii_digit_p c;
  isdecimal := ascii_digit_p;
  ci_eqb := fun a b => ascii_tolower a =? ascii_tolower b;
  isalnum_SP := eq_refl
|}.

(** ** String methods *)

Fixpoint lstrip_by (p : char -> bool) (s : str) : str :=
  match s with
  | c :: s' => if p c then lstrip_by p s' else s
  | [] => []
  end.

Definition rstrip_by (p : char -> bool) (s : str) : str :=
  rev (lstrip_by p (rev s)).

(** [s.strip(chars)] for a character set [p]. *)
Definition strip_by (p : char -> bool) (s : str) : str :=
  rstrip_by p (lstrip_by p s).

(** [s.strip()] *)
Definition strip (s : str) : str := strip_by is_space s.

(** [s[-n:]] for [n > 0] *)
Definition lastn {A} (n : nat) (l : list A) : list A :=
  skipn (length l - n) l.

(** [sep.join(parts)] *)
Fixpoint join (sep : str) (parts : list str) : str :=
  match parts with
  | [] => []
  | [p] => p
  | p :: rest => p ++ sep ++ join sep rest
  end.

(** [s.splitlines()]: a line ends at a line boundary, CR LF counts as one
    boundary, and there is no empty last line. *)
Fixpoint splitlines (s : str) : list str :=
  match s with
  | [] => []
  | c :: s' =>
      if is_linebreak c then
        match s' with
        | d :: s'' => if (c =? CR) && (d =? LF) then [] :: splitlines s''
                      else [] :: splitlines s'
        | [] => [[]]
        end
      else
        match splitlines s' with
        | [] => [[c]]
        | l :: ls => (c :: l) :: ls
        end
  end.

(** [[ln.strip() for ln in t.splitlines() if ln.strip()]] *)
Definition nonblank_lines (t : str) : list str :=
  List.filter (fun ln => negb (str_eqb ln []))
    (List.map strip (splitlines t)).

(** The lines kept by [nonblank_lines] are not empty and contain no line
    boundary. *)
Definition proper_line (l : str) : Prop :=
  l <> [] /\ Forall (fun c => is_linebreak c = false) l.

(** [s.split(sep)[0]] for a one-character separator. *)
Fixpoint before (sep : char) (s : str) : str :=
  match s with
  | [] => []
  | c :: s' => if c =? sep then [] else c :: before sep s'
  end.

(** [s.split()]: the maximal runs of non-whitespace. *)
Fixpoint split_ws_aux (cur : str) (s : str) : list str :=
  match s with
  | [] => match cur with [] => [] | _ => [rev cur] end
  | c :: s' =>
      if is_space c
      then match cur with
           | [] => split_ws_aux [] s'
           | _ => rev cur :: split_ws_aux [] s'
           end
      else split_ws_aux (c :: cur) s'
  end.

Definition split_ws (s : str) : list str := split_ws_aux [] s.

Fixpoint starts_with (pat s : str) : bool :=
  match pat, s with
  | [], _ => true
  | p :: pat', c :: s' => (p =? c) && starts_with pat' s'
  | _ :: _, [] => false
  end.

(** [pat in s] *)
Fixpoint contains (pat s : str) : bool :=
  starts_with pat s ||
  match s with
  | [] => false
  | _ :: s' => contains pat s'
  end.

(** [x in xs] for a list or set of strings. *)
Definition mem (x : str) (xs : list str) : bool :=
  existsb (str_eqb x) xs.

(** A text without a visible character. *)
Definition all_space (s : str) : Prop := Forall (fun c => is_space c = true) s.

(** [pat] occurs in [s] as a contiguous block. *)
Definition occurs (pat s : str) : Prop :=
  exists l1 l2, s = l1 ++ pat ++ l2.

(** ** Regular expressions of the source

    Every pattern of the source is a fixed one; each is embedded as the
    function that the backtracking matcher of [re] computes for it.  A matcher
    receives the character before the current position (for [\b]) and the
    rest of the text, and returns the length of the match. *)

Definition matcher := option char -> str -> option nat.

Section Regex.
Context {U : Unicode}.

(** [\w] *)
Definition is_word (c : char) : bool := isalnum c || (c =? UNDERSCORE).

Definition is_word_opt (c : option char) : bool :=
  match c with Some c => is_word c | None => false end.

(** [\b] between the previous character and the rest of the text. *)
Definition word_boundary (prev : option char) (s : str) : bool :=
  xorb (is_word_opt prev) (is_word_opt (head s)).

(** Membership in a bracket class given by its characters, with and
    without [re.I]. *)
Definition in_class (cls : str) (c : char) : bool := existsb (N.eqb c) cls.
Definition in_class_ci (cls : str) (c : char) : bool := existsb (ci_eqb c) cls.

(** The length of the longest prefix whose characters satisfy [p]
    (a greedy [p*]). *)
Fixpoint run_length (p : char -> bool) (s : str) : nat :=
  match s with
  | c :: s' => if p c then S (run_length p s') else O
  | [] => O
  end.

(** [pattern.findall(text)] / [finditer] for a pattern without groups that
    never matches the empty string: leftmost matches, left to right, the
    scan resuming where the previous match ended.  [skip] counts the
    characters of the current match still to be passed over. *)
Fixpoint findall_from (m : matcher) (skip : nat) (prev : option char)
    (s : str) : list str :=
  match skip with
  | S k =>
      match s with
      | c :: s' => findall_from m k (Some c) s'
      | [] => []
      end
  | O =>
      match s with
      | [] => []
      | c :: s' =>
          match m prev s with
          | Some n => firstn n s :: findall_from m (Nat.pred n) (Some c) s'
          | None => findall_from m O (Some c) s'
          end
      end
  end.

Definition findall (m : matcher) (s : str) : list str :=
  findall_from m O None s.

(** [re.search(pattern, text)] as a truth value. *)
Fixpoint search_from (m : matcher) (prev : option char) (s : str) : bool :=
  match m prev s with
  | Some _ => true
  | None =>
      match s with
      | [] => false
      | c :: s' => search_from m (Some c) s'
      end
  end.

Definition search (m : matcher) (s : str) : bool := search_from m None s.
End Regex.

(** Two facts of the tables of Python that some properties rest on: the
    ten ASCII digits are decimal digits, and a decimal digit is neither
    whitespace nor a hyphen. *)
Definition ascii_digits_are_decimal {U : Unicode} : Prop :=
  forall c, in_class (py "0123456789") c = true -> isdecimal c = true.

Definition decimals_are_visible {U : Unicode} : Prop :=
  forall c, isdecimal c = true -> is_space c = false /\ c <> HYPHEN.

(** ** extractors/layout.py *)

Module layout.
Section Layout.
Context {U : Unicode}.

(** [re.sub(r"\r\n", "\n", t)] *)
Fixpoint crlf_to_lf (t : str) : str :=
  match t with
  | [] => []
  | c :: t' =>
      match t' with
      | d :: t'' =>
          if (c =? CR) && (d =? LF) then LF :: crlf_to_lf t''
          else c :: crlf_to_lf t'
      | [] => [c]
      end
  end.

Definition is_blank (c : char) : bool := (c =? SP) || (c =? TAB).

(** [re.sub(r"[ \t]+", " ", t)]; [in_run] tells that the previous
    character belonged to the run being replaced. *)
Fixpoint collapse_blanks_from (in_run : bool) (t : str) : str :=
  match t with
  | [] => []
  | c :: t' =>
      if is_blank c
      then if in_run then collapse_blanks_from true t'
           else SP :: collapse_blanks_from true t'
      else c :: collapse_blanks_from false t'
  end.

Definition collapse_blanks (t : str) : str := collapse_blanks_from false t.

(** [re.sub(r"(\w)-\n(\w)", r"\1\2", t)]: the scan resumes after the second
    word character of a match, which is therefore not available as the
    first word character of the next one. *)
Fixpoint join_hyphens (t : str) : str :=
  match t with
  | [] => []
  | a :: t' =>
      match t' with
      | h :: n :: b :: rest =>
          if is_word a && (h =? HYPHEN) && (n =? LF) && is_word b
          then a :: b :: join_hyphens rest
          else a :: join_hyphens t'
      | _ => a :: join_hyphens t'
      end
  end.

(** [re.sub(r"\n{3,}", "\n\n", t)]: of a maximal run of line feeds the
    first two are kept; [run] counts the line feeds just kept. *)
Fixpoint collapse_newlines_from (run : nat) (t : str) : str :=
  match t with
  | [] => []
  | c :: t' =>
      if c =? LF
      then if (run <? 2)%nat then LF :: collapse_newlines_from (S run) t'
           else collapse_newlines_from run t'
      else c :: collapse_newlines_from O t'
  end.

Definition collapse_newlines (t : str) : str := collapse_newlines_from O t.

(** Steps 1 to 5 of [normalize_text], up to the header/footer trim. *)
Definition clean_up (text : str) : str :=
  collapse_newlines (join_hyphens (collapse_blanks (crlf_to_lf (nfkc text)))).

(** The header/footer trim and the final [strip]. *)
Definition trim_boilerplate (t : str) : str :=
  let lines := nonblank_lines t in
  let t :=
    if (6 <? length lines)%nat then
      let head := firstn 2 lines in
      let tail := lastn 2 lines in
      let filtered :=
        List.filter (fun ln => negb (mem ln head) && negb (mem ln tail)) lines in
      match filtered with
      | [] => join [LF] lines
      | _ => join [LF] filtered
      end
    else t in
  strip t.

Definition normalize_text (text : str) : str :=
  match text with
  | [] => []
  | _ => trim_boilerplate (clean_up text)
  end.
End Layout.
End layout.

(** Two shapes of a cleaned text, stated by recursion on the text. *)

(** [s] has no three line feeds in a row, and at most [k] at its start. *)
Fixpoint lf_ok (k : nat) (s : str) : Prop :=
  match s with
  | [] => True
  | c :: s' =>
      if c =? LF
      then match k with
           | O => False
           | S k' => lf_ok k' s'
           end
      else lf_ok 2 s'
  end.

(** [s] has no tab and no two spaces in a row; [after_sp] tells that a space
    comes just before [s]. *)
Fixpoint blank_ok (after_sp : bool) (s : str) : Prop :=
  match s with
  | [] => True
  | c :: s' =>
      c <> TAB /\ (c = SP -> after_sp = false) /\ blank_ok (c =? SP) s'
  end.

(** ** extractors/pdf_utils.py *)

Module pdf_utils.

(** What [page.get_text("text")] does for one page: it returns a string,
    returns nothing, or raises. *)
Inductive get_text_result :=
| Text (txt : str)
| NoText
| Raises.

(** [len(re.sub(r"\s+", "", txt))] *)
Definition non_space_count (txt : str) : nat :=
  length (List.filter (fun c => negb (is_space c)) txt).

(** The loop over the pages; an exception ends it in the handler, which
    returns [True]. *)
Fixpoint scan_pages (min_chars text_chars : nat) (doc : list get_text_result)
    : bool :=
  match doc with
  | [] => true
  | Raises :: _ => true
  | page :: rest =>
      let txt := match page with Text t => t | _ => [] end in
      let text_chars := (text_chars + non_space_count txt)%nat in
      if (min_chars <=? text_chars)%nat then false
      else scan_pages min_chars text_chars rest
  end.

(** [doc] is [None] when [fitz.open] raises. *)
Definition is_scanned_pdf_bytes (doc : option (list get_text_result))
    (min_chars : nat) : bool :=
  match doc with
  | None => true
  | Some pages => scan_pages min_chars O pages
  end.

Definition default_min_chars : nat := 200.

(** The characters one page adds to the running count. *)
Definition page_chars (p : get_text_result) : nat :=
  match p with
  | Text t => non_space_count t
  | _ => 0%nat
  end.

Definition total_chars (pages : list get_text_result) : nat :=
  list_sum (List.map page_chars pages).

Definition readable (pages : list get_text_result) : Prop :=
  Forall (fun p => p <> Raises) pages.

(** The strings that ["\n".join(page.get_text("text") for page in doc)]
    joins; there are none when a page raises, or returns [None], which
    [join] refuses with a [TypeError]. *)
Fixpoint page_texts (pages : list get_text_result) : option (list str) :=
  match pages with
  | [] => Some []
  | Text t :: rest => cons t <$> page_texts rest
  | _ :: _ => None
  end.

(** [ocr] is what [ocr_pdf_bytes] returns for the document (the empty
    string when it fails).  Every exception of the primary extraction ends
    in the handler, which returns the OCR text. *)
Definition extract_text_from_pdf_bytes (doc : option (list get_text_result))
    (ocr : str) : str :=
  match doc ≫= page_texts with
  | Some texts =>
      let text := join [LF] texts in
      if (200 <=? non_space_count text)%nat then text else ocr
  | None => ocr
  end.

(** The measure named by the specification, written without the code's
    counting: the characters of a text that are not whitespace, one at a
    time. *)
Fixpoint non_whitespace_chars (txt : str) : nat :=
  match txt with
  | [] => 0%nat
  | c :: rest =>
      if is_space c then non_whitespace_chars rest
      else S (non_whitespace_chars rest)
  end.

(** The running count of non-whitespace characters over the pages read; a
    page that yields no text adds nothing. *)
Fixpoint running_count (pages : list get_text_result) : nat :=
  match pages with
  | [] => 0%nat
  | Text t :: rest => (non_whitespace_chars t + running_count rest)%nat
  | _ :: rest => running_count rest
  end.
End pdf_utils.

(** ** Values and dictionaries *)

(** The sentinel of the batch path and of [llm_utils]. *)
Definition DEFAULT_NA : str := py "#N/A".

(** A field of the model's JSON answer, as its prompt asks for it: a string,
    null, or a list of strings and nulls. *)
Inductive pyval :=
| VNone
| VStr (s : str)
| VList (items : list (option str)).

(** [d.get(k)] and [d.get(k, DEFAULT_NA)] on a dictionary whose values are
    strings or [None]. *)
Definition get (d : gmap string (option str)) (k : string) : option str :=
  default None (d !! k).

Definition get_or_NA (d : gmap string (option str)) (k : string) : option str :=
  default (Some DEFAULT_NA) (d !! k).

(** Truth value of a string or [None]. *)
Definition truthy (v : option str) : bool :=
  match v with
  | Some (_ :: _) => true
  | _ => false
  end.

(** [v != DEFAULT_NA] *)
Definition not_NA (v : option str) : bool :=
  match v with
  | Some s => negb (str_eqb s DEFAULT_NA)
  | None => true
  end.

(** [v or DEFAULT_NA] *)
Definition or_NA (v : option str) : str :=
  match v with
  | Some (c :: s) => c :: s
  | _ => DEFAULT_NA
  end.

Definition ASCII_LETTERS : str :=
  py "ABCDEFGHIJKLMNOPQRSTUVWXYZabcdefghijklmnopqrstuvwxyz".
Definition ASCII_DIGITS : str := py "0123456789".

(** ** The e-mail pattern, shared by entities.py and import_cvs.py

    [[A-Za-z0-9._%+-]+@[A-Za-z0-9.-]+\.[A-Za-z]{2,}], over a class test
    [cls] that is [in_class_ci] under [re.I] and [in_class] without. *)

Section EmailPattern.
Context {U : Unicode}.
Variable cls : str -> char -> bool.

Definition EMAIL_LOCAL : str := ASCII_LETTERS ++ ASCII_DIGITS ++ py "._%+-".
Definition EMAIL_DOMAIN : str := ASCII_LETTERS ++ ASCII_DIGITS ++ py ".-".

(** [\.[A-Za-z]{2,}] at the head of [s]. *)
Definition email_tld (s : str) : option nat :=
  match s with
  | c :: s' =>
      let n := run_length (cls ASCII_LETTERS) s' in
      if (c =? DOT) && (2 <=? n)%nat then Some (S n) else None
  | [] => None
  end.

(** [[A-Za-z0-9.-]*\.[A-Za-z]{2,}]: the class run is greedy, and gives
    characters back until the rest matches. *)
Fixpoint email_domain_rest (s : str) : option nat :=
  match s with
  | [] => None
  | c :: s' =>
      if cls EMAIL_DOMAIN c then
        match email_domain_rest s' with
        | Some n => Some (S n)
        | None => email_tld s
        end
      else email_tld s
  end.

(** [@[A-Za-z0-9.-]+\.[A-Za-z]{2,}] at the head of [s]. *)
Definition email_at_domain (s : str) : option nat :=
  match s with
  | a :: d :: s' =>
      if (a =? AT) && cls EMAIL_DOMAIN d
      then (fun n => S (S n)) <$> email_domain_rest s'
      else None
  | _ => None
  end.

(** [[A-Za-z0-9._%+-]*@...], greedy in the same way. *)
Fixpoint email_local_rest (s : str) : option nat :=
  match s with
  | [] => None
  | c :: s' =>
      if cls EMAIL_LOCAL c then
        match email_local_rest s' with
        | Some n => Some (S n)
        | None => email_at_domain s
        end
      else email_at_domain s
  end.

Definition email_match : matcher := fun _ s =>
  match s with
  | c :: s' => if cls EMAIL_LOCAL c then S <$> email_local_rest s' else None
  | [] => None
  end.
End EmailPattern.

(** ** extractors/entities.py *)

Module entities.
Section Entities.
Context {U : Unicode}.

(** [EMAIL_RE], compiled with [re.I]. *)
Definition EMAIL_RE : matcher := email_match in_class_ci.

Definition extract_emails (text : str) : list str :=
  List.map (fun m => strip_by (in_class (py " ,;")) (lower m))
    (findall EMAIL_RE text).

(** [x in seen] decides what [dict.fromkeys] keeps: the first occurrence of
    every key, in order. *)
Fixpoint fromkeys_from (seen : list str) (l : list str) : list str :=
  match l with
  | [] => []
  | x :: l' =>
      if mem x seen then fromkeys_from seen l'
      else x :: fromkeys_from (x :: seen) l'
  end.

(** [list(dict.fromkeys(l))] *)
Definition fromkeys (l : list str) : list str := fromkeys_from [] l.

(** [[\d\-\s\(\)]] *)
Definition phone_class (c : char) : bool :=
  isdecimal c || (c =? HYPHEN) || is_space c || (c =? 40) || (c =? 41).

(** [[\d\-\s\(\)]{need,}\d]: the class run is greedy, and gives characters
    back until a digit follows it. *)
Fixpoint phone_run_digit (need : nat) (s : str) : option nat :=
  match s with
  | [] => None
  | c :: s' =>
      let stop := if (need =? 0)%nat && isdecimal c then Some 1%nat else None in
      if phone_class c then
        match phone_run_digit (Nat.pred need) s' with
        | Some n => Some (S n)
        | None => stop
        end
      else stop
  end.

(** [\d[\d\-\s\(\)]{7,}\d] *)
Definition phone_digits (s : str) : option nat :=
  match s with
  | c :: s' => if isdecimal c then S <$> phone_run_digit 7 s' else None
  | [] => None
  end.

(** The pattern of [extract_phones]: [(?:\+?\d[\d\-\s\(\)]{7,}\d)], the
    sign tried present first and absent next. *)
Definition PHONE_CANDIDATE : matcher := fun _ s =>
  let with_plus :=
    match s with
    | c :: s' => if c =? 43 then S <$> phone_digits s' else None
    | [] => None
    end in
  match with_plus with
  | Some n => Some n
  | None => phone_digits s
  end.

(** [validate num region] is what the [phonenumbers] library makes of a
    candidate: its E.164 form when it parses and is a valid number, nothing
    when it is invalid or parsing raises. *)
Definition extract_phones (validate : str -> str -> option str) (text : str)
    (default_region : str) : list str :=
  fromkeys
    (omap (fun num => validate num default_region)
       (findall PHONE_CANDIDATE text)).
End Entities.
End entities.

(** ** Scores as floating-point numbers *)

(** What [float(x)] is called on: a score as it stands in the model's JSON
    answer or in a dictionary.  A Python [float] is a binary64 number; a
    Python [int] is unbounded ([True] and [False] are the integers 1 and
    0). *)
Inductive score_value :=
| ScNone
| ScStr (s : str)
| ScInt (z : Z)
| ScFloat (f : float)
| ScOther.   (* a list or a JSON object *)

Inductive float_error := ValueError | TypeError | OverflowError.

(** A call that returns a value or is left by an exception. *)
Inductive outcome (A : Type) :=
| Returned (a : A)
| Raised (e : float_error).
Arguments Returned {A} a.
Arguments Raised {A} e.

(** The parts of the runtime that read and write decimal numerals:
    [float(s)] for a string ([None] for its [ValueError]), [round(x, 1)],
    and [str(x)].  Comparison and division are those of binary64. *)
Class FloatEnv := {
  parse_float : str -> option float;
  round1 : float -> float;
  float_repr : float -> str
}.

(** [float(n)] for an integer: the nearest binary64 number, ties to even,
    and [OverflowError] when that is beyond the largest one. *)
Definition float_of_int (z : Z) : option float :=
  match binary_normalize prec emax z 0 false with
  | S754_infinity _ => None
  | sf => Some (SF2Prim sf)
  end.

(** [float(x)] *)
Definition py_float {fl : FloatEnv} (x : score_value) : float + float_error :=
  match x with
  | ScFloat f => inl f
  | ScInt z =>
      match float_of_int z with
      | Some f => inl f
      | None => inr OverflowError
      end
  | ScStr s =>
      match parse_float s with
      | Some f => inl f
      | None => inr ValueError
      end
  | ScNone | ScOther => inr TypeError
  end.

(** The inputs that the specification calls numeric, with their value, and
    those it calls non-numeric. *)
Inductive numeric {fl : FloatEnv} : score_value -> float -> Prop :=
| numeric_float (f : float) : numeric (ScFloat f) f
| numeric_int (z : Z) (f : float) :
    float_of_int z = Some f -> numeric (ScInt z) f
| numeric_str (s : str) (f : float) :
    parse_float s = Some f -> numeric (ScStr s) f.

Definition non_numeric {fl : FloatEnv} (x : score_value) : Prop :=
  x = ScNone \/ x = ScOther \/ exists s, x = ScStr s /\ parse_float s = None.

(** ** import_cvs.py *)

(** The name table of gender_names.json, read when the module is loaded. *)
Class NameDB := {
  names_male : list str;
  names_female : list str
}.

(** The [locations] table behind [engine]: what each of the three queries of
    [find_location_id] returns ([str(row[0])] of the first row, if any). *)
Class LocationStore := {
  by_city_state : str -> str -> option str;
  by_area_city : str -> str -> option str;
  by_free_text : option str -> option str
}.

(** What one run of [process_file] obtains from its surroundings: the file
    name, the clock, the UUID generator, and the two derived fields whose
    computation is on dates and floating-point numbers.  Both are total
    functions of the dictionary, as every exception is caught in them. *)
Class FileEnv := {
  basename : str;
  uuid4 : str;
  parsing_timestamp : str;
  calculate_age : gmap string (option str) -> str;
  calculate_cv_score : gmap string (option str) -> str
}.

Module import_cvs.

Definition ALL_COLUMNS : list string := [
  "user_id"; "username"; "mobile_number"; "email"; "gender";
  "employed"; "current_company"; "current_designation"; "destination";
  "work_experience"; "current_location"; "current_salary";
  "cv_username"; "cv_mobile_number"; "cv_gender"; "cv_employed";
  "cv_current_company"; "cv_sales_experience";
  "cv_work_experience"; "cv_current_location"; "cv_current_salary";
  "cv_jobrole"; "cv_companyname"; "cv_productscode";
  "cv_sub_productscode"; "cv_departmentscode"; "cv_sub_departmentscode";
  "cv_productspecializationcode";
  "cv_depatmentcategorycode"; "cv_products_text"; "cv_sub_products_text";
  "cv_specialization_text";
  "cv_departments_text"; "cv_sub_departments_text"; "cv_category_text";
  "cv_location_code"; "cv_age"; "cv_location_area";
  "cv_location_city"; "cv_location_state"; "cv_alternatephone"; "cv_email";
  "cv_dateofbirth"; "cv_preferredlocation";
  "cv_highestqualification"; "cv_specialization"; "cv_institutename";
  "cv_graduationyear"; "cv_additionaldegrees";
  "cv_totalexperienceyears"; "cv_currentcompany"; "cv_currentdesignation";
  "cv_currentctc"; "cv_expectedctc";
  "cv_noticeperiod"; "cv_lastworkingday"; "cv_pastcompanies";
  "cv_pastdesignations"; "cv_pastduration";
  "cv_bfsisectorexperience"; "cv_productexpertise"; "cv_technicalskills";
  "cv_regulatoryknowledge";
  "cv_domainkeywords"; "cv_teamhandlingexperienceyesno"; "cv_achievements";
  "cv_revenuehandled";
  "cv_targetachievement"; "cv_certifications"; "cv_languagesknown";
  "cv_linkedinurl"; "cv_cvscore"; "cv_jobfitkeywords";
  "cv_possibleroles"; "cv_relevantjdids"; "cv_isleadershiprole";
  "cv_locationmatchscore"; "cv_resumecompletenesscore";
  "cv_source"; "cv_parsingstatus"; "cv_parsingtimestamp";
  "cv_originalfilename"; "cv_summary"; "cv_pincode"
]%string.

Section ImportCvs.
Context {U : Unicode} {names : NameDB} {store : LocationStore} {env : FileEnv}.

(** [EMAIL_REGEX], compiled without flags. *)
Definition EMAIL_REGEX : matcher := email_match in_class.

(** [[6-9]\d{9}] at the head of [s]. *)
Definition phone_core (s : str) : option nat :=
  match s with
  | c :: s' =>
      if in_class (py "6789") c
         && (length (firstn 9 s') =? 9)%nat && forallb isdecimal (firstn 9 s')
      then Some 10%nat else None
  | [] => None
  end.

(** [PHONE_REGEX]: [(?:\+91[-\s]?)?[6-9]\d{9}].  The optional parts are tried
    present first and absent next. *)
Definition PHONE_REGEX : matcher := fun _ s =>
  let with_prefix :=
    if starts_with (py "+91") s then
      let r := skipn 3 s in
      let with_sep :=
        match r with
        | c :: r' =>
            if (c =? HYPHEN) || is_space c
            then (fun n => (4 + n)%nat) <$> phone_core r'
            else None
        | [] => None
        end in
      match with_sep with
      | Some n => Some n
      | None => (fun n => (3 + n)%nat) <$> phone_core r
      end
    else None in
  match with_prefix with
  | Some n => Some n
  | None => phone_core s
  end.

(** A national number: a digit from 6 to 9 and nine decimal digits. *)
Definition national_number (core : str) : Prop :=
  exists c ds, core = c :: ds /\ in_class (py "6789") c = true /\
               length ds = 9%nat /\ Forall (fun d => isdecimal d = true) ds.

(** [PINCODE_REGEX]: [\b[1-9]\d{5}\b] *)
Definition PINCODE_REGEX : matcher := fun prev s =>
  match s with
  | c :: s' =>
      if word_boundary prev s
         && in_class (py "123456789") c
         && (length (firstn 5 s') =? 5)%nat && forallb isdecimal (firstn 5 s')
         && word_boundary (last (firstn 6 s)) (skipn 6 s)
      then Some 6%nat else None
  | [] => None
  end.

(** The four fields of [basic_regex_overrides], in the order of the
    dictionary it returns. *)
Definition basic_regex_overrides (text : str) : list (string * str) :=
  let email := findall EMAIL_REGEX text in
  let phone := findall PHONE_REGEX text in
  let pincode := findall PINCODE_REGEX text in
  let lines := nonblank_lines text in
  [ ("cv_email"%string,
     match email with e :: _ => strip e | [] => DEFAULT_NA end);
    ("cv_mobile_number"%string,
     match phone with
     | p :: _ => List.filter (fun c => negb (is_space c || (c =? HYPHEN))) p
     | [] => DEFAULT_NA
     end);
    ("cv_pincode"%string,
     match pincode with p :: _ => p | [] => DEFAULT_NA end);
    ("cv_summary"%string,
     match lines with
     | _ :: _ => firstn 500 (join [SP] (firstn 4 lines))
     | [] => DEFAULT_NA
     end) ].

(** *** find_location_id

    [None] stands for the [AttributeError] of [None.strip()]. *)
Definition find_location_id (area city state free_text_location : option str)
    : option str :=
  row1 ← (if not_NA city && not_NA state
          then c ← city; s ← state; Some (by_city_state (strip c) (strip s))
          else Some None);
  match row1 with
  | Some id => Some id
  | None =>
      row2 ← (if not_NA area && not_NA city
              then a ← area; c ← city; Some (by_area_city (strip a) (strip c))
              else Some None);
      match row2 with
      | Some id => Some id
      | None =>
          let row3 :=
            if not_NA free_text_location
            then by_free_text free_text_location else None in
          Some (default DEFAULT_NA row3)
      end
  end.

(** What each step of the chain finds: nothing when the step is skipped
    because an input is missing, or when its query yields no row. *)
Definition city_state_hit (city state : str) : option str :=
  if not_NA (Some city) && not_NA (Some state)
  then by_city_state (strip city) (strip state) else None.

Definition area_city_hit (area city : str) : option str :=
  if not_NA (Some area) && not_NA (Some city)
  then by_area_city (strip area) (strip city) else None.

Definition free_text_hit (free_text_location : str) : option str :=
  if not_NA (Some free_text_location)
  then by_free_text (Some free_text_location) else None.

(** *** detect_gender *)

(** A literal of a pattern compiled with [re.I], at the head of [s]. *)
Fixpoint starts_with_ci (pat s : str) : bool :=
  match pat, s with
  | [], _ => true
  | p :: pat', c :: s' => ci_eqb c p && starts_with_ci pat' s'
  | _ :: _, [] => false
  end.

(** [\.?\b] after the matched word [w] (a prefix of the text, not empty). *)
Definition title_end (w rest : str) : bool :=
  match rest with
  | c :: rest' =>
      ((c =? DOT) && word_boundary (Some c) rest') || word_boundary (last w) rest
  | [] => word_boundary (last w) rest
  end.

(** [\b(alt1|alt2|...)\.?\b] under [re.I] *)
Definition title_pattern (alts : list str) : matcher := fun prev s =>
  if word_boundary prev s then
    (fun alt => length alt) <$>
      List.find (fun alt =>
        starts_with_ci alt s
        && title_end (firstn (length alt) s) (skipn (length alt) s)) alts
  else None.

Definition MALE_NAMES : list str := names_male.
Definition FEMALE_NAMES : list str := names_female.

(** The two scores accumulated by [detect_gender]. *)
Definition gender_scores (text extracted_name : str) (llm_gender : option str)
    (email : str) : nat * nat :=
  let text_lower := lower text in
  (* pronouns *)
  let m1 := if existsb (fun w => contains w text_lower)
                 [py " he "; py " him "; py " his "] then 2%nat else 0%nat in
  let f1 := if existsb (fun w => contains w text_lower)
                 [py " she "; py " her "; py " hers "] then 2%nat else 0%nat in
  (* titles *)
  let m2 := if search (title_pattern [py "Mr"]) text then 1%nat else 0%nat in
  let f2 := if search (title_pattern [py "Ms"; py "Mrs"; py "Miss"]) text
            then 1%nat else 0%nat in
  (* the gender given by the model *)
  let '(m3, f3) :=
    match llm_gender with
    | Some g =>
        if str_eqb g DEFAULT_NA then (0, 0)%nat
        else if str_eqb (lower g) (py "male") then (3, 0)%nat
        else if str_eqb (lower g) (py "female") then (0, 3)%nat
        else (0, 0)%nat
    | None => (0, 0)%nat
    end in
  (* every part of the name *)
  let parts :=
    if str_eqb extracted_name DEFAULT_NA then [] else split_ws extracted_name in
  let m4 := (5 * length (List.filter (fun p => mem (lower p) MALE_NAMES) parts))%nat in
  let f4 := (5 * length (List.filter (fun p => mem (lower p) FEMALE_NAMES) parts))%nat in
  (* first name of the e-mail address *)
  let '(m5, f5) :=
    if str_eqb email DEFAULT_NA then (0, 0)%nat
    else
      let first_email_name := lower (before DOT (before AT email)) in
      (if mem first_email_name MALE_NAMES then 2 else 0,
       if mem first_email_name FEMALE_NAMES then 2 else 0)%nat in
  (m1 + m2 + m3 + m4 + m5, f1 + f2 + f3 + f4 + f5)%nat.

(** The decision at the end of [detect_gender]. *)
Definition decide_gender (male_score female_score : nat) : str :=
  if (male_score =? 0)%nat && (female_score =? 0)%nat then DEFAULT_NA
  else if (female_score <=? male_score)%nat then py "Male" else py "Female".

Definition detect_gender (text extracted_name : str) (llm_gender : option str)
    (email : str) : str :=
  let '(male_score, female_score) :=
    gender_scores text extracted_name llm_gender email in
  decide_gender male_score female_score.

(** *** clean_mobile_number *)

Definition clean_mobile_number (raw_number : str) : str :=
  if str_eqb raw_number DEFAULT_NA then DEFAULT_NA
  else
    let digits := List.filter isdecimal raw_number in
    let digits := if (10 <? length digits)%nat then lastn 10 digits else digits in
    if (length digits =? 10)%nat then digits else DEFAULT_NA.

(** *** process_file *)

(** The first loop of [process_file]: a list becomes the comma-separated
    string of its non-empty items, everything else is kept. *)
Definition flatten_value (v : pyval) : option str :=
  match v with
  | VNone => None
  | VStr s => Some s
  | VList items =>
      let cleaned := omap (fun v => if truthy v then v else None) items in
      Some (match cleaned with
            | [] => DEFAULT_NA
            | _ => join (py ", ") cleaned
            end)
  end.

(** [for k, v in overrides.items(): if v != DEFAULT_NA: ai_data[k] = v] *)
Definition apply_overrides (overrides : list (string * str))
    (ai_data : gmap string (option str)) : gmap string (option str) :=
  foldl (fun d kv => if str_eqb kv.2 DEFAULT_NA then d else <[kv.1 := Some kv.2]> d)
    ai_data overrides.

(** The user name chosen by [process_file].  The [elif] belongs to the outer
    [if], as the indentation of the source has it. *)
Definition choose_username (ai_data : gmap string (option str)) (lines : list str)
    : str :=
  let username := or_NA (get ai_data "cv_username") in
  if str_eqb username DEFAULT_NA || negb (truthy (Some (strip username))) then
    match lines with
    | l :: _ => l
    | [] => username
    end
  else if truthy (get ai_data "cv_email") && not_NA (get ai_data "cv_email") then
    before AT (default [] (get ai_data "cv_email"))
  else DEFAULT_NA.

(** [if key not in ai_data or not ai_data[key]: ai_data[key] = DEFAULT_NA] *)
Definition ensure_present (key : string) (ai_data : gmap string (option str))
    : gmap string (option str) :=
  if truthy (get ai_data key) then ai_data else <[key := Some DEFAULT_NA]> ai_data.

(** [{k: ai_data.get(k, DEFAULT_NA) for k in ALL_COLUMNS if k in existing_cols}] *)
Definition restrict_to_columns (existing_cols : gset string)
    (ai_data : gmap string (option str)) : gmap string (option str) :=
  list_to_map
    (List.map (fun k => (k, get_or_NA ai_data k))
       (List.filter (fun k => bool_decide (k ∈ existing_cols)) ALL_COLUMNS)).

(** [text_data] is what [extract_text_from_file] returned and [ai_data] what
    [extract_full_cv_fields] returned for it.  The result is [None] when an
    exception leaves the function. *)
Definition process_file (text_data : str) (ai_data : gmap string pyval)
    (existing_cols : gset string) : option (gmap string (option str)) :=
  match strip text_data with
  | [] => Some ∅
  | _ =>
      let ai_data := flatten_value <$> ai_data in
      let ai_data := apply_overrides (basic_regex_overrides text_data) ai_data in
      let ai_data := <["cv_originalfilename" := Some basename]> ai_data in
      location_code ←
        find_location_id
          (get_or_NA ai_data "cv_location_area")
          (get_or_NA ai_data "cv_location_city")
          (get_or_NA ai_data "cv_location_state")
          (get_or_NA ai_data "cv_current_location");
      let ai_data := <["cv_location_code" := Some location_code]> ai_data in
      let ai_data := <["cv_parsingtimestamp" := Some parsing_timestamp]> ai_data in
      let ai_data := <["cv_source" := Some (py "OCR_UPLOAD")]> ai_data in
      let ai_data := <["cv_parsingstatus" := Some (py "PARSED")]> ai_data in
      let ai_data := <["user_id" := Some uuid4]> ai_data in
      let username := choose_username ai_data (nonblank_lines text_data) in
      let ai_data := <["username" := Some username]> ai_data in
      let raw_mobile := or_NA (get ai_data "cv_mobile_number") in
      let ai_data := <["mobile_number" := Some (clean_mobile_number raw_mobile)]> ai_data in
      let ai_data := <["email" := Some (or_NA (get ai_data "cv_email"))]> ai_data in
      (* [email.split] in [detect_gender] fails on [None] *)
      email ← get_or_NA ai_data "cv_email";
      let gender :=
        detect_gender text_data username (get_or_NA ai_data "cv_gender") email in
      let ai_data := <["gender" := Some gender]> ai_data in
      let ai_data := <["cv_age" := Some (calculate_age ai_data)]> ai_data in
      let ai_data := <["cv_cvscore" := Some (calculate_cv_score ai_data)]> ai_data in
      let ai_data :=
        foldl (fun d key => ensure_present key d) ai_data
          ["cv_pastcompanies"; "cv_pastdesignations"; "cv_pastduration"]%string in
      Some (restrict_to_columns existing_cols ai_data)
  end.


(** The dictionary after the first loop and the override loop. *)
Definition overridden (text_data : str) (ai_data : gmap string pyval)
    : gmap string (option str) :=
  apply_overrides (basic_regex_overrides text_data) (flatten_value <$> ai_data).

(** The dictionary that [process_file] restricts to the destination
    columns: [ai_data] is the dictionary after the override loop, and
    [location_code] and [email] are what the location lookup and
    [ai_data.get("cv_email", DEFAULT_NA)] yielded on the way. *)
Definition finish_fields (text_data : str) (ai_data : gmap string (option str))
    (location_code email : str) : gmap string (option str) :=
  let ai_data := <["cv_originalfilename" := Some basename]> ai_data in
  let ai_data := <["cv_location_code" := Some location_code]> ai_data in
  let ai_data := <["cv_parsingtimestamp" := Some parsing_timestamp]> ai_data in
  let ai_data := <["cv_source" := Some (py "OCR_UPLOAD")]> ai_data in
  let ai_data := <["cv_parsingstatus" := Some (py "PARSED")]> ai_data in
  let ai_data := <["user_id" := Some uuid4]> ai_data in
  let username := choose_username ai_data (nonblank_lines text_data) in
  let ai_data := <["username" := Some username]> ai_data in
  let raw_mobile := or_NA (get ai_data "cv_mobile_number") in
  let ai_data := <["mobile_number" := Some (clean_mobile_number raw_mobile)]> ai_data in
  let ai_data := <["email" := Some (or_NA (get ai_data "cv_email"))]> ai_data in
  let gender :=
    detect_gender text_data username (get_or_NA ai_data "cv_gender") email in
  let ai_data := <["gender" := Some gender]> ai_data in
  let ai_data := <["cv_age" := Some (calculate_age ai_data)]> ai_data in
  let ai_data := <["cv_cvscore" := Some (calculate_cv_score ai_data)]> ai_data in
  foldl (fun d key => ensure_present key d) ai_data
    ["cv_pastcompanies"; "cv_pastdesignations"; "cv_pastduration"]%string.

(** The fields that [process_file] writes after the override loop. *)
Definition written_later : list string := [
  "cv_originalfilename"; "cv_location_code"; "cv_parsingtimestamp";
  "cv_source"; "cv_parsingstatus"; "user_id"; "username"; "mobile_number";
  "email"; "gender"; "cv_age"; "cv_cvscore";
  "cv_pastcompanies"; "cv_pastdesignations"; "cv_pastduration"
]%string.
End ImportCvs.

(** *** calculate_cv_score *)

(** [ai_data] holds strings and [None]; [float(None)] is a [TypeError], and
    every exception ends in the handler, which returns ["0"]. *)
Definition calculate_cv_score {fl : FloatEnv}
    (ai_data : gmap string (option str)) : str :=
  match get_or_NA ai_data "cv_cvscore" with
  | Some finscore =>
      if str_eqb finscore DEFAULT_NA then py "0"
      else match parse_float finscore with
           | Some x => float_repr (round1 x)
           | None => py "0"
           end
  | None => py "0"
  end.
End import_cvs.

(** ** llm_utils.py *)

(** Truth value of a field of the model's answer. *)
Definition truthy_value (v : pyval) : bool :=
  match v with
  | VNone => false
  | VStr [] => false
  | VList [] => false
  | _ => true
  end.

(** The age that [extract_full_cv_fields] derives from the date of birth
    or from the graduation year, by the clock; it is the sentinel whenever
    the value cannot be read, every exception being caught. *)
Class DateEnv := {
  age_from_dateofbirth : pyval -> str;
  age_from_graduationyear : pyval -> str
}.

Module llm_utils.
Section LlmUtils.
Context {U : Unicode} {names : NameDB}.

(** [[x.lower() for x in GENDER_NAMES.get(key, [])]] *)
Definition lowered (table : list str) : list str := List.map lower table.

(** [check_name(n, weight)], as the pair of amounts it adds. *)
Definition check_name (n : str) (weight : nat) : nat * nat :=
  if mem (lower n) (lowered names_male) then (weight, 0%nat)
  else if mem (lower n) (lowered names_female) then (0%nat, weight)
  else (0, 0)%nat.

(** [(alt1|alt2|...)] *)
Definition word_pattern (alts : list str) : matcher := fun prev s =>
  if word_boundary prev s then
    (fun alt => length alt) <$>
      List.find (fun alt =>
        starts_with alt s
        && word_boundary (last (firstn (length alt) s)) (skipn (length alt) s))
        alts
  else None.

Definition add2 (a b : nat * nat) : nat * nat := (a.1 + b.1, a.2 + b.2)%nat.

Definition gender_scores (name text email : str) : nat * nat :=
  let s1 :=
    foldl (fun acc part => add2 acc (check_name part 5)) (0, 0)%nat
      (match name with [] => [] | _ => split_ws name end) in
  let s2 :=
    match email with
    | [] => (0, 0)%nat
    | _ => if contains [AT] email
           then check_name (before DOT (before AT email)) 2
           else (0, 0)%nat
    end in
  let text_lower := lower text in
  let m3 := if search (word_pattern [py "he"; py "him"; py "his"]) text_lower
            then 3%nat else 0%nat in
  let f3 := if search (word_pattern [py "she"; py "her"; py "hers"]) text_lower
            then 3%nat else 0%nat in
  add2 (add2 s1 s2) (m3, f3).

Definition decide_gender (male_score female_score : nat) : str :=
  if (female_score <? male_score)%nat then py "Male"
  else if (male_score <? female_score)%nat then py "Female"
  else DEFAULT_NA.

Definition detect_gender (name text email : str) : str :=
  let '(male_score, female_score) := gender_scores name text email in
  decide_gender male_score female_score.

(** *** normalize_bfsi_score *)

Context {fl : FloatEnv}.

(** Only [ValueError] and [TypeError] are caught. *)
Definition normalize_bfsi_score (score : score_value) : outcome (option float) :=
  match py_float score with
  | inl score =>
      let score :=
        if PrimFloat.ltb 10 score then PrimFloat.div score 10 else score in
      Returned (Some (round1 score))
  | inr OverflowError => Raised OverflowError
  | inr _ => Returned None
  end.

(** *** extract_full_cv_fields *)

Context {dates : DateEnv}.

(** A field of the model's answer as a score. *)
Definition score_of (v : pyval) : score_value :=
  match v with
  | VNone => ScNone
  | VStr s => ScStr s
  | VList _ => ScOther
  end.

(** [str(normalize_bfsi_score(v) or "")]; a float is false when it is
    zero. *)
Definition finscore_text (v : pyval) : outcome str :=
  match normalize_bfsi_score (score_of v) with
  | Returned (Some x) =>
      Returned (if PrimFloat.eqb x 0 then [] else float_repr x)
  | Returned None => Returned []
  | Raised e => Raised e
  end.

(** [detect_gender] is called with fields of the model's answer, each a
    string, null or a list.  Null and the empty list skip their branch as the
    empty string does; a non-empty list reaches [name.split()], and a list
    holding ["@"] reaches [email.split("@")], both an [AttributeError]. *)
Definition name_argument (v : pyval) : option str :=
  match v with
  | VNone => Some []
  | VStr s => Some s
  | VList [] => Some []
  | VList (_ :: _) => None
  end.

Definition email_argument (v : pyval) : option str :=
  match v with
  | VNone => Some []
  | VStr s => Some s
  | VList items => if bool_decide (Some [AT] ∈ items) then None else Some []
  end.

Definition detect_gender_of (name : pyval) (text : str) (email : pyval)
    : option str :=
  n ← name_argument name;
  e ← email_argument email;
  Some (detect_gender n text e).

Definition location_keys : list string := [
  "cv_location_area"; "cv_location_city"; "cv_location_state";
  "cv_current_location"
]%string.

Definition past_keys : list string := [
  "cv_pastcompanies"; "cv_pastdesignations"; "cv_pastduration"
]%string.

(** [if key not in result or not result[key]: result[key] = DEFAULT_NA] *)
Definition ensure_location (result : gmap string pyval) (key : string)
    : gmap string pyval :=
  if truthy_value (default VNone (result !! key)) then result
  else <[key := VStr DEFAULT_NA]> result.

(** [", ".join(cleaned) if cleaned else DEFAULT_NA] *)
Definition joined_or_NA (cleaned : list str) : pyval :=
  VStr (match cleaned with
        | [] => DEFAULT_NA
        | _ => join (py ", ") cleaned
        end).

(** One turn of the first loop on the past positions; [result[key]] raises
    [KeyError] when the key is missing. *)
Definition first_past_step (result : gmap string pyval) (key : string)
    : option (gmap string pyval) :=
  v ← result !! key;
  Some (match v with
        | VList items => <[key := joined_or_NA (omap id items)]> result
        | _ => result
        end).

(** The items of a list when all are strings; [", ".join] raises
    [TypeError] on [None]. *)
Fixpoint all_strings (items : list (option str)) : option (list str) :=
  match items with
  | [] => Some []
  | Some s :: items' => cons s <$> all_strings items'
  | None :: _ => None
  end.

(** One turn of the second loop on the past positions. *)
Definition second_past_step (result : gmap string pyval) (key : string)
    : option (gmap string pyval) :=
  v ← result !! key;
  match v with
  | VList [] => Some (<[key := VStr DEFAULT_NA]> result)
  | VList items =>
      strs ← all_strings items;
      Some (<[key := VStr (join (py ", ") strs)]> result)
  | _ => Some result
  end.

(** [for key in keys: body], left by the first exception. *)
Fixpoint for_each_key
    (body : gmap string pyval -> string -> option (gmap string pyval))
    (keys : list string) (result : gmap string pyval)
    : option (gmap string pyval) :=
  match keys with
  | [] => Some result
  | key :: keys' => r ← body result key; for_each_key body keys' r
  end.

(** [result] is what [_extract_json_from_text] made of the model's reply to
    the prompt for [text], a JSON object; it is empty when the call of the
    model failed.  The outcome is [None] when an exception leaves the
    function. *)
Definition extract_full_cv_fields (result : gmap string pyval) (text : str)
    : option (gmap string pyval) :=
  finscore ←
    match finscore_text (default VNone (result !! "cv_finscore")) with
    | Returned finscore => Some finscore
    | Raised _ => None
    end;
  let result := <["cv_finscore" := VStr finscore]> result in
  let username := default (VStr DEFAULT_NA) (result !! "cv_username") in
  let email := default (VStr DEFAULT_NA) (result !! "cv_email") in
  gender ← detect_gender_of username text email;
  let result := <["cv_gender" := VStr gender]> result in
  let dateofbirth := default VNone (result !! "cv_dateofbirth") in
  let graduationyear := default VNone (result !! "cv_graduationyear") in
  let age :=
    if truthy_value dateofbirth then age_from_dateofbirth dateofbirth
    else if truthy_value graduationyear
         then age_from_graduationyear graduationyear
         else DEFAULT_NA in
  let result := <["cv_age" := VStr age]> result in
  let result := foldl ensure_location result location_keys in
  result ← for_each_key first_past_step past_keys result;
  for_each_key second_past_step past_keys result.

(** What the first loop on the past positions makes of a value. *)
Definition as_text (v : pyval) : pyval :=
  match v with
  | VList items => joined_or_NA (omap id items)
  | _ => v
  end.

(** The dictionary on which the two loops on the past positions start, when
    the score was written as [finscore] and [detect_gender] returned
    [gender]. *)
Definition with_derived_fields (result : gmap string pyval)
    (finscore gender : str) : gmap string pyval :=
  let result := <["cv_finscore" := VStr finscore]> result in
  let result := <["cv_gender" := VStr gender]> result in
  let dateofbirth := default VNone (result !! "cv_dateofbirth") in
  let graduationyear := default VNone (result !! "cv_graduationyear") in
  let age :=
    if truthy_value dateofbirth then age_from_dateofbirth dateofbirth
    else if truthy_value graduationyear
         then age_from_graduationyear graduationyear
         else DEFAULT_NA in
  let result := <["cv_age" := VStr age]> result in
  foldl ensure_location result location_keys.

(** The fields that [extract_full_cv_fields] writes. *)
Definition derived_keys : list string :=
  ["cv_finscore"; "cv_gender"; "cv_age"]%string ++ location_keys ++ past_keys.
End LlmUtils.
End llm_utils.

(** ** db/crud.py *)

Module crud.

(** [cols] are the columns of the table.  The outcome is the dictionary
    bound to the INSERT statement, or [None] for the [ValueError]. *)
Definition upsert_candidate_details (cols : list string)
    (details : gmap string pyval) : option (gmap string pyval) :=
  let payload := filter (fun kv => kv.1 ∈ cols) details in
  if decide (payload = ∅) then None else Some payload.
End crud.

(** ** app.py *)

Module app.

(** The table [mapping] of [upload_resume], in its order. *)
Definition mapping : list (string * string) := [
  ("cv_username", "username"); ("cv_mobile_number", "mobile_number");
  ("cv_gender", "gender");
  ("cv_current_company", "current_company"); ("cv_jobrole", "jobrole");
  ("cv_location_city", "current_location");
  ("cv_current_salary", "current_salary");
  ("cv_products_text", "products"); ("cv_sub_products_text", "sub_products");
  ("cv_location_code", "location_code"); ("cv_age", "age")
]%string.

(** [val not in (None, "")] *)
Definition present (val : pyval) : bool :=
  match val with
  | VNone => false
  | VStr [] => false
  | _ => true
  end.

(** One turn of [for k,v in mapping.items(): ...] *)
Definition fill_step (llm_info : gmap string pyval) (details : gmap string pyval)
    (kv : string * string) : gmap string pyval :=
  let val := default VNone (llm_info !! kv.1) in
  if present val then <[kv.2 := val]> details else details.

Definition fill_from_llm (llm_info : gmap string pyval) : gmap string pyval :=
  foldl (fill_step llm_info) ∅ mapping.

(** The dictionary [details] that [upload_resume] builds, from what the
    extractors returned for the normalized text: [emails] from
    [extract_emails], [phones] from [extract_phones], [name] from
    [extract_name], [llm_info] from the model ([{}] when it failed), and
    [cv_summary] from [extract_finscore_from_text]. *)
Definition upload_resume (llm_info : gmap string pyval)
    (emails phones : list str) (name : option str) (filename : str)
    (cv_summary : pyval) : gmap string pyval :=
  let details := fill_from_llm llm_info in
  let details :=
    match details !! "mobile_number", phones with
    | None, p :: _ => <["mobile_number" := VStr p]> details
    | _, _ => details
    end in
  let details :=
    match details !! "username", name with
    | None, Some (c :: n) => <["username" := VStr (c :: n)]> details
    | _, _ => details
    end in
  let details :=
    match details !! "username", emails with
    | None, e :: _ => <["username" := VStr (before AT e)]> details
    | _, _ => details
    end in
  let details := <["resume" := VStr (py "uploaded_" ++ filename)]> details in
  let details := <["created" := VNone]> details in
  <["cv_summary" := cv_summary]> details.

(** The last step of [upload_resume] on the dictionary built: what is sent
    to the table, if anything; the outer [None] is the [ValueError] of
    [upsert_candidate_details]. *)
Definition store (upload_to_db : bool) (cols : list string)
    (details : gmap string pyval) : option (option (gmap string pyval)) :=
  if upload_to_db && truthy_value (default VNone (details !! "mobile_number"))
  then Some <$> crud.upsert_candidate_details cols details
  else Some None.
End app.

(** ** Concrete surroundings, for running the functions on examples *)

(** A row of the [locations] table. *)
Record location_row := {
  loc_id : str;
  loc_area : str;
  loc_city : str;
  loc_state : str
}.

(** A [locations] table held in a list, the rows in the order the queries
    see them; strings compare as in ASCII. *)
Definition table_store (rows : list location_row) : LocationStore := {|
  by_city_state := fun city state =>
    loc_id <$> List.find (fun r =>
      str_eqb (List.map ascii_tolower (loc_city r)) (List.map ascii_tolower city)
      && str_eqb (List.map ascii_tolower (loc_state r)) (List.map ascii_tolower state))
      rows;
  by_area_city := fun area city =>
    loc_id <$> List.find (fun r =>
      str_eqb (List.map ascii_tolower (loc_area r)) (List.map ascii_tolower area)
      && str_eqb (List.map ascii_tolower (loc_city r)) (List.map ascii_tolower city))
      rows;
  by_free_text := fun loc =>
    match loc with
    | Some loc =>
        loc_id <$> List.find (fun r =>
          contains (loc_area r) loc || contains (loc_city r) loc
          || contains (loc_state r) loc) rows
    | None => None
    end
|}.

Definition sample_rows : list location_row := [
  {| loc_id := py "7"; loc_area := py "Andheri"; loc_city := py "Mumbai";
     loc_state := py "Maharashtra" |};
  {| loc_id := py "8"; loc_area := py "Baner"; loc_city := py "Pune";
     loc_state := py "Maharashtra" |};
  {| loc_id := py "9"; loc_area := py "Baner"; loc_city := py "Pune";
     loc_state := py "Goa" |}
].

Definition sample_names : NameDB := {|
  names_male := [py "rahul"; py "amit"];
  names_female := [py "asha"; py "priya"]
|}.

Definition sample_env : FileEnv := {|
  basename := py "cv.pdf";
  uuid4 := py "00000000-0000-4000-8000-000000000000";
  parsing_timestamp := py "2024-01-01 00:00:00";
  calculate_age := fun _ => DEFAULT_NA;
  calculate_cv_score := fun _ => py "0"
|}.

(** Floats for running examples.  The numerals read are those of the form
    digits, digits.digits, with an optional minus sign; a float is printed
    with one decimal, which is its [str] when it was rounded to one decimal
    and is below 10^16 in magnitude. *)
Fixpoint digits_value (acc : Z) (s : str) : option Z :=
  match s with
  | [] => Some acc
  | c :: s' =>
      if ascii_digit_p c
      then digits_value (10 * acc + Z.of_N (c - 48))%Z s'
      else None
  end.

(** The binary64 number nearest to [n / d], for [d > 0]. *)
Definition nearest_quotient (negative : bool) (n d : Z) : float :=
  match n, d with
  | Zpos n', Zpos d' =>
      SF2Prim (SFdiv prec emax (S754_finite negative n' 0)
                 (S754_finite false d' 0))
  | _, _ => SF2Prim (S754_zero negative)
  end.

Definition sample_parse_float (s : str) : option float :=
  let negative := match s with c :: _ => c =? HYPHEN | [] => false end in
  let body := if negative then tl s else s in
  let whole := before DOT body in
  let fraction := tl (skipn (length whole) body) in
  match whole ++ fraction with
  | [] => None
  | _ =>
      (fun n => nearest_quotient negative n (10 ^ Z.of_nat (length fraction))%Z)
        <$> digits_value 0 (whole ++ fraction)
  end.

(** Ten times the magnitude of a finite float, rounded to the nearest
    integer, ties to even. *)
Definition tenths (m : positive) (e : Z) : Z :=
  if (0 <=? e)%Z then (10 * Zpos m * 2 ^ e)%Z
  else
    let d := (2 ^ (- e))%Z in
    let q := (10 * Zpos m / d)%Z in
    let r := (10 * Zpos m mod d)%Z in
    if (2 * r <? d)%Z then q
    else if (d <? 2 * r)%Z then (q + 1)%Z
    else if Z.even q then q else (q + 1)%Z.

Definition sample_round1 (x : float) : float :=
  match Prim2SF x with
  | S754_finite negative m e =>
      if (0 <=? e)%Z then x else nearest_quotient negative (tenths m e) 10
  | _ => x
  end.

Fixpoint decimal_digits (fuel : nat) (n : Z) (acc : str) : str :=
  match fuel with
  | O => acc
  | S fuel' =>
      let acc' := (48 + Z.to_N (n mod 10)) :: acc in
      if (n <? 10)%Z then acc' else decimal_digits fuel' (n / 10)%Z acc'
  end.

Definition sample_float_repr (x : float) : str :=
  match Prim2SF x with
  | S754_zero negative => if negative then py "-0.0" else py "0.0"
  | S754_infinity negative => if negative then py "-inf" else py "inf"
  | S754_nan => py "nan"
  | S754_finite negative m e =>
      let k := tenths m e in
      (if negative then [HYPHEN] else [])
        ++ decimal_digits (S (Z.to_nat (Z.log2 k))) (k / 10)%Z []
        ++ [DOT] ++ decimal_digits 1 (k mod 10)%Z []
  end.

Definition sample_floats : FloatEnv := {|
  parse_float := sample_parse_float;
  round1 := sample_round1;
  float_repr := sample_float_repr
|}.

(** One run of the batch path on a small resume: the model gives a mobile
    number, a source and a list of past companies, and no name. *)
Definition sample_text : str :=
  py "Asha Rao" ++ [LF] ++ py "Phone +91-9876543210, Pune 411001" ++ [LF]
    ++ py "a.rao@example.com".

Definition sample_answer : gmap string pyval :=
  {[ "cv_mobile_number"%string := VStr (py "1111111111");
     "cv_source"%string := VStr (py "MODEL");
     "cv_pastcompanies"%string := VList [Some (py "A"); None; Some (py "B")] ]}.

Definition sample_cols : gset string := list_to_set import_cvs.ALL_COLUMNS.

Definition sample_record : gmap string (option str) :=
  default ∅
    (import_cvs.process_file (U:=ascii_tables) (names:=sample_names)
       (store:=table_store sample_rows) (env:=sample_env)
       sample_text sample_answer sample_cols).

(** A calendar that reads no date: both ages are the sentinel. *)
Definition sample_dates : DateEnv := {|
  age_from_dateofbirth := fun _ => DEFAULT_NA;
  age_from_graduationyear := fun _ => DEFAULT_NA
|}.

(** One run of [extract_full_cv_fields]: the model names the candidate and a
    score, gives no e-mail address, and lists the past positions. *)
Definition sample_reply : gmap string pyval :=
  {[ "cv_username"%string := VStr (py "Asha Rao");
     "cv_email"%string := VNone;
     "cv_finscore"%string := VStr (py "85");
     "cv_location_city"%string := VStr (py "Pune");
     "cv_pastcompanies"%string := VList [Some (py "A"); None; Some (py "B")];
     "cv_pastdesignations"%string := VList [];
     "cv_pastduration"%string := VStr (py "2 years") ]}.

Definition sample_plain_text : str := py "Asha Rao, Pune".

Definition sample_prepared : gmap string pyval :=
  default ∅
    (llm_utils.extract_full_cv_fields (U:=ascii_tables) (names:=sample_names)
       (fl:=sample_floats) (dates:=sample_dates) sample_reply sample_plain_text).
(** * Properties *)

(** ** Occurrences *)

Lemma starts_with_app (pat s : str) : starts_with pat (pat ++ s) = true.
Proof.
  induction pat as [| p pat IH]; [reflexivity |].
  simpl. now rewrite N.eqb_refl.
Qed.

(** [pat in s] is true of every text in which [pat] occurs. *)
Lemma occurs_contains (pat s : str) : occurs pat s -> contains pat s = true.
Proof.
  intros [l1 [l2 ->]].
  induction l1 as [| c l1 IH].
  - simpl app. destruct (pat ++ l2) eqn:E; simpl;
      rewrite <- E, starts_with_app; reflexivity.
  - simpl. rewrite IH. apply orb_true_r.
Qed.

(** ** Stripping *)

Lemma lstrip_by_suffix (p : char -> bool) (s : str) :
  exists dropped, s = dropped ++ lstrip_by p s.
Proof.
  induction s as [| c s [dropped IH]]; [now exists [] |].
  simpl. destruct (p c).
  - exists (c :: dropped). simpl. now f_equal.
  - now exists [].
Qed.

Lemma rstrip_by_prefix (p : char -> bool) (s : str) :
  exists dropped, s = rstrip_by p s ++ dropped.
Proof.
  unfold rstrip_by.
  destruct (lstrip_by_suffix p (rev s)) as [dropped H].
  exists (rev dropped).
  rewrite <- rev_app_distr, <- H. now rewrite rev_involutive.
Qed.

(** [strip] keeps a contiguous block of the text. *)
Lemma strip_by_infix (p : char -> bool) (s : str) :
  exists before after, s = before ++ strip_by p s ++ after.
Proof.
  unfold strip_by.
  destruct (lstrip_by_suffix p s) as [before Hb].
  destruct (rstrip_by_prefix p (lstrip_by p s)) as [after Ha].
  exists before, after. now rewrite <- Ha.
Qed.

Lemma lstrip_by_head (p : char -> bool) (s : str) (c : char) :
  head (lstrip_by p s) = Some c -> p c = false.
Proof.
  induction s as [| a s IH]; simpl; [discriminate |].
  destruct (p a) eqn:Ha; [exact IH |].
  simpl. intros [= <-]. exact Ha.
Qed.

Lemma lstrip_by_id (p : char -> bool) (s : str) :
  (forall c, head s = Some c -> p c = false) -> lstrip_by p s = s.
Proof.
  destruct s as [| a s]; [reflexivity |].
  intros H. simpl. now rewrite (H a eq_refl).
Qed.

Lemma head_rev_last (s : str) : head (rev s) = last s.
Proof.
  induction s as [| a s IH] using rev_ind; [reflexivity |].
  rewrite rev_app_distr. simpl. now rewrite last_snoc.
Qed.

Lemma rstrip_by_last (p : char -> bool) (s : str) (c : char) :
  last (rstrip_by p s) = Some c -> p c = false.
Proof.
  unfold rstrip_by. rewrite <- head_rev_last, rev_involutive.
  apply lstrip_by_head.
Qed.

Lemma rstrip_by_id (p : char -> bool) (s : str) :
  (forall c, last s = Some c -> p c = false) -> rstrip_by p s = s.
Proof.
  intros H. unfold rstrip_by.
  rewrite lstrip_by_id; [apply rev_involutive |].
  intros c. rewrite head_rev_last. apply H.
Qed.

Lemma rstrip_by_head (p : char -> bool) (s : str) (c : char) :
  head (rstrip_by p s) = Some c -> head s = Some c.
Proof.
  destruct (rstrip_by_prefix p s) as [dropped H].
  destruct (rstrip_by p s) as [| a r]; [discriminate |].
  intros [= <-]. now rewrite H.
Qed.

Lemma strip_by_head (p : char -> bool) (s : str) (c : char) :
  head (strip_by p s) = Some c -> p c = false.
Proof.
  unfold strip_by. intros H.
  apply rstrip_by_head in H. now apply lstrip_by_head in H.
Qed.

Lemma strip_by_last (p : char -> bool) (s : str) (c : char) :
  last (strip_by p s) = Some c -> p c = false.
Proof. unfold strip_by. apply rstrip_by_last. Qed.

Lemma strip_by_idempotent (p : char -> bool) (s : str) :
  strip_by p (strip_by p s) = strip_by p s.
Proof.
  unfold strip_by at 1.
  rewrite lstrip_by_id by apply strip_by_head.
  apply rstrip_by_id, strip_by_last.
Qed.

Lemma lstrip_by_nil (p : char -> bool) (s : str) :
  lstrip_by p s = [] -> Forall (fun c => p c = true) s.
Proof.
  induction s as [| c s IH]; simpl; [constructor |].
  destruct (p c) eqn:Hc; [| discriminate].
  intros H. constructor; auto.
Qed.

Lemma lstrip_by_all (p : char -> bool) (s : str) :
  Forall (fun c => p c = true) s -> lstrip_by p s = [].
Proof.
  induction 1 as [| c s Hc _ IH]; simpl; [reflexivity |].
  now rewrite Hc.
Qed.

Lemma lstrip_by_Forall (P : char -> Prop) (p : char -> bool) (s : str) :
  Forall P s -> Forall P (lstrip_by p s).
Proof.
  induction 1 as [| c s Hc Hs IH]; simpl; [constructor |].
  destruct (p c); [assumption | now constructor].
Qed.

Lemma strip_by_Forall (P : char -> Prop) (p : char -> bool) (s : str) :
  Forall P s -> Forall P (strip_by p s).
Proof.
  intros H. unfold strip_by, rstrip_by.
  apply List.Forall_rev, lstrip_by_Forall, List.Forall_rev, lstrip_by_Forall, H.
Qed.

Lemma strip_nil_all_space (s : str) : strip s = [] -> all_space s.
Proof.
  unfold strip, strip_by, rstrip_by. intros H.
  apply (f_equal (@rev char)) in H. rewrite rev_involutive in H. simpl in H.
  apply lstrip_by_nil in H.
  apply List.Forall_rev in H. rewrite rev_involutive in H.
  (* the characters dropped in front are spaces, the others too *)
  clear -H. induction s as [| c s IH]; [constructor |].
  simpl in H. destruct (is_space c) eqn:Hc.
  - constructor; [assumption | apply IH, H].
  - exfalso. inversion H; congruence.
Qed.

Lemma strip_all_space (s : str) : all_space s -> strip s = [].
Proof.
  intros H. unfold strip, strip_by. now rewrite (lstrip_by_all _ _ H).
Qed.

(** ** Lines *)

(** Induction along the computation of [splitlines]. *)
Lemma splitlines_ind (Q : str -> list str -> Prop) :
  Q [] [] ->
  (forall c, is_linebreak c = true -> Q [c] [[]]) ->
  (forall c d s,
      is_linebreak c = true -> ((c =? CR) && (d =? LF))%N = true ->
      Q s (splitlines s) -> Q (c :: d :: s) ([] :: splitlines s)) ->
  (forall c d s,
      is_linebreak c = true -> ((c =? CR) && (d =? LF))%N = false ->
      Q (d :: s) (splitlines (d :: s)) ->
      Q (c :: d :: s) ([] :: splitlines (d :: s))) ->
  (forall c s,
      is_linebreak c = false -> Q s (splitlines s) ->
      Q (c :: s) (match splitlines s with
                  | [] => [[c]]
                  | l :: ls => (c :: l) :: ls
                  end)) ->
  forall s, Q s (splitlines s).
Proof.
  intros Hnil Hlast Hcrlf Hbreak Hchar s.
  assert (Hgen : forall n s, (length s <= n)%nat -> Q s (splitlines s)).
  { clear s. induction n as [| n IH]; intros s Hlen.
    - destruct s; [exact Hnil | simpl in Hlen; lia].
    - destruct s as [| c s]; [exact Hnil |].
      simpl in Hlen. cbn [splitlines].
      destruct (is_linebreak c) eqn:Hc.
      + destruct s as [| d s]; [now apply Hlast |].
        simpl in Hlen.
        destruct ((c =? CR)%N && (d =? LF)%N) eqn:Hcd.
        * apply Hcrlf; [assumption | assumption | apply IH; lia].
        * apply Hbreak; [assumption | assumption | apply IH; simpl; lia].
      + apply Hchar; [assumption | apply IH; lia]. }
  apply (Hgen (length s)). lia.
Qed.

(** No line contains a line boundary. *)
Lemma splitlines_no_linebreak (s : str) :
  Forall (Forall (fun c => is_linebreak c = false)) (splitlines s).
Proof.
  apply (splitlines_ind (fun _ ls =>
           Forall (Forall (fun c => is_linebreak c = false)) ls)).
  - constructor.
  - intros. repeat constructor.
  - intros. constructor; [constructor | assumption].
  - intros. constructor; [constructor | assumption].
  - intros c t Hc IH. destruct (splitlines t) as [| l ls].
    + repeat constructor. assumption.
    + inversion IH; subst. constructor; [constructor |]; assumption.
Qed.

Lemma nonblank_lines_proper (t : str) : Forall proper_line (nonblank_lines t).
Proof.
  unfold nonblank_lines.
  pose proof (splitlines_no_linebreak t) as H.
  induction H as [| l ls Hl _ IH]; [constructor |].
  cbn [List.map List.filter].
  unfold str_eqb at 1. case_bool_decide as Hempty; cbn [negb]; [exact IH |].
  constructor; [| exact IH].
  split; [exact Hempty | now apply strip_by_Forall].
Qed.

Lemma filter_proper (f : str -> bool) (ls : list str) :
  Forall proper_line ls -> Forall proper_line (List.filter f ls).
Proof.
  intros H. apply List.Forall_forall. intros l Hl.
  apply List.filter_In in Hl. destruct Hl as [Hl _].
  rewrite List.Forall_forall in H. now apply H.
Qed.

Lemma join_LF_Forall (P : char -> Prop) (ls : list str) :
  P LF -> Forall (Forall P) ls -> Forall P (join [LF] ls).
Proof.
  intros HLF H. induction H as [| l ls Hl Hls IH]; [constructor |].
  destruct ls as [| l' ls]; [exact Hl |].
  change (join [LF] (l :: l' :: ls)) with (l ++ [LF] ++ join [LF] (l' :: ls)).
  apply Forall_app. split; [exact Hl |].
  apply Forall_app. split; [now repeat constructor | exact IH].
Qed.

Lemma proper_lines_no_CR (ls : list str) :
  Forall proper_line ls -> ~ In CR (join [LF] ls).
Proof.
  intros H Hin.
  assert (Hall : Forall (fun c => c <> CR) (join [LF] ls)).
  { apply join_LF_Forall; [discriminate |].
    eapply Forall_impl; [exact H |].
    intros l [_ Hl]. eapply Forall_impl; [exact Hl |].
    intros c Hc ->. vm_compute in Hc. discriminate. }
  rewrite List.Forall_forall in Hall. now apply (Hall CR Hin).
Qed.

(** The lines of a text are made of its characters. *)
Lemma splitlines_Forall (P : char -> Prop) (s : str) :
  Forall P s -> Forall (Forall P) (splitlines s).
Proof.
  assert (Hgen : forall n s, (length s <= n)%nat ->
                   Forall P s -> Forall (Forall P) (splitlines s)).
  { clear s. induction n as [| n IH]; intros s Hlen Hs.
    - destruct s; [constructor | simpl in Hlen; lia].
    - destruct s as [| c s]; [constructor |].
      inversion Hs as [| ? ? Hc Hs']; subst.
      simpl in Hlen. simpl.
      destruct (is_linebreak c).
      + destruct s as [| d s]; [repeat constructor |].
        inversion Hs' as [| ? ? Hd Hs'']; subst. simpl in Hlen.
        destruct ((c =? CR)%N && (d =? LF)%N);
          (constructor; [constructor | apply IH; [simpl; lia | assumption]]).
      + assert (Hrec : Forall (Forall P) (splitlines s))
          by (apply IH; [lia | assumption]).
        destruct (splitlines s) as [| l ls].
        * repeat constructor; assumption.
        * inversion Hrec; subst. constructor; [constructor |]; assumption. }
  apply (Hgen (length s) s). lia.
Qed.

Lemma nonblank_lines_blank (s : str) : all_space s -> nonblank_lines s = [].
Proof.
  intros H. unfold nonblank_lines.
  pose proof (splitlines_Forall _ s H) as Hl.
  induction Hl as [| l ls Hl _ IH]; [reflexivity |].
  simpl. rewrite (strip_all_space l Hl). simpl. exact IH.
Qed.

(** *** Joining lines and splitting again *)

(** [strip] leaves the non-blank lines alone. *)
Lemma nonblank_lines_stripped (t : str) :
  Forall (fun l => strip l = l) (nonblank_lines t).
Proof.
  apply List.Forall_forall. intros l Hl. unfold nonblank_lines in Hl.
  apply List.filter_In in Hl as [Hl _].
  apply List.in_map_iff in Hl as [l0 [<- _]].
  apply strip_by_idempotent.
Qed.

Lemma splitlines_line_then (l s : str) :
  Forall (fun c => is_linebreak c = false) l ->
  splitlines (l ++ LF :: s) = l :: splitlines s.
Proof.
  induction 1 as [| c l Hc _ IH].
  - cbn [app splitlines]. change (is_linebreak LF) with true. cbv iota.
    destruct s as [| d s]; reflexivity.
  - cbn [app splitlines]. rewrite Hc, IH. reflexivity.
Qed.

Lemma splitlines_one_line (l : str) :
  l <> [] -> Forall (fun c => is_linebreak c = false) l -> splitlines l = [l].
Proof.
  intros Hne H. induction H as [| c l Hc Hl IH]; [contradiction |].
  cbn [splitlines]. rewrite Hc.
  destruct l as [| d l]; [reflexivity |].
  rewrite IH by discriminate. reflexivity.
Qed.

(** Joining proper lines by line feeds and splitting again gives them back. *)
Lemma splitlines_join (ls : list str) :
  Forall proper_line ls -> splitlines (join [LF] ls) = ls.
Proof.
  induction 1 as [| l ls [Hne Hl] Hls IH]; [reflexivity |].
  destruct ls as [| l' ls]; [now apply splitlines_one_line |].
  change (join [LF] (l :: l' :: ls)) with (l ++ LF :: join [LF] (l' :: ls)).
  rewrite splitlines_line_then by assumption. now rewrite IH.
Qed.

Lemma nonblank_lines_join (ls : list str) :
  Forall proper_line ls -> Forall (fun l => strip l = l) ls ->
  nonblank_lines (join [LF] ls) = ls.
Proof.
  intros Hp Hs. unfold nonblank_lines. rewrite (splitlines_join ls Hp).
  induction Hp as [| l ls [Hne _] _ IH]; [reflexivity |].
  inversion Hs as [| ? ? Hl Hs']; subst.
  cbn [List.map List.filter]. rewrite Hl.
  unfold str_eqb at 1. case_bool_decide; [contradiction |].
  cbn [negb]. f_equal. now apply IH.
Qed.

Lemma join_LF_nonempty (l : str) (ls : list str) :
  l <> [] -> join [LF] (l :: ls) <> [].
Proof.
  intros Hne. destruct ls as [| l' ls]; [exact Hne |].
  change (join [LF] (l :: l' :: ls)) with (l ++ LF :: join [LF] (l' :: ls)).
  destruct l; [contradiction | discriminate].
Qed.

Lemma last_app_nonempty (a b : str) : b <> [] -> last (a ++ b) = last b.
Proof.
  intros Hb. destruct b as [| c b] using rev_ind; [contradiction |].
  now rewrite app_assoc, !last_snoc.
Qed.

Lemma join_LF_last (ls : list str) (c : char) :
  Forall proper_line ls ->
  last (join [LF] ls) = Some c -> exists l, In l ls /\ last l = Some c.
Proof.
  induction 1 as [| l ls [Hne _] Hls IH]; [discriminate |].
  destruct ls as [| l' ls].
  - intros H. exists l. split; [now left | exact H].
  - change (join [LF] (l :: l' :: ls)) with (l ++ LF :: join [LF] (l' :: ls)).
    rewrite last_app_nonempty by discriminate.
    change (LF :: join [LF] (l' :: ls)) with ([LF] ++ join [LF] (l' :: ls)).
    rewrite last_app_nonempty
      by (inversion Hls as [| ? ? [Hne' _] _]; subst; now apply join_LF_nonempty).
    intros H. destruct (IH H) as [l0 [Hin Hlast]].
    exists l0. split; [now right | exact Hlast].
Qed.

(** Stripped lines joined by line feeds need no stripping. *)
Lemma strip_join (ls : list str) :
  Forall proper_line ls -> Forall (fun l => strip l = l) ls ->
  strip (join [LF] ls) = join [LF] ls.
Proof.
  intros Hp Hs. unfold strip, strip_by.
  assert (Hhead : forall c, head (join [LF] ls) = Some c -> is_space c = false).
  { intros c Hc. destruct Hp as [| l ls [Hne _] _]; [discriminate |].
    inversion Hs as [| ? ? Hl _]; subst.
    assert (Hl0 : head l = Some c).
    { destruct ls as [| l' ls]; [exact Hc |].
      change (join [LF] (l :: l' :: ls)) with (l ++ LF :: join [LF] (l' :: ls))
        in Hc.
      destruct l; [contradiction | exact Hc]. }
    rewrite <- Hl in Hl0. exact (strip_by_head _ _ _ Hl0). }
  rewrite (lstrip_by_id _ _ Hhead).
  apply rstrip_by_id. intros c Hc.
  destruct (join_LF_last ls c Hp Hc) as [l [Hin Hlast]].
  rewrite List.Forall_forall in Hs. rewrite <- (Hs l Hin) in Hlast.
  exact (strip_by_last _ _ _ Hlast).
Qed.

(** ** Blank texts *)

Section Findall.
Context {U : Unicode}.

(** A matcher that never starts on a whitespace character finds nothing in
    a blank text. *)
Lemma findall_blank (m : matcher) (s : str) :
  (forall prev c s', is_space c = true -> m prev (c :: s') = None) ->
  all_space s -> findall m s = [].
Proof.
  intros Hm Hs. unfold findall. generalize (@None char).
  induction Hs as [| c s Hc _ IH]; intros prev; [reflexivity |].
  simpl. rewrite Hm by assumption. apply IH.
Qed.

Lemma in_class_not_space (cls : str) (c : char) :
  forallb (fun x => negb (is_space x)) cls = true ->
  in_class cls c = true -> is_space c = false.
Proof.
  intros Hcls Hin. unfold in_class in Hin.
  apply existsb_exists in Hin. destruct Hin as [x [Hx Heq]].
  apply N.eqb_eq in Heq. subst x.
  rewrite forallb_forall in Hcls. specialize (Hcls c Hx).
  now apply negb_true_iff in Hcls.
Qed.

Lemma EMAIL_REGEX_not_on_space (prev : option char) (c : char) (s : str) :
  is_space c = true -> import_cvs.EMAIL_REGEX prev (c :: s) = None.
Proof.
  intros Hc. unfold import_cvs.EMAIL_REGEX, email_match.
  destruct (in_class EMAIL_LOCAL c) eqn:Hin; [| reflexivity].
  apply in_class_not_space in Hin; [congruence | vm_compute; reflexivity].
Qed.

Lemma phone_core_not_on_space (c : char) (s : str) :
  is_space c = true -> import_cvs.phone_core (c :: s) = None.
Proof.
  intros Hc. unfold import_cvs.phone_core.
  destruct (in_class (py "6789") c) eqn:Hin; [| reflexivity].
  apply in_class_not_space in Hin; [congruence | vm_compute; reflexivity].
Qed.

Lemma PHONE_REGEX_not_on_space (prev : option char) (c : char) (s : str) :
  is_space c = true -> import_cvs.PHONE_REGEX prev (c :: s) = None.
Proof.
  intros Hc. unfold import_cvs.PHONE_REGEX.
  rewrite phone_core_not_on_space by assumption.
  destruct (starts_with (py "+91") (c :: s)) eqn:Hplus; [| reflexivity].
  exfalso. change (py "+91") with [43; 57; 49]%N in Hplus.
  cbn [starts_with] in Hplus. apply andb_true_iff in Hplus as [Hplus _].
  apply N.eqb_eq in Hplus. subst c. vm_compute in Hc. discriminate.
Qed.

Lemma PINCODE_REGEX_not_on_space (prev : option char) (c : char) (s : str) :
  is_space c = true -> import_cvs.PINCODE_REGEX prev (c :: s) = None.
Proof.
  intros Hc. unfold import_cvs.PINCODE_REGEX.
  destruct (in_class (py "123456789") c) eqn:Hin.
  - apply in_class_not_space in Hin; [congruence | vm_compute; reflexivity].
  - now rewrite andb_false_r.
Qed.

(** In a blank text the regex extractor finds nothing. *)
Lemma basic_regex_overrides_blank (text : str) (k : string) (v : str) :
  strip text = [] ->
  In (k, v) (import_cvs.basic_regex_overrides text) -> v = DEFAULT_NA.
Proof.
  intros Hblank Hin. apply strip_nil_all_space in Hblank.
  unfold import_cvs.basic_regex_overrides in Hin.
  rewrite (findall_blank _ text EMAIL_REGEX_not_on_space Hblank) in Hin.
  rewrite (findall_blank _ text PHONE_REGEX_not_on_space Hblank) in Hin.
  rewrite (findall_blank _ text PINCODE_REGEX_not_on_space Hblank) in Hin.
  rewrite (nonblank_lines_blank text Hblank) in Hin.
  simpl in Hin. intuition congruence.
Qed.

End Findall.

(** ** Runs of line feeds *)

Lemma lf_ok_mono (s : str) :
  forall k k', (k <= k')%nat -> lf_ok k s -> lf_ok k' s.
Proof.
  induction s as [| c s IH]; intros k k' Hk H; [exact I |].
  simpl in *. destruct (c =? LF)%N; [| exact H].
  destruct k as [| k]; [contradiction |].
  destruct k' as [| k']; [lia |].
  apply (IH k k'); [lia | exact H].
Qed.

Lemma lf_ok_tail (k : nat) (c : char) (s : str) :
  (k <= 2)%nat -> lf_ok k (c :: s) -> lf_ok 2 s.
Proof.
  intros Hk H. simpl in H. destruct (c =? LF)%N; [| exact H].
  destruct k as [| k]; [contradiction |].
  apply (lf_ok_mono s k 2); [lia | exact H].
Qed.

Lemma lf_ok_suffix (l1 : str) :
  forall (k : nat) (s : str), (k <= 2)%nat -> lf_ok k (l1 ++ s) -> lf_ok 2 s.
Proof.
  induction l1 as [| c l1 IH]; intros k s Hk H.
  - apply (lf_ok_mono s k 2); assumption.
  - apply (IH 2%nat s); [lia |]. apply (lf_ok_tail k c); assumption.
Qed.

Lemma lf_ok_prefix (s : str) :
  forall (k : nat) (l2 : str), lf_ok k (s ++ l2) -> lf_ok k s.
Proof.
  induction s as [| c s IH]; intros k l2 H; [exact I |].
  simpl in *. destruct (c =? LF)%N; [| now apply (IH 2%nat l2)].
  destruct k as [| k]; [contradiction | now apply (IH k l2)].
Qed.

Lemma lf_ok_strip (s : str) : lf_ok 2 s -> lf_ok 2 (strip s).
Proof.
  intros H.
  destruct (strip_by_infix is_space s) as [before [after Hs]].
  fold (strip s) in Hs. rewrite Hs in H.
  apply lf_ok_suffix in H; [| lia].
  now apply lf_ok_prefix in H.
Qed.

(** The shape excludes three line feeds in a row. *)
Lemma lf_ok_no_triple (s : str) : lf_ok 2 s -> ~ occurs [LF; LF; LF] s.
Proof.
  intros H [l1 [l2 Hs]]. rewrite Hs in H.
  apply lf_ok_suffix in H; [| lia].
  exact H.
Qed.

Lemma lf_free_ok (s : str) (k : nat) :
  Forall (fun c => is_linebreak c = false) s -> lf_ok k s.
Proof.
  intros H. revert k. induction H as [| c s Hc _ IH]; intros k; [exact I |].
  simpl. destruct (N.eqb_spec c LF) as [-> | _]; [| apply IH].
  vm_compute in Hc. discriminate.
Qed.

Lemma lf_ok_line_then (l J : str) (k : nat) :
  Forall (fun c => is_linebreak c = false) l -> l <> [] ->
  lf_ok 1 J -> lf_ok k (l ++ [LF] ++ J).
Proof.
  intros Hl Hne HJ. revert k.
  induction Hl as [| c l Hc Hl IH]; intros k; [contradiction |].
  simpl. destruct (N.eqb_spec c LF) as [-> | _];
    [vm_compute in Hc; discriminate |].
  destruct l as [| c' l]; [exact HJ |].
  apply IH. discriminate.
Qed.

(** Proper lines joined by single line feeds. *)
Lemma lf_ok_join (ls : list str) (k : nat) :
  Forall proper_line ls -> lf_ok k (join [LF] ls).
Proof.
  intros H. revert k. induction H as [| l ls [Hne Hl] Hls IH]; intros k; [exact I |].
  destruct ls as [| l' ls]; [now apply lf_free_ok |].
  change (join [LF] (l :: l' :: ls)) with (l ++ [LF] ++ join [LF] (l' :: ls)).
  apply lf_ok_line_then; [assumption | assumption | apply IH].
Qed.

Section NewlineRuns.
Context {U : Unicode}.
Import layout.

Lemma collapse_newlines_from_lf_ok (t : str) :
  forall run, (run <= 2)%nat -> lf_ok (2 - run) (collapse_newlines_from run t).
Proof.
  induction t as [| c t IH]; intros run Hrun; [exact I |].
  cbn [collapse_newlines_from].
  destruct (N.eqb_spec c LF) as [-> | Hc].
  - destruct (Nat.ltb_spec run 2) as [Hlt | Hge].
    + cbn [lf_ok]. rewrite N.eqb_refl.
      replace (2 - run)%nat with (S (2 - S run)) by lia.
      apply IH. lia.
    + apply IH. lia.
  - cbn [lf_ok]. destruct (N.eqb_spec c LF); [contradiction |].
    apply (IH 0%nat). lia.
Qed.

Lemma collapse_newlines_from_id (t : str) :
  forall run, (run <= 2)%nat -> lf_ok (2 - run) t ->
              collapse_newlines_from run t = t.
Proof.
  induction t as [| c t IH]; intros run Hrun H; [reflexivity |].
  cbn [collapse_newlines_from]. cbn [lf_ok] in H.
  destruct (N.eqb_spec c LF) as [-> | Hc].
  - destruct (Nat.ltb_spec run 2) as [Hlt | Hge].
    + f_equal. apply IH; [lia |].
      replace (2 - run)%nat with (S (2 - S run)) in H by lia. exact H.
    + replace (2 - run)%nat with 0%nat in H by lia. contradiction.
  - f_equal. apply (IH 0%nat); [lia | exact H].
Qed.

End NewlineRuns.

(** ** Blanks *)

Lemma blank_ok_weaken (s : str) (b : bool) : blank_ok b s -> blank_ok false s.
Proof. destruct s; [easy |]. simpl. tauto. Qed.

Lemma blank_ok_suffix (l1 : str) :
  forall (b : bool) (s : str), blank_ok b (l1 ++ s) -> blank_ok false s.
Proof.
  induction l1 as [| c l1 IH]; intros b s H.
  - now apply (blank_ok_weaken s b).
  - simpl in H. apply (IH (c =? SP)%N). tauto.
Qed.

Lemma blank_ok_prefix (s : str) :
  forall (b : bool) (l2 : str), blank_ok b (s ++ l2) -> blank_ok b s.
Proof.
  induction s as [| c s IH]; intros b l2 H; [exact I |].
  simpl in *. destruct H as [H1 [H2 H3]].
  split; [assumption | split; [assumption | now apply (IH _ l2)]].
Qed.

Lemma blank_ok_strip (s : str) (b : bool) : blank_ok b s -> blank_ok false (strip s).
Proof.
  intros H.
  destruct (strip_by_infix is_space s) as [before [after Hs]].
  fold (strip s) in Hs. rewrite Hs in H.
  apply blank_ok_suffix in H. now apply blank_ok_prefix in H.
Qed.

(** The lines of such a text are such texts. *)
Lemma blank_ok_splitlines (s : str) :
  forall b, blank_ok b s ->
            Forall (blank_ok false) (splitlines s) /\
            match splitlines s with
            | l :: _ => blank_ok b l
            | [] => True
            end.
Proof.
  apply (splitlines_ind (fun s ls =>
           forall b, blank_ok b s ->
                     Forall (blank_ok false) ls /\
                     match ls with l :: _ => blank_ok b l | [] => True end)).
  - intros b _. split; [constructor | exact I].
  - intros c _ b _. split; [repeat constructor | exact I].
  - intros c d t _ _ IH b H. cbn [blank_ok] in H.
    destruct H as [_ [_ [_ [_ H]]]].
    destruct (IH _ H) as [IH1 _].
    split; [constructor; [exact I | exact IH1] | exact I].
  - intros c d t _ _ IH b H.
    change (blank_ok b (c :: d :: t)) in H.
    destruct H as [_ [_ H]].
    destruct (IH _ H) as [IH1 _].
    split; [constructor; [exact I | exact IH1] | exact I].
  - intros c t _ IH b H.
    change (blank_ok b (c :: t)) in H.
    destruct H as [H1 [H2 H3]].
    destruct (IH _ H3) as [IH1 IH2].
    destruct (splitlines t) as [| l ls].
    + split; [repeat constructor; try assumption; discriminate |].
      cbn [blank_ok]. tauto.
    + assert (Hhead : blank_ok b (c :: l)) by (cbn [blank_ok]; tauto).
      inversion IH1; subst.
      split; [constructor; [now apply (blank_ok_weaken _ b) | assumption]
             | exact Hhead].
Qed.

Lemma nonblank_lines_blank_ok (t : str) (b : bool) :
  blank_ok b t -> Forall (blank_ok false) (nonblank_lines t).
Proof.
  intros H. destruct (blank_ok_splitlines t b H) as [Hl _].
  unfold nonblank_lines.
  induction Hl as [| l ls Hl _ IH]; [constructor |].
  cbn [List.map List.filter].
  destruct (negb (str_eqb (strip l) [])); [| exact IH].
  constructor; [now apply (blank_ok_strip l false) | exact IH].
Qed.

Lemma blank_ok_line_then (l J : str) (b : bool) :
  blank_ok b l -> blank_ok false J -> blank_ok b (l ++ [LF] ++ J).
Proof.
  revert b. induction l as [| c l IH]; intros b Hl HJ.
  - cbn [app blank_ok]. split; [discriminate | split; [discriminate | exact HJ]].
  - cbn [app blank_ok] in *. destruct Hl as [H1 [H2 H3]].
    split; [assumption | split; [assumption | now apply IH]].
Qed.

Lemma blank_ok_join (ls : list str) :
  Forall (blank_ok false) ls -> blank_ok false (join [LF] ls).
Proof.
  induction 1 as [| l ls Hl Hls IH]; [exact I |].
  destruct ls as [| l' ls]; [exact Hl |].
  change (join [LF] (l :: l' :: ls)) with (l ++ [LF] ++ join [LF] (l' :: ls)).
  now apply blank_ok_line_then.
Qed.

Section BlankRuns.
Context {U : Unicode}.
Import layout.

Lemma collapse_blanks_from_ok (t : str) :
  forall in_run, blank_ok in_run (collapse_blanks_from in_run t).
Proof.
  induction t as [| c t IH]; intros in_run; [exact I |].
  cbn [collapse_blanks_from]. unfold is_blank.
  destruct (N.eqb_spec c SP) as [-> | Hsp]; cbn [orb].
  - destruct in_run; [apply IH |].
    cbn [blank_ok]. split; [discriminate | split; [reflexivity | apply IH]].
  - destruct (N.eqb_spec c TAB) as [-> | Htab].
    + destruct in_run; [apply IH |].
      cbn [blank_ok]. split; [discriminate | split; [reflexivity | apply IH]].
    + cbn [blank_ok]. split; [assumption | split; [contradiction |]].
      destruct (N.eqb_spec c SP); [contradiction | apply IH].
Qed.

Lemma collapse_blanks_from_id (t : str) :
  forall in_run, blank_ok in_run t -> collapse_blanks_from in_run t = t.
Proof.
  induction t as [| c t IH]; intros in_run H; [reflexivity |].
  cbn [collapse_blanks_from]. cbn [blank_ok] in H.
  destruct H as [Htab [Hsp H]]. unfold is_blank.
  destruct (N.eqb_spec c SP) as [-> | Hne]; cbn [orb].
  - rewrite (Hsp eq_refl). f_equal. now apply IH.
  - destruct (N.eqb_spec c TAB); [contradiction |].
    f_equal. now apply IH.
Qed.

Lemma is_word_not_SP (c : char) : is_word c = true -> c <> SP.
Proof.
  intros H ->. unfold is_word in H. rewrite isalnum_SP in H.
  vm_compute in H. discriminate.
Qed.

Lemma join_hyphens_blank_ok (t : str) :
  forall b, blank_ok b t -> blank_ok b (join_hyphens t).
Proof.
  assert (Hgen : forall n t, (length t <= n)%nat ->
                   forall b, blank_ok b t -> blank_ok b (join_hyphens t)).
  { clear t. induction n as [| n IH]; intros t Hlen b H.
    - destruct t; [exact I | simpl in Hlen; lia].
    - destruct t as [| a t]; [exact I |].
      simpl in Hlen. cbn [blank_ok] in H. destruct H as [Ha1 [Ha2 Ht]].
      assert (Hplain : blank_ok b (a :: join_hyphens t)).
      { cbn [blank_ok].
        split; [assumption | split; [assumption | apply IH; [lia | exact Ht]]]. }
      cbn [join_hyphens].
      destruct t as [| h [| n0 [| b0 rest]]]; try exact Hplain.
      destruct (is_word a && (h =? HYPHEN)%N && (n0 =? LF)%N && is_word b0)
        eqn:Hm; [| exact Hplain].
      apply andb_true_iff in Hm as [Hm Hb0].
      cbn [blank_ok] in Ht.
      destruct Ht as [_ [_ [_ [_ [Hb1 [_ Hrest]]]]]].
      cbn [blank_ok].
      split; [assumption | split; [assumption |]].
      split; [assumption |].
      split; [intros Hsp; now apply is_word_not_SP in Hb0 |].
      apply IH; [simpl in Hlen; lia | exact Hrest]. }
  apply (Hgen (length t)). lia.
Qed.

Lemma collapse_newlines_from_blank_ok (t : str) :
  forall run b, (0 < run -> b = false)%nat -> blank_ok b t ->
                blank_ok b (collapse_newlines_from run t).
Proof.
  induction t as [| c t IH]; intros run b Hrun H; [exact I |].
  cbn [collapse_newlines_from]. cbn [blank_ok] in H.
  destruct H as [H1 [H2 H3]].
  destruct (N.eqb_spec c LF) as [-> | Hc].
  - change (LF =? SP)%N with false in H3.
    destruct (Nat.ltb_spec run 2) as [Hlt | Hge].
    + cbn [blank_ok]. split; [assumption | split; [assumption |]].
      change (LF =? SP)%N with false. now apply IH.
    + (* a dropped line feed follows two kept ones *)
      assert (Hb : b = false) by (apply Hrun; lia).
      subst b. now apply IH.
  - cbn [blank_ok]. split; [assumption | split; [assumption |]].
    apply IH; [intros; lia | exact H3].
Qed.

Lemma clean_up_blank_ok (text : str) : blank_ok false (clean_up text).
Proof.
  unfold clean_up, collapse_newlines, collapse_blanks.
  apply collapse_newlines_from_blank_ok; [reflexivity |].
  apply join_hyphens_blank_ok, collapse_blanks_from_ok.
Qed.

End BlankRuns.

(** ** The shape of a normalized text *)

Section NormalizedShape.
Context {U : Unicode}.
Import layout.

Lemma clean_up_lf_ok (text : str) : lf_ok 2 (clean_up text).
Proof.
  unfold clean_up, collapse_newlines.
  apply (collapse_newlines_from_lf_ok _ 0%nat). lia.
Qed.

(** The two ways [trim_boilerplate] ends: the text as it is, or some of its
    non-blank lines joined by line feeds; stripped in both. *)
Lemma trim_boilerplate_cases (t : str) :
  ((length (nonblank_lines t) <= 6)%nat /\ trim_boilerplate t = strip t) \/
  ((6 < length (nonblank_lines t))%nat /\
   exists ls, Forall proper_line ls /\
              (forall l, In l ls -> In l (nonblank_lines t)) /\
              trim_boilerplate t = strip (join [LF] ls)).
Proof.
  unfold trim_boilerplate. cbv zeta.
  destruct (Nat.ltb_spec 6 (length (nonblank_lines t))) as [Hlong | Hshort];
    [right | left; split; [lia | reflexivity]].
  split; [exact Hlong |].
  set (keep := fun ln : str =>
         negb (mem ln (firstn 2 (nonblank_lines t)))
         && negb (mem ln (lastn 2 (nonblank_lines t)))).
  destruct (List.filter keep (nonblank_lines t)) as [| l ls] eqn:Hf.
  - exists (nonblank_lines t).
    split; [apply nonblank_lines_proper | split; [auto | reflexivity]].
  - exists (l :: ls). rewrite <- Hf.
    split; [apply filter_proper, nonblank_lines_proper |].
    split; [| reflexivity].
    intros l0 Hl0. apply List.filter_In in Hl0. tauto.
Qed.

Lemma In_strip (c : char) (s : str) : In c (strip s) -> In c s.
Proof.
  intros H. destruct (strip_by_infix is_space s) as [before [after Hs]].
  fold (strip s) in Hs. rewrite Hs.
  apply in_or_app. right. apply in_or_app. now left.
Qed.

(** C10, as amended.  The normalized text has no three line feeds in a row
    and neither starts nor ends with whitespace.  When the cleaned text has
    more than six non-blank lines, these are joined anew by single line
    feeds: the normalized text is then free of carriage returns and has no
    blank line at all.  Otherwise only the pairs CR LF have been rewritten
    and only runs of line feeds shortened, so a carriage return that stands
    alone is kept, and so are lines of whitespace. *)
Theorem normalize_text_shape (text : str) :
  let out := normalize_text text in
  ~ occurs [LF; LF; LF] out /\
  (forall c, head out = Some c -> is_space c = false) /\
  (forall c, last out = Some c -> is_space c = false) /\
  ((6 < length (nonblank_lines (clean_up text)))%nat ->
   ~ In CR out /\ Forall (fun l => strip l <> []) (splitlines out)).
Proof.
  cbv zeta. unfold normalize_text.
  destruct text as [| c0 text0].
  { split; [| split; [| split]].
    - intros [l1 [l2 H]]. destruct l1; discriminate.
    - discriminate.
    - discriminate.
    - intros _. split; [intros [] | constructor]. }
  set (text := c0 :: text0).
  split; [| split; [| split]].
  - apply lf_ok_no_triple.
    destruct (trim_boilerplate_cases (clean_up text))
      as [[_ ->] | [_ [ls [Hls [_ ->]]]]].
    + apply lf_ok_strip, clean_up_lf_ok.
    + apply lf_ok_strip, lf_ok_join, Hls.
  - destruct (trim_boilerplate_cases (clean_up text))
      as [[_ ->] | [_ [ls [_ [_ ->]]]]]; apply strip_by_head.
  - destruct (trim_boilerplate_cases (clean_up text))
      as [[_ ->] | [_ [ls [_ [_ ->]]]]]; apply strip_by_last.
  - intros Hlong.
    destruct (trim_boilerplate_cases (clean_up text))
      as [[Hshort _] | [_ [ls [Hls [Hsub ->]]]]]; [lia |].
    split.
    + intros Hin. apply In_strip in Hin.
      exact (proper_lines_no_CR ls Hls Hin).
    + assert (Hs : Forall (fun l => strip l = l) ls).
      { apply List.Forall_forall. intros l Hl.
        pose proof (nonblank_lines_stripped (clean_up text)) as H.
        rewrite List.Forall_forall in H. apply H, Hsub, Hl. }
      rewrite strip_join, splitlines_join by assumption.
      apply List.Forall_forall. intros l Hl.
      rewrite List.Forall_forall in Hs, Hls.
      rewrite (Hs l Hl). exact (proj1 (Hls l Hl)).
Qed.

End NormalizedShape.

Lemma normalize_text_shape_witness :
  let text :=
    join [CR] [py "a"; py "b"; py "c"; py "d"; py "e"; py "f"; py "g"; py "h"] in
  (6 < length (nonblank_lines (layout.clean_up (U:=ascii_tables) text)))%nat /\
  ~ In CR (layout.normalize_text (U:=ascii_tables) text) /\
  Forall (fun l => strip l <> [])
    (splitlines (layout.normalize_text (U:=ascii_tables) text)).
Proof.
  intros text.
  assert (Hlong : (6 < length (nonblank_lines
                                 (layout.clean_up (U:=ascii_tables) text)))%nat)
    by (vm_compute; lia).
  split; [exact Hlong |].
  exact (proj2 (proj2 (proj2 (normalize_text_shape (U:=ascii_tables) text))) Hlong).
Defined.

(** C10, the claim as stated fails twice.  A carriage return that is not
    followed by a line feed stays in the normalized text.  And blank lines
    stay in any number when the line feeds between them are not adjacent:
    three lines holding one space each are returned as they are, and so are
    four empty lines bounded by carriage returns. *)
Lemma normalize_text_keeps_CR_and_blank_lines :
  let one_cr := py "a" ++ [CR] ++ py "b" in
  let spaces := py "a" ++ [LF; SP; LF; SP; LF; SP; LF] ++ py "b" in
  let many_cr := py "a" ++ [CR; CR; CR; CR; CR] ++ py "b" in
  (layout.normalize_text (U:=ascii_tables) one_cr = one_cr /\
   In CR (layout.normalize_text (U:=ascii_tables) one_cr)) /\
  (layout.normalize_text (U:=ascii_tables) spaces = spaces /\
   splitlines (layout.normalize_text (U:=ascii_tables) spaces)
   = [py "a"; [SP]; [SP]; [SP]; py "b"] /\
   strip [SP] = []) /\
  (layout.normalize_text (U:=ascii_tables) many_cr = many_cr /\
   splitlines (layout.normalize_text (U:=ascii_tables) many_cr)
   = [py "a"; []; []; []; []; py "b"]).
Proof.
  vm_compute. repeat split; tauto.
Qed.

(** ** Normalizing twice *)

Section Idempotence.
Context {U : Unicode}.
Import layout.

Lemma crlf_to_lf_id (s : str) : ~ occurs [CR; LF] s -> crlf_to_lf s = s.
Proof.
  induction s as [| c s IH]; intros Hpair; [reflexivity |].
  cbn [crlf_to_lf].
  destruct s as [| d s]; [reflexivity |].
  destruct ((c =? CR)%N && (d =? LF)%N) eqn:Hcd.
  - exfalso. apply Hpair.
    apply andb_true_iff in Hcd as [Hc Hd].
    apply N.eqb_eq in Hc, Hd. subst c d. now exists [], s.
  - f_equal. apply IH. intros [l1 [l2 Hs]].
    apply Hpair. exists (c :: l1), l2. now rewrite Hs.
Qed.

Lemma normalize_text_stripped (text : str) :
  strip (normalize_text text) = normalize_text text.
Proof.
  unfold normalize_text. destruct text as [| c text]; [reflexivity |].
  unfold trim_boilerplate. cbv zeta. apply strip_by_idempotent.
Qed.

Lemma normalize_text_lf_ok (text : str) : lf_ok 2 (normalize_text text).
Proof.
  unfold normalize_text. destruct text as [| c text]; [exact I |].
  destruct (trim_boilerplate_cases (clean_up (c :: text)))
    as [[_ ->] | [_ [ls [Hls [_ ->]]]]].
  - apply lf_ok_strip, clean_up_lf_ok.
  - apply lf_ok_strip, lf_ok_join, Hls.
Qed.

Lemma normalize_text_blank_ok (text : str) : blank_ok false (normalize_text text).
Proof.
  unfold normalize_text. destruct text as [| c text]; [exact I |].
  destruct (trim_boilerplate_cases (clean_up (c :: text)))
    as [[_ ->] | [_ [ls [_ [Hsub ->]]]]].
  - apply (blank_ok_strip _ false), clean_up_blank_ok.
  - apply (blank_ok_strip _ false), blank_ok_join.
    apply List.Forall_forall. intros l Hl.
    pose proof (nonblank_lines_blank_ok _ _ (clean_up_blank_ok (c :: text))) as H.
    rewrite List.Forall_forall in H. apply H, Hsub, Hl.
Qed.

(** C2, as amended.  Normalizing a normalized text changes nothing when that
    text is in NFKC form, holds no pair CR LF, holds no remaining
    word-hyphen-line-feed-word break, and has at most six non-blank lines. *)
Theorem normalize_text_idempotent_when_settled (text : str) :
  let out := normalize_text text in
  nfkc out = out ->
  ~ occurs [CR; LF] out ->
  join_hyphens out = out ->
  (length (nonblank_lines out) <= 6)%nat ->
  normalize_text out = out.
Proof.
  intros out Hnfkc Hcr Hhyphen Hlines.
  assert (Hclean : clean_up out = out).
  { unfold clean_up. rewrite Hnfkc, (crlf_to_lf_id out Hcr).
    unfold collapse_blanks.
    rewrite (collapse_blanks_from_id out false (normalize_text_blank_ok text)).
    rewrite Hhyphen. unfold collapse_newlines.
    apply collapse_newlines_from_id; [lia | apply normalize_text_lf_ok]. }
  unfold normalize_text at 1.
  destruct out as [| c out'] eqn:Hout; [reflexivity |].
  rewrite Hclean. unfold trim_boilerplate. cbv zeta.
  destruct (Nat.ltb_spec 6 (length (nonblank_lines (c :: out')))) as [Hlong | _];
    [lia |].
  rewrite <- Hout. apply normalize_text_stripped.
Qed.

End Idempotence.

Lemma normalize_text_idempotent_when_settled_witness :
  let text :=
    py "  Hello 	 World " ++ [CR; LF; CR; LF; LF; LF] ++ py "Bye-" ++ [LF]
      ++ py "now " in
  let out := layout.normalize_text (U:=ascii_tables) text in
  out = py "Hello World " ++ [LF; LF] ++ py "Byenow" /\
  layout.normalize_text (U:=ascii_tables) out = out.
Proof.
  intros text out. split; [vm_compute; reflexivity |].
  apply (normalize_text_idempotent_when_settled (U:=ascii_tables) text).
  - reflexivity.
  - intros Hpair. apply occurs_contains in Hpair.
    vm_compute in Hpair. discriminate.
  - vm_compute. reflexivity.
  - vm_compute. lia.
Defined.

(** C2, the claim as stated fails: of two hyphenated line breaks that share a
    word character the first pass joins only the first, and the second pass
    joins the other. *)
Lemma normalize_text_twice_differs :
  let text := py "a-" ++ [LF] ++ py "b-" ++ [LF] ++ py "c" in
  layout.normalize_text (U:=ascii_tables) text = py "ab-" ++ [LF] ++ py "c" /\
  layout.normalize_text (U:=ascii_tables)
    (layout.normalize_text (U:=ascii_tables) text) = py "abc" /\
  layout.normalize_text (U:=ascii_tables)
    (layout.normalize_text (U:=ascii_tables) text)
  <> layout.normalize_text (U:=ascii_tables) text.
Proof. vm_compute. split; [reflexivity | split; [reflexivity | discriminate]]. Qed.

(** ** Scan detection *)

Section ScanDetection.
Import pdf_utils.

Lemma total_chars_app (a b : list get_text_result) :
  total_chars (a ++ b) = (total_chars a + total_chars b)%nat.
Proof. unfold total_chars. now rewrite List.map_app, list_sum_app. Qed.

Lemma scan_pages_step (min_chars n : nat) (p : get_text_result)
    (rest : list get_text_result) :
  p <> Raises ->
  scan_pages min_chars n (p :: rest)
  = if (min_chars <=? n + page_chars p)%nat then false
    else scan_pages min_chars (n + page_chars p)%nat rest.
Proof. intros Hp. destruct p; simpl; try reflexivity; contradiction. Qed.

(** Below the threshold the loop goes on with the count increased. *)
Lemma scan_pages_below (min_chars : nat) (pre : list get_text_result) :
  forall (n : nat) (rest : list get_text_result),
    readable pre ->
    (n + total_chars pre < min_chars)%nat ->
    scan_pages min_chars n (pre ++ rest)
    = scan_pages min_chars (n + total_chars pre)%nat rest.
Proof.
  induction pre as [| p pre IH]; intros n rest Hr Hlt.
  - simpl. unfold total_chars. simpl. now rewrite Nat.add_0_r.
  - inversion Hr as [| ? ? Hp Hpre]; subst.
    change (p :: pre) with ([p] ++ pre) in Hlt.
    rewrite total_chars_app in Hlt.
    assert (Hp1 : total_chars [p] = page_chars p)
      by (unfold total_chars; simpl; lia).
    simpl app. rewrite scan_pages_step by assumption.
    destruct (Nat.leb_spec min_chars (n + page_chars p)) as [Hge | Hlt'];
      [lia |].
    rewrite IH by (assumption || lia).
    f_equal. change (p :: pre) with ([p] ++ pre).
    rewrite total_chars_app. lia.
Qed.

(** Once the count is reached the answer is [false], whatever follows. *)
Lemma scan_pages_reached (min_chars : nat) (pre : list get_text_result) :
  forall (n : nat) (p : get_text_result) (rest : list get_text_result),
    readable (pre ++ [p]) ->
    (min_chars <= n + total_chars (pre ++ [p]))%nat ->
    scan_pages min_chars n (pre ++ p :: rest) = false.
Proof.
  induction pre as [| q pre IH]; intros n p rest Hr Hge.
  - inversion Hr as [| ? ? Hp _]; subst.
    simpl app. rewrite scan_pages_step by assumption.
    unfold total_chars in Hge. simpl in Hge.
    destruct (Nat.leb_spec min_chars (n + page_chars p)); [reflexivity | lia].
  - simpl app in Hr. inversion Hr as [| ? ? Hq Hrest]; subst.
    simpl app. rewrite scan_pages_step by assumption.
    destruct (Nat.leb_spec min_chars (n + page_chars q)); [reflexivity |].
    apply IH; [assumption |].
    change ((q :: pre) ++ [p]) with ([q] ++ (pre ++ [p])) in Hge.
    rewrite total_chars_app in Hge.
    unfold total_chars at 1 in Hge. simpl in Hge. lia.
Qed.

(** The code's count is the measure of the specification. *)
Lemma non_space_count_spec (txt : str) :
  non_space_count txt = non_whitespace_chars txt.
Proof.
  unfold non_space_count. induction txt as [| c txt IH]; [reflexivity |].
  cbn [List.filter non_whitespace_chars].
  destruct (is_space c); cbn [negb length]; now rewrite IH.
Qed.

Lemma total_chars_spec (pages : list get_text_result) :
  total_chars pages = running_count pages.
Proof.
  induction pages as [| p pages IH]; [reflexivity |].
  change (total_chars (p :: pages))
    with (page_chars p + total_chars pages)%nat.
  rewrite IH.
  destruct p; cbn [page_chars running_count]; rewrite ?non_space_count_spec;
    reflexivity.
Qed.

(** C6.  With the per-page texts of a document: the detector answers
    [false] as soon as the running count of non-whitespace characters reaches
    the threshold (200 by default), whatever the remaining pages are, even
    pages that cannot be read; it answers [true] when all pages are read
    below the threshold; and it answers [true] when the converter fails, on
    opening the document or on a page before the threshold.  Whitespace
    characters do not count. *)
Theorem is_scanned_pdf_bytes_threshold (min_chars : nat) :
  (forall pre p rest,
      readable (pre ++ [p]) ->
      (min_chars <= running_count (pre ++ [p]))%nat ->
      is_scanned_pdf_bytes (Some (pre ++ p :: rest)) min_chars = false) /\
  (forall pages,
      readable pages ->
      (running_count pages < min_chars)%nat ->
      is_scanned_pdf_bytes (Some pages) min_chars = true) /\
  is_scanned_pdf_bytes None min_chars = true /\
  (forall pre rest,
      readable pre ->
      (running_count pre < min_chars)%nat ->
      is_scanned_pdf_bytes (Some (pre ++ Raises :: rest)) min_chars = true).
Proof.
  repeat apply conj.
  - intros pre p rest Hr Hge. unfold is_scanned_pdf_bytes.
    rewrite <- total_chars_spec in Hge. now apply scan_pages_reached.
  - intros pages Hr Hlt. unfold is_scanned_pdf_bytes.
    rewrite <- total_chars_spec in Hlt.
    rewrite <- (app_nil_r pages).
    rewrite scan_pages_below by (assumption || lia). reflexivity.
  - reflexivity.
  - intros pre rest Hr Hlt. unfold is_scanned_pdf_bytes.
    rewrite <- total_chars_spec in Hlt.
    rewrite scan_pages_below by (assumption || lia). reflexivity.
Qed.

End ScanDetection.

(** Two documents on which whitespace decides.  The first has one page of
    199 letters between 120 blanks: 319 characters, of which 199 count, and
    the answer is [true].  The second reaches 200 counted characters on its
    third page, whose first character is a blank, and the answer is [false]
    although a page that cannot be read follows. *)
Lemma is_scanned_pdf_bytes_threshold_witness :
  let sparse :=
    [pdf_utils.Text (List.repeat SP 60 ++ List.repeat 120%N 199
                       ++ List.repeat LF 60)] in
  let pre := [pdf_utils.Text (List.repeat 120%N 150 ++ [LF]); pdf_utils.NoText] in
  let p := pdf_utils.Text (SP :: List.repeat 121%N 50) in
  let rest := [pdf_utils.Raises; pdf_utils.Text (py "z")] in
  (pdf_utils.readable sparse /\
   (pdf_utils.running_count sparse < pdf_utils.default_min_chars)%nat /\
   (pdf_utils.default_min_chars
    <= list_sum (List.map (fun p => match p with
                                    | pdf_utils.Text t => length t
                                    | _ => 0%nat
                                    end) sparse))%nat /\
   pdf_utils.is_scanned_pdf_bytes (Some sparse) pdf_utils.default_min_chars
   = true) /\
  (pdf_utils.readable (pre ++ [p]) /\
   (pdf_utils.default_min_chars <= pdf_utils.running_count (pre ++ [p]))%nat /\
   pdf_utils.is_scanned_pdf_bytes (Some (pre ++ p :: rest))
     pdf_utils.default_min_chars = false).
Proof.
  intros sparse pre p rest.
  assert (Hs : pdf_utils.readable sparse)
    by (repeat constructor; discriminate).
  assert (Hlt : (pdf_utils.running_count sparse
                 < pdf_utils.default_min_chars)%nat)
    by (apply Nat.ltb_lt; vm_compute; reflexivity).
  assert (Hr : pdf_utils.readable (pre ++ [p]))
    by (repeat constructor; discriminate).
  assert (Hn : (pdf_utils.default_min_chars
                <= pdf_utils.running_count (pre ++ [p]))%nat)
    by (apply Nat.leb_le; vm_compute; reflexivity).
  split.
  - split; [exact Hs | split; [exact Hlt | split]].
    + apply Nat.leb_le. vm_compute. reflexivity.
    + exact (proj1 (proj2 (is_scanned_pdf_bytes_threshold
                             pdf_utils.default_min_chars)) sparse Hs Hlt).
  - split; [exact Hr | split; [exact Hn |]].
    exact (proj1 (is_scanned_pdf_bytes_threshold pdf_utils.default_min_chars)
             pre p rest Hr Hn).
Defined.

(** ** Mobile numbers *)

Section MobileNumber.
Context {U : Unicode}.

Lemma length_lastn {A} (n : nat) (l : list A) :
  (n <= length l)%nat -> length (lastn n l) = n.
Proof. intros H. unfold lastn. rewrite length_skipn. lia. Qed.

Lemma lastn_all {A} (n : nat) (l : list A) :
  (length l <= n)%nat -> lastn n l = l.
Proof.
  intros H. unfold lastn.
  replace (length l - n)%nat with 0%nat by lia. reflexivity.
Qed.

Lemma Forall_lastn {A} (P : A -> Prop) (n : nat) (l : list A) :
  Forall P l -> Forall P (lastn n l).
Proof. intros H. unfold lastn. now apply Forall_drop. Qed.

Lemma filter_isdecimal_Forall (s : str) :
  Forall (fun c => isdecimal c = true) (List.filter isdecimal s).
Proof.
  apply List.Forall_forall. intros c Hc.
  apply List.filter_In in Hc. tauto.
Qed.

Lemma sentinel_has_few_digits :
  (length (List.filter isdecimal DEFAULT_NA) <= 4)%nat.
Proof. apply (List.filter_length_le isdecimal DEFAULT_NA). Qed.

(** C5.  [clean_mobile_number] returns the last ten digit characters of an
    input with at least ten of them, the sentinel for an input with fewer,
    and in every case the sentinel or exactly ten digit characters. *)
Theorem clean_mobile_number_last_ten (raw_number : str) :
  let digits := List.filter isdecimal raw_number in
  ((10 <= length digits)%nat ->
     import_cvs.clean_mobile_number raw_number = lastn 10 digits) /\
  ((length digits < 10)%nat ->
     import_cvs.clean_mobile_number raw_number = DEFAULT_NA) /\
  (import_cvs.clean_mobile_number raw_number = DEFAULT_NA \/
   (length (import_cvs.clean_mobile_number raw_number) = 10%nat /\
    Forall (fun c => isdecimal c = true)
      (import_cvs.clean_mobile_number raw_number))).
Proof.
  intros digits. unfold import_cvs.clean_mobile_number. fold digits.
  unfold str_eqb. case_bool_decide as Hna.
  - (* the sentinel itself has too few digits *)
    pose proof sentinel_has_few_digits as Hfew.
    subst raw_number. fold digits in Hfew.
    split; [lia | split; auto].
  - destruct (Nat.ltb_spec 10 (length digits)) as [Hlong | Hshort].
    + assert (Hlen : length (lastn 10 digits) = 10%nat)
        by (apply length_lastn; lia).
      rewrite Hlen. simpl.
      split; [auto | split; [lia |]].
      right. split; [exact Hlen |].
      apply Forall_lastn, filter_isdecimal_Forall.
    + destruct (Nat.eqb_spec (length digits) 10) as [Heq | Hne].
      * split; [intros _; now rewrite lastn_all by lia | split; [lia |]].
        right. split; [exact Heq | apply filter_isdecimal_Forall].
      * split; [lia | split; auto].
Qed.

End MobileNumber.

Lemma clean_mobile_number_last_ten_witness :
  let raw := py "+91 98765-43210" in
  (10 <= length (List.filter (isdecimal (Unicode:=ascii_tables)) raw))%nat /\
  import_cvs.clean_mobile_number (U:=ascii_tables) raw
  = lastn 10 (List.filter (isdecimal (Unicode:=ascii_tables)) raw).
Proof.
  intros raw. split.
  - vm_compute. lia.
  - apply (clean_mobile_number_last_ten (U:=ascii_tables) raw). vm_compute. lia.
Defined.

(** ** E-mail extraction *)

(** C9.  [extract_emails] returns every match, lower-cased, in order of
    occurrence, and does not remove duplicates: an address that occurs twice
    is returned twice. *)
Theorem extract_emails_keeps_duplicates :
  entities.extract_emails (U:=ascii_tables) (py "A@b.co x@y.org a@b.co")
  = [py "a@b.co"; py "x@y.org"; py "a@b.co"] /\
  ~ NoDup (entities.extract_emails (U:=ascii_tables) (py "A@b.co x@y.org a@b.co")).
Proof.
  split; [vm_compute; reflexivity |].
  intros Hnd. vm_compute in Hnd.
  inversion Hnd as [| ? ? Hnotin _]. apply Hnotin. repeat constructor.
Qed.

(** ** Gender resolution *)

Section GenderResolution.
Context {U : Unicode} {names : NameDB}.

(** C3, as amended.  In both scorers the side with the strictly greater score
    wins and all-zero scores give the sentinel.  Equal non-zero scores give
    "Male" in the scorer of import_cvs.py, and the sentinel in the scorer of
    llm_utils.py, which compares strictly on both sides. *)
Theorem gender_resolution_by_scorer :
  (forall text extracted_name llm_gender email,
      let scores := import_cvs.gender_scores text extracted_name llm_gender email in
      let result := import_cvs.detect_gender text extracted_name llm_gender email in
      (scores.1 = 0 -> scores.2 = 0 -> result = DEFAULT_NA) /\
      (scores.2 < scores.1 -> result = py "Male") /\
      (scores.1 < scores.2 -> result = py "Female") /\
      (scores.1 = scores.2 -> scores.1 <> 0 -> result = py "Male"))%nat /\
  (forall name text email,
      let scores := llm_utils.gender_scores name text email in
      let result := llm_utils.detect_gender name text email in
      (scores.1 = 0 -> scores.2 = 0 -> result = DEFAULT_NA) /\
      (scores.2 < scores.1 -> result = py "Male") /\
      (scores.1 < scores.2 -> result = py "Female") /\
      (scores.1 = scores.2 -> result = DEFAULT_NA))%nat.
Proof.
  split.
  - intros text extracted_name llm_gender email scores result.
    subst result. unfold import_cvs.detect_gender. fold scores.
    destruct scores as [m f]. unfold import_cvs.decide_gender. simpl.
    destruct (Nat.eqb_spec m 0), (Nat.eqb_spec f 0), (Nat.leb_spec f m);
      simpl; repeat apply conj; intros; (reflexivity || lia).
  - intros name text email scores result.
    subst result. unfold llm_utils.detect_gender. fold scores.
    destruct scores as [m f]. unfold llm_utils.decide_gender. simpl.
    destruct (Nat.ltb_spec f m), (Nat.ltb_spec m f);
      simpl; repeat apply conj; intros; (reflexivity || lia).
Qed.

End GenderResolution.

Lemma gender_resolution_by_scorer_witness :
  let text := py "Mr and Mrs Rao" in
  (import_cvs.gender_scores (U:=ascii_tables) (names:=sample_names)
     text DEFAULT_NA None DEFAULT_NA = (1, 1)%nat) /\
  import_cvs.detect_gender (U:=ascii_tables) (names:=sample_names)
    text DEFAULT_NA None DEFAULT_NA = py "Male".
Proof.
  intros text. split; [vm_compute; reflexivity |].
  apply (proj1 (gender_resolution_by_scorer (U:=ascii_tables) (names:=sample_names))
           text DEFAULT_NA None DEFAULT_NA);
    vm_compute; [reflexivity | discriminate].
Defined.

(** C3, the claim as stated fails on the scorer of llm_utils.py: a text with
    one "he" and one "she" scores 3 on each side, and the result is the
    sentinel, not "Male". *)
Lemma llm_utils_gender_tie_is_unknown :
  let text := py "he she" in
  llm_utils.gender_scores (U:=ascii_tables) (names:=sample_names) [] text []
  = (3, 3)%nat /\
  llm_utils.detect_gender (U:=ascii_tables) (names:=sample_names) [] text []
  = DEFAULT_NA /\
  llm_utils.detect_gender (U:=ascii_tables) (names:=sample_names) [] text []
  <> py "Male".
Proof. vm_compute. split; [reflexivity | split; [reflexivity | discriminate]]. Qed.

(** ** Location resolution *)

Section LocationResolution.
Context {store : LocationStore}.
Import import_cvs.

(** C7.  [find_location_id] tries the (city, state) match first, when both
    are given, and returns its hit whatever the other two queries would find;
    then the (area, city) match; then the free-text containment; and returns
    the sentinel when every step is skipped or finds no row. *)
Theorem find_location_id_fallback_chain (area city state free_text : str) :
  let result :=
    find_location_id (Some area) (Some city) (Some state) (Some free_text) in
  let hit1 := city_state_hit city state in
  let hit2 := area_city_hit area city in
  let hit3 := free_text_hit free_text in
  (forall id, hit1 = Some id -> result = Some id) /\
  (forall id, hit1 = None -> hit2 = Some id -> result = Some id) /\
  (forall id, hit1 = None -> hit2 = None -> hit3 = Some id -> result = Some id) /\
  (hit1 = None -> hit2 = None -> hit3 = None -> result = Some DEFAULT_NA).
Proof.
  cbv zeta.
  unfold find_location_id, city_state_hit, area_city_hit, free_text_hit, not_NA.
  destruct (str_eqb area DEFAULT_NA), (str_eqb city DEFAULT_NA),
    (str_eqb state DEFAULT_NA), (str_eqb free_text DEFAULT_NA); simpl;
    destruct (by_city_state (strip city) (strip state));
    destruct (by_area_city (strip area) (strip city));
    destruct (by_free_text (Some free_text));
    simpl; repeat apply conj; intros; congruence.
Qed.

End LocationResolution.

Lemma find_location_id_fallback_chain_witness :
  let store := table_store sample_rows in
  let area := py "Baner" in
  let city := py " pune " in
  let state := py "GOA" in
  let free_text := py "Andheri East, Mumbai" in
  import_cvs.city_state_hit city state = Some (py "9") /\
  import_cvs.area_city_hit area city = Some (py "8") /\
  import_cvs.free_text_hit free_text = Some (py "7") /\
  import_cvs.find_location_id (Some area) (Some city) (Some state) (Some free_text)
  = Some (py "9").
Proof.
  intros store area city state free_text.
  assert (H1 : import_cvs.city_state_hit city state = Some (py "9"))
    by (vm_compute; reflexivity).
  split; [exact H1 |].
  split; [vm_compute; reflexivity |].
  split; [vm_compute; reflexivity |].
  exact (proj1 (find_location_id_fallback_chain area city state free_text)
           (py "9") H1).
Defined.

(** ** Reconciliation on the API path *)

Section ApiMerge.
Import app.

Lemma fill_lookup_other (llm_info : gmap string pyval) (t : string)
    (l : list (string * string)) :
  forall acc : gmap string pyval,
    ~ In t (List.map snd l) ->
    foldl (fill_step llm_info) acc l !! t = acc !! t.
Proof.
  induction l as [| [k t'] l IH]; intros acc Hnot; [reflexivity |].
  simpl in *. rewrite IH by tauto.
  unfold fill_step. simpl. destruct (present _); [| reflexivity].
  apply lookup_insert_ne. intros ->. tauto.
Qed.

Lemma fill_lookup_target (llm_info : gmap string pyval) (k t : string)
    (l1 l2 : list (string * string)) (acc : gmap string pyval) :
  ~ In t (List.map snd l2) ->
  foldl (fill_step llm_info) acc (l1 ++ (k, t) :: l2) !! t
  = if present (default VNone (llm_info !! k))
    then Some (default VNone (llm_info !! k))
    else foldl (fill_step llm_info) acc l1 !! t.
Proof.
  intros Hnot. rewrite foldl_app. simpl.
  rewrite fill_lookup_other by assumption.
  unfold fill_step at 1. simpl.
  destruct (present _); [apply lookup_insert_eq | reflexivity].
Qed.

(** What the model's mobile number leaves in [details]. *)
Lemma fill_from_llm_mobile (llm_info : gmap string pyval) :
  fill_from_llm llm_info !! "mobile_number"
  = if present (default VNone (llm_info !! "cv_mobile_number"))
    then Some (default VNone (llm_info !! "cv_mobile_number"))
    else None.
Proof.
  unfold fill_from_llm.
  change mapping with
    ([("cv_username"%string, "username"%string)]
       ++ ("cv_mobile_number"%string, "mobile_number"%string) :: skipn 2 mapping).
  rewrite fill_lookup_target
    by (simpl; intuition discriminate).
  destruct (present (default VNone (llm_info !! "cv_mobile_number")));
    [reflexivity |].
  rewrite fill_lookup_other by (simpl; intuition discriminate).
  apply lookup_empty.
Qed.

(** The steps after the mobile number do not touch it. *)
Lemma upload_resume_mobile (llm_info : gmap string pyval)
    (emails phones : list str) (name : option str) (filename : str)
    (cv_summary : pyval) :
  upload_resume llm_info emails phones name filename cv_summary !! "mobile_number"
  = match fill_from_llm llm_info !! "mobile_number", phones with
    | None, p :: _ => Some (VStr p)
    | found, _ => found
    end.
Proof.
  unfold upload_resume.
  do 3 (rewrite lookup_insert_ne by discriminate).
  set (d0 := fill_from_llm llm_info).
  set (d1 := match d0 !! "mobile_number" with
             | Some _ => d0
             | None => match phones with
                       | [] => d0
                       | p :: _ => <["mobile_number" := VStr p]> d0
                       end
             end).
  assert (H1 : d1 !! "mobile_number"
               = match d0 !! "mobile_number", phones with
                 | None, p :: _ => Some (VStr p)
                 | found, _ => found
                 end).
  { subst d1. destruct (d0 !! "mobile_number") eqn:E; [exact E |].
    destruct phones; [exact E | apply lookup_insert_eq]. }
  rewrite <- H1.
  repeat match goal with
  | |- context [match ?d !! "username" with _ => _ end] =>
      destruct (d !! "username")
  | |- context [match name with _ => _ end] => destruct name as [[| ? ?] |]
  | |- context [match emails with _ => _ end] => destruct emails
  end;
  repeat (rewrite lookup_insert_ne by discriminate); reflexivity.
Qed.

(** A field that is neither a target of [mapping] nor one of the three
    metadata fields is absent from [details]. *)
Lemma upload_resume_unmapped (llm_info : gmap string pyval)
    (emails phones : list str) (name : option str) (filename : str)
    (cv_summary : pyval) (k : string) :
  ~ In k (List.map snd mapping) ->
  ~ In k ["resume"; "created"; "cv_summary"]%string ->
  upload_resume llm_info emails phones name filename cv_summary !! k = None.
Proof.
  intros Hmap Hmeta. unfold upload_resume.
  cbn [In] in Hmeta.
  do 3 (rewrite lookup_insert_ne by (intros <-; tauto)).
  assert (Hmob : "mobile_number"%string <> k)
    by (intros <-; apply Hmap; cbn; tauto).
  assert (Husr : "username"%string <> k)
    by (intros <-; apply Hmap; cbn; tauto).
  assert (H0 : fill_from_llm llm_info !! k = None).
  { unfold fill_from_llm. rewrite fill_lookup_other by assumption.
    apply lookup_empty. }
  repeat match goal with
  | |- context [match ?d !! ?key with _ => _ end] => destruct (d !! key)
  | |- context [match phones with _ => _ end] => destruct phones
  | |- context [match name with _ => _ end] => destruct name as [[| ? ?] |]
  | |- context [match emails with _ => _ end] => destruct emails
  end;
  repeat (rewrite lookup_insert_ne by assumption); exact H0.
Qed.

End ApiMerge.

(** C1, the claim as stated fails on the API path: the model's mobile number
    is kept although the regex extractor found a phone number. *)
Lemma upload_resume_keeps_model_mobile :
  let llm_info : gmap string pyval :=
    {[ "cv_mobile_number"%string := VStr (py "9876543210") ]} in
  let phones := [py "+919123456789"] in
  let details := app.upload_resume llm_info [] phones None (py "cv.pdf") VNone in
  details !! "mobile_number"%string = Some (VStr (py "9876543210")) /\
  details !! "mobile_number"%string <> Some (VStr (py "+919123456789")).
Proof. vm_compute. split; [reflexivity | discriminate]. Qed.

(** Whenever the model gave a usable name, [choose_username] leaves it for
    the local part of the e-mail address, or for the sentinel. *)
Lemma choose_username_with_model_name (ai_data : gmap string (option str))
    (lines : list str) (name : str) :
  get ai_data "cv_username" = Some name ->
  name <> DEFAULT_NA -> strip name <> [] ->
  import_cvs.choose_username ai_data lines
  = if truthy (get ai_data "cv_email") && not_NA (get ai_data "cv_email")
    then before AT (default [] (get ai_data "cv_email"))
    else DEFAULT_NA.
Proof.
  intros Hname Hna Hblank. unfold import_cvs.choose_username.
  rewrite Hname.
  destruct name as [| c name]; [contradiction |].
  cbn [or_NA]. unfold str_eqb at 1.
  rewrite bool_decide_eq_false_2 by assumption.
  destruct (strip (c :: name)); [contradiction | reflexivity].
Qed.

(** C4.  On the batch path the user name of the record is the local part of
    the e-mail address although the model gave a name; on the API path it is
    the model's name. *)
Theorem process_file_username_is_email_local_part :
  let ai_data : gmap string pyval :=
    {[ "cv_username"%string := VStr (py "Asha Rao") ]} in
  let text := py "r.asha@x.com" in
  (import_cvs.process_file (U:=ascii_tables) (names:=sample_names)
     (store:=table_store []) (env:=sample_env)
     text ai_data (list_to_set import_cvs.ALL_COLUMNS)
     ≫= (fun record => record !! "username"%string))
  = Some (Some (py "r.asha")) /\
  app.upload_resume ai_data (entities.extract_emails (U:=ascii_tables) text)
    [] None (py "cv.pdf") VNone !! "username"%string
  = Some (VStr (py "Asha Rao")).
Proof. split; vm_compute; reflexivity. Qed.

(** ** Reconciliation on the batch path *)

Section BatchMerge.
Context {U : Unicode} {names : NameDB} {store : LocationStore} {env : FileEnv}.
Import import_cvs.

Lemma apply_overrides_other (ovs : list (string * str)) (k : string) :
  forall d : gmap string (option str),
    ~ In k (List.map fst ovs) -> apply_overrides ovs d !! k = d !! k.
Proof.
  unfold apply_overrides.
  induction ovs as [| [k' v'] ovs IH]; intros d Hnot; [reflexivity |].
  simpl in *. rewrite IH by tauto.
  destruct (str_eqb v' DEFAULT_NA); [reflexivity |].
  apply lookup_insert_ne. intros ->. tauto.
Qed.

(** A regex value other than the sentinel is what the dictionary holds after
    the override loop. *)
Lemma apply_overrides_lookup (ovs : list (string * str)) (k : string) (v : str) :
  forall d : gmap string (option str),
    List.NoDup (List.map fst ovs) ->
    In (k, v) ovs -> v <> DEFAULT_NA ->
    apply_overrides ovs d !! k = Some (Some v).
Proof.
  induction ovs as [| [k' v'] ovs IH]; intros d Hnd Hin Hv; [contradiction |].
  simpl in Hnd. inversion Hnd as [| ? ? Hnotin Hnd']; subst.
  destruct Hin as [Heq | Hin].
  - injection Heq as -> ->.
    change (apply_overrides ((k, v) :: ovs) d)
      with (apply_overrides ovs
              (if str_eqb v DEFAULT_NA then d else <[k := Some v]> d)).
    rewrite apply_overrides_other by assumption.
    unfold str_eqb. rewrite bool_decide_eq_false_2 by assumption.
    apply lookup_insert_eq.
  - change (apply_overrides ((k', v') :: ovs) d)
      with (apply_overrides ovs
              (if str_eqb v' DEFAULT_NA then d else <[k' := Some v']> d)).
    now apply IH.
Qed.

Lemma list_to_map_tabulate (f : string -> option str) (ks : list string)
    (k : string) :
  In k ks ->
  (list_to_map (List.map (fun k => (k, f k)) ks) : gmap string (option str)) !! k
  = Some (f k).
Proof.
  induction ks as [| k' ks IH]; intros Hin; [contradiction |].
  simpl. destruct (decide (k' = k)) as [-> | Hne].
  - apply lookup_insert_eq.
  - rewrite lookup_insert_ne by assumption.
    apply IH. destruct Hin; [contradiction | assumption].
Qed.

Lemma restrict_to_columns_lookup (existing_cols : gset string)
    (d : gmap string (option str)) (k : string) :
  In k ALL_COLUMNS -> k ∈ existing_cols ->
  restrict_to_columns existing_cols d !! k = Some (get_or_NA d k).
Proof.
  intros Hall Hcol. unfold restrict_to_columns.
  apply (list_to_map_tabulate (get_or_NA d)).
  apply List.filter_In. split; [assumption |].
  now apply bool_decide_eq_true_2.
Qed.

Lemma ensure_present_other (key k : string) (d : gmap string (option str)) :
  key <> k -> ensure_present key d !! k = d !! k.
Proof.
  intros Hne. unfold ensure_present.
  destruct (truthy (get d key)); [reflexivity |].
  now apply lookup_insert_ne.
Qed.

(** Any other column of the record holds what the dictionary held after the
    override loop. *)
Lemma process_file_passes_through (text_data : str) (ai_data : gmap string pyval)
    (existing_cols : gset string) (record : gmap string (option str))
    (k : string) :
  strip text_data <> [] ->
  process_file text_data ai_data existing_cols = Some record ->
  In k ALL_COLUMNS -> k ∈ existing_cols -> ~ In k written_later ->
  record !! k
  = Some (get_or_NA
            (apply_overrides (basic_regex_overrides text_data)
               (flatten_value <$> ai_data)) k).
Proof.
  intros Hblank Hrun Hall Hcol Hlater. unfold process_file in Hrun.
  destruct (strip text_data) as [| c0 t0] eqn:Hstrip; [contradiction |].
  clear Hstrip Hblank.
  set (d1 := apply_overrides (basic_regex_overrides text_data)
               (flatten_value <$> ai_data)) in *.
  destruct (find_location_id _ _ _ _) as [location_code |];
    [| discriminate].
  cbv beta iota delta [mbind option_bind] in Hrun.
  match type of Hrun with
  | context [get_or_NA ?d "cv_email"] =>
      destruct (get_or_NA d "cv_email") as [email |]; [| discriminate]
  end.
  cbv beta iota delta [mbind option_bind] in Hrun.
  apply (inj Some) in Hrun. rewrite <- Hrun. clear Hrun.
  rewrite restrict_to_columns_lookup by assumption.
  f_equal. unfold get_or_NA. f_equal.
  simpl in Hlater. cbv zeta. cbn [foldl].
  repeat (rewrite ensure_present_other by (intros <-; tauto)).
  repeat (rewrite lookup_insert_ne by (intros <-; tauto)).
  reflexivity.
Qed.

End BatchMerge.

(** ** The override fields *)

Section OverrideFields.
Context {U : Unicode} {names : NameDB} {store : LocationStore} {env : FileEnv}.
Import import_cvs.

Lemma basic_regex_overrides_keys (text : str) :
  List.map fst (basic_regex_overrides text)
  = ["cv_email"; "cv_mobile_number"; "cv_pincode"; "cv_summary"]%string.
Proof. reflexivity. Qed.

Lemma override_key_is_column (k : string) :
  In k ["cv_email"; "cv_mobile_number"; "cv_pincode"; "cv_summary"]%string ->
  In k ALL_COLUMNS /\ ~ In k written_later.
Proof.
  intros Hk. cbn [In] in Hk.
  destruct Hk as [<- | [<- | [<- | [<- | []]]]];
    (split;
     [ apply list_elem_of_In; apply (bool_decide_unpack _); vm_compute; exact I
     | rewrite <- list_elem_of_In; apply (bool_decide_unpack _); vm_compute; exact I ]).
Qed.

(** C1, as amended.  On the batch path each of the four override fields
    (cv_email, cv_mobile_number, cv_pincode, cv_summary) for which the regex
    extractor produced a value other than the sentinel holds that value in
    the returned record, whatever the model produced, when the field is a
    destination column.  On the API path the regex phone number is a
    fallback only: a non-empty mobile number of the model is kept, and the
    first regex phone number is stored when the model gave none; the summary
    is the one computed from the model, and no e-mail or pincode field is
    written. *)
Theorem regex_overrides_by_path :
  (forall (text_data : str) (ai_data : gmap string pyval)
          (existing_cols : gset string) (record : gmap string (option str))
          (k : string) (v : str),
      process_file text_data ai_data existing_cols = Some record ->
      In (k, v) (basic_regex_overrides text_data) ->
      v <> DEFAULT_NA ->
      k ∈ existing_cols ->
      record !! k = Some (Some v)) /\
  (forall (llm_info : gmap string pyval) (emails phones : list str)
          (name : option str) (filename : str) (cv_summary val : pyval),
      llm_info !! "cv_mobile_number" = Some val ->
      app.present val = true ->
      app.upload_resume llm_info emails phones name filename cv_summary
        !! "mobile_number" = Some val) /\
  (forall (llm_info : gmap string pyval) (emails phones : list str) (p : str)
          (name : option str) (filename : str) (cv_summary : pyval),
      app.present (default VNone (llm_info !! "cv_mobile_number")) = false ->
      app.upload_resume llm_info emails (p :: phones) name filename cv_summary
        !! "mobile_number" = Some (VStr p)) /\
  (forall (llm_info : gmap string pyval) (emails phones : list str)
          (name : option str) (filename : str) (cv_summary : pyval),
      app.upload_resume llm_info emails phones name filename cv_summary
        !! "cv_summary" = Some cv_summary /\
      forall k, In k ["email"; "cv_email"; "pincode"; "cv_pincode"]%string ->
        app.upload_resume llm_info emails phones name filename cv_summary !! k
        = None).
Proof.
  split; [| split; [| split]].
  - intros text_data ai_data existing_cols record k v Hrun Hin Hv Hcol.
    assert (Hblank : strip text_data <> []).
    { intros Hblank. apply Hv.
      exact (basic_regex_overrides_blank text_data k v Hblank Hin). }
    assert (Hkey : In k (List.map fst (basic_regex_overrides text_data)))
      by (apply (List.in_map fst) in Hin; exact Hin).
    rewrite basic_regex_overrides_keys in Hkey.
    destruct (override_key_is_column k Hkey) as [Hall Hlater].
    rewrite (process_file_passes_through text_data ai_data existing_cols
               record k Hblank Hrun Hall Hcol Hlater).
    unfold get_or_NA.
    rewrite (apply_overrides_lookup _ k v); [reflexivity | | exact Hin | exact Hv].
    rewrite basic_regex_overrides_keys.
    repeat constructor; cbn [In]; intuition discriminate.
  - intros llm_info emails phones name filename cv_summary val Hval Hpresent.
    rewrite upload_resume_mobile, fill_from_llm_mobile, Hval.
    simpl. rewrite Hpresent. reflexivity.
  - intros llm_info emails phones p name filename cv_summary Hpresent.
    rewrite upload_resume_mobile, fill_from_llm_mobile, Hpresent.
    reflexivity.
  - intros llm_info emails phones name filename cv_summary.
    split; [apply lookup_insert_eq |].
    intros k Hk. apply upload_resume_unmapped;
      cbn [In] in Hk; destruct Hk as [<- | [<- | [<- | [<- | []]]]];
      cbn; intuition discriminate.
Qed.

End OverrideFields.

Lemma regex_overrides_by_path_witness :
  let text := py "Asha Rao, +91-9876543210, Pune 411001" in
  let ai_data : gmap string pyval :=
    {[ "cv_mobile_number"%string := VStr (py "1111111111") ]} in
  let cols : gset string := {[ "cv_mobile_number"%string ]} in
  let run :=
    import_cvs.process_file (U:=ascii_tables) (names:=sample_names)
      (store:=table_store sample_rows) (env:=sample_env) text ai_data cols in
  exists record,
    run = Some record /\
    In ("cv_mobile_number"%string, py "+919876543210")
       (import_cvs.basic_regex_overrides (U:=ascii_tables) text) /\
    record !! "cv_mobile_number"%string = Some (Some (py "+919876543210")).
Proof.
  intros text ai_data cols run.
  assert (Hrun : run = Some (default ∅ run)) by (vm_compute; reflexivity).
  assert (Hin : In ("cv_mobile_number"%string, py "+919876543210")
                   (import_cvs.basic_regex_overrides (U:=ascii_tables) text))
    by (vm_compute; tauto).
  exists (default ∅ run). split; [exact Hrun | split; [exact Hin |]].
  apply (proj1 (regex_overrides_by_path (U:=ascii_tables) (names:=sample_names)
                  (store:=table_store sample_rows) (env:=sample_env))
           text ai_data cols (default ∅ run)
           "cv_mobile_number"%string (py "+919876543210") Hrun Hin).
  - vm_compute. discriminate.
  - apply elem_of_singleton. reflexivity.
Defined.

(** ** Scores *)

Section Scores.
Context {fl : FloatEnv}.

(** Every score is numeric, non-numeric, or an integer beyond the range of
    the floats. *)
Lemma score_value_kinds (score : score_value) :
  (exists x, numeric score x) \/ non_numeric score
  \/ exists z, score = ScInt z /\ float_of_int z = None.
Proof.
  destruct score as [| s | z | f |].
  - right. left. now left.
  - destruct (parse_float s) as [x |] eqn:Hs.
    + left. exists x. now constructor.
    + right. left. right. right. now exists s.
  - destruct (float_of_int z) as [x |] eqn:Hz.
    + left. exists x. now constructor.
    + right. right. now exists z.
  - left. exists f. constructor.
  - right. left. right. now left.
Qed.

Lemma py_float_numeric (score : score_value) (x : float) :
  numeric score x -> py_float score = inl x.
Proof. intros [f | z f Hz | s f Hs]; cbn; [reflexivity | now rewrite Hz | now rewrite Hs]. Qed.

(** C8, as amended.  A score that [float] converts to [x] (a float, an
    integer within the range of the floats, a string that [float] reads) is
    normalized to [round(x / 10, 1)] when [x > 10] and to [round(x, 1)]
    otherwise.  [None], a list or an object, and a string that [float] does
    not read, give the no-value result.  An integer beyond the range of the
    floats makes the function raise [OverflowError], which it does not catch;
    there is no other case.  On the batch path the score is ["0"] when it is
    missing, null, the sentinel or a string that [float] does not read, and
    otherwise [str(round(x, 1))], without a division by ten. *)
Theorem score_normalization_cases :
  (forall score x,
      numeric score x -> PrimFloat.ltb 10 x = true ->
      llm_utils.normalize_bfsi_score score
      = Returned (Some (round1 (PrimFloat.div x 10)))) /\
  (forall score x,
      numeric score x -> PrimFloat.ltb 10 x = false ->
      llm_utils.normalize_bfsi_score score = Returned (Some (round1 x))) /\
  (forall score,
      non_numeric score ->
      llm_utils.normalize_bfsi_score score = Returned None) /\
  (forall z,
      float_of_int z = None ->
      llm_utils.normalize_bfsi_score (ScInt z) = Raised OverflowError) /\
  (forall score,
      (exists x, numeric score x) \/ non_numeric score
      \/ exists z, score = ScInt z /\ float_of_int z = None) /\
  (forall ai_data : gmap string (option str),
      ai_data !! "cv_cvscore" = None
      \/ ai_data !! "cv_cvscore" = Some None
      \/ ai_data !! "cv_cvscore" = Some (Some DEFAULT_NA)
      \/ (exists s, ai_data !! "cv_cvscore" = Some (Some s)
                    /\ parse_float s = None) ->
      import_cvs.calculate_cv_score ai_data = py "0") /\
  (forall (ai_data : gmap string (option str)) s x,
      ai_data !! "cv_cvscore" = Some (Some s) ->
      s <> DEFAULT_NA -> parse_float s = Some x ->
      import_cvs.calculate_cv_score ai_data = float_repr (round1 x)).
Proof.
  repeat apply conj.
  - intros score x Hn Hgt. unfold llm_utils.normalize_bfsi_score.
    rewrite (py_float_numeric score x Hn). cbv zeta. now rewrite Hgt.
  - intros score x Hn Hle. unfold llm_utils.normalize_bfsi_score.
    rewrite (py_float_numeric score x Hn). cbv zeta. now rewrite Hle.
  - intros score [-> | [-> | [s [-> Hs]]]]; unfold llm_utils.normalize_bfsi_score;
      cbn; [reflexivity | reflexivity | now rewrite Hs].
  - intros z Hz. unfold llm_utils.normalize_bfsi_score. cbn. now rewrite Hz.
  - apply score_value_kinds.
  - intros ai_data H. unfold import_cvs.calculate_cv_score, get_or_NA.
    destruct H as [H | [H | [H | [s [H Hs]]]]]; rewrite H;
      cbn [from_option id].
    + unfold str_eqb. now rewrite bool_decide_eq_true_2 by reflexivity.
    + reflexivity.
    + unfold str_eqb. now rewrite bool_decide_eq_true_2 by reflexivity.
    + destruct (str_eqb s DEFAULT_NA); [reflexivity | now rewrite Hs].
  - intros ai_data s x Hd Hs Hx.
    unfold import_cvs.calculate_cv_score, get_or_NA. rewrite Hd.
    cbn [from_option id].
    unfold str_eqb. rewrite bool_decide_eq_false_2 by assumption.
    now rewrite Hx.
Qed.

End Scores.

(** The score "85", read as 85.0, is above ten and comes out as 8.5. *)
Lemma score_normalization_cases_witness :
  numeric (fl:=sample_floats) (ScStr (py "85")) 85%float /\
  PrimFloat.ltb 10 85 = true /\
  llm_utils.normalize_bfsi_score (fl:=sample_floats) (ScStr (py "85"))
  = Returned (Some (@round1 sample_floats (PrimFloat.div 85 10))) /\
  @round1 sample_floats (PrimFloat.div 85 10) = 8.5%float.
Proof.
  assert (Hn : numeric (fl:=sample_floats) (ScStr (py "85")) 85%float)
    by (apply numeric_str; vm_compute; reflexivity).
  assert (Hgt : PrimFloat.ltb 10 85 = true) by (vm_compute; reflexivity).
  split; [exact Hn | split; [exact Hgt | split]].
  - exact (proj1 (score_normalization_cases (fl:=sample_floats))
             (ScStr (py "85")) 85%float Hn Hgt).
  - vm_compute. reflexivity.
Defined.

(** C8, the claim as stated fails: the integer 10^400 is a numeric score
    above ten, and [normalize_bfsi_score] does not return its tenth, nor
    anything: [float] raises [OverflowError], which is not caught. *)
Lemma normalize_bfsi_score_raises_on_large_int :
  let score := ScInt (10 ^ 400) in
  (10 < 10 ^ 400)%Z /\
  llm_utils.normalize_bfsi_score (fl:=sample_floats) score
  = Raised OverflowError.
Proof. split; vm_compute; reflexivity. Qed.

(** * Further properties of the code *)

(** ** Text extraction from a PDF *)

Section PdfText.
Import pdf_utils.

Lemma non_space_count_app (a b : str) :
  non_space_count (a ++ b) = (non_space_count a + non_space_count b)%nat.
Proof. unfold non_space_count. now rewrite List.filter_app, length_app. Qed.

(** The line feeds that join the pages do not count. *)
Lemma non_space_count_join (texts : list str) :
  non_space_count (join [LF] texts)
  = list_sum (List.map non_space_count texts).
Proof.
  induction texts as [| t texts IH]; [reflexivity |].
  destruct texts as [| t' texts]; [cbn [join List.map list_sum fold_right]; lia |].
  change (join [LF] (t :: t' :: texts))
    with (t ++ [LF] ++ join [LF] (t' :: texts)).
  rewrite !non_space_count_app, IH. cbn [List.map list_sum fold_right].
  change (non_space_count [LF]) with 0%nat. lia.
Qed.

Lemma page_texts_Some (pages : list get_text_result) (texts : list str) :
  page_texts pages = Some texts ->
  readable pages /\
  total_chars pages = list_sum (List.map non_space_count texts).
Proof.
  revert texts. induction pages as [| p pages IH]; intros texts H.
  - injection H as <-. split; [constructor | reflexivity].
  - destruct p as [t | |]; try discriminate.
    cbn [page_texts] in H.
    destruct (page_texts pages) as [texts' |]; [| discriminate].
    injection H as <-. destruct (IH texts' eq_refl) as [Hr Ht].
    split; [constructor; [discriminate | exact Hr] |].
    unfold total_chars, list_sum in *. cbn [List.map fold_right page_chars].
    now rewrite Ht.
Qed.

(** On readable pages the loop answers by the total count. *)
Lemma scan_pages_total (min_chars : nat) (pages : list get_text_result) :
  forall n, readable pages -> (n < min_chars)%nat ->
            scan_pages min_chars n pages
            = (n + total_chars pages <? min_chars)%nat.
Proof.
  induction pages as [| p pages IH]; intros n Hr Hn.
  - unfold total_chars. simpl. symmetry. apply Nat.ltb_lt. lia.
  - inversion Hr as [| ? ? Hp Hr']; subst.
    rewrite scan_pages_step by assumption.
    change (p :: pages) with ([p] ++ pages). rewrite total_chars_app.
    assert (H1 : total_chars [p] = page_chars p)
      by (unfold total_chars; simpl; lia).
    rewrite H1.
    destruct (Nat.leb_spec min_chars (n + page_chars p)) as [Hge | Hlt].
    + symmetry. apply Nat.ltb_ge. lia.
    + rewrite IH by assumption. f_equal. lia.
Qed.

(** X1.  For a document whose pages all yield strings,
    [extract_text_from_pdf_bytes] and [is_scanned_pdf_bytes] (at its default
    threshold) agree: the embedded text, the pages joined by line feeds, is
    returned exactly when the document is not taken for a scan, and the OCR
    text otherwise.  A document that cannot be opened, or a page that cannot
    be read, gives the OCR text. *)
Theorem extract_text_from_pdf_bytes_agrees_with_scan (ocr : str) :
  (forall pages texts,
      page_texts pages = Some texts ->
      extract_text_from_pdf_bytes (Some pages) ocr
      = if is_scanned_pdf_bytes (Some pages) default_min_chars
        then ocr else join [LF] texts) /\
  (forall pages,
      page_texts pages = None ->
      extract_text_from_pdf_bytes (Some pages) ocr = ocr) /\
  extract_text_from_pdf_bytes None ocr = ocr.
Proof.
  split; [| split].
  - intros pages texts Htexts.
    destruct (page_texts_Some pages texts Htexts) as [Hr Ht].
    unfold extract_text_from_pdf_bytes, is_scanned_pdf_bytes, default_min_chars.
    cbn [mbind option_bind]. rewrite Htexts. cbv zeta.
    rewrite scan_pages_total by (assumption || lia).
    rewrite non_space_count_join, <- Ht. cbn [Nat.add].
    destruct (Nat.leb_spec 200 (total_chars pages)) as [Hge | Hlt].
    + assert (H : (total_chars pages <? 200)%nat = false)
        by (apply Nat.ltb_ge; lia).
      now rewrite H.
    + assert (H : (total_chars pages <? 200)%nat = true)
        by (apply Nat.ltb_lt; lia).
      now rewrite H.
  - intros pages Hnone. unfold extract_text_from_pdf_bytes.
    cbn [mbind option_bind]. now rewrite Hnone.
  - reflexivity.
Qed.

End PdfText.

Lemma extract_text_from_pdf_bytes_agrees_with_scan_witness :
  let pages := [pdf_utils.Text (List.repeat 120%N 150);
                pdf_utils.Text (List.repeat 121%N 60)] in
  let texts := [List.repeat 120%N 150; List.repeat 121%N 60] in
  pdf_utils.page_texts pages = Some texts /\
  pdf_utils.is_scanned_pdf_bytes (Some pages) pdf_utils.default_min_chars = false /\
  pdf_utils.extract_text_from_pdf_bytes (Some pages) (py "ocr")
  = join [LF] texts.
Proof.
  intros pages texts.
  assert (Ht : pdf_utils.page_texts pages = Some texts) by reflexivity.
  assert (Hs : pdf_utils.is_scanned_pdf_bytes (Some pages)
                 pdf_utils.default_min_chars = false)
    by (vm_compute; reflexivity).
  split; [exact Ht | split; [exact Hs |]].
  rewrite (proj1 (extract_text_from_pdf_bytes_agrees_with_scan (py "ocr"))
             pages texts Ht).
  now rewrite Hs.
Defined.

(** ** Phone numbers and e-mail addresses in a text *)

Lemma mem_In (x : str) (xs : list str) : mem x xs = true <-> In x xs.
Proof.
  unfold mem. rewrite existsb_exists. split.
  - intros [y [Hy Heq]]. unfold str_eqb in Heq.
    apply bool_decide_eq_true_1 in Heq. now subst.
  - intros H. exists x. split; [exact H |].
    unfold str_eqb. now apply bool_decide_eq_true_2.
Qed.

Lemma fromkeys_from_In (l : list str) :
  forall seen p,
    In p (entities.fromkeys_from seen l) <-> In p l /\ ~ In p seen.
Proof.
  induction l as [| x l IH]; intros seen p; [simpl; tauto |].
  cbn [entities.fromkeys_from].
  destruct (mem x seen) eqn:Hx.
  - apply mem_In in Hx. rewrite IH. simpl. split.
    + tauto.
    + intros [[-> | H] Hn]; [contradiction | tauto].
  - assert (Hnx : ~ In x seen)
      by (intros H; apply mem_In in H; congruence).
    simpl. rewrite IH. simpl. split.
    + intros [-> | [H Hn]]; [tauto |]. split; [tauto |]. tauto.
    + intros [[-> | H] Hn]; [tauto |].
      destruct (decide (x = p)) as [-> | Hne]; [tauto |]. right. tauto.
Qed.

Lemma fromkeys_from_NoDup (l : list str) :
  forall seen, List.NoDup (entities.fromkeys_from seen l).
Proof.
  induction l as [| x l IH]; intros seen; [constructor |].
  cbn [entities.fromkeys_from].
  destruct (mem x seen); [apply IH |].
  constructor; [| apply IH].
  rewrite fromkeys_from_In. simpl. tauto.
Qed.

(** X2.  [extract_phones] returns no number twice; it returns exactly the
    numbers that the validator makes of the candidates found in the text;
    and its first number is that of the first valid candidate. *)
Theorem extract_phones_distinct_and_validated
    {U : Unicode} (validate : str -> str -> option str)
    (text default_region : str) :
  let valid :=
    omap (fun num => validate num default_region)
      (findall entities.PHONE_CANDIDATE text) in
  let phones := entities.extract_phones validate text default_region in
  List.NoDup phones /\
  (forall p, In p phones <-> In p valid) /\
  head phones = head valid.
Proof.
  cbv zeta. unfold entities.extract_phones, entities.fromkeys.
  split; [apply fromkeys_from_NoDup | split].
  - intros p. rewrite fromkeys_from_In. simpl. tauto.
  - destruct (omap _ _) as [| x l]; reflexivity.
Qed.

Section NoAtSign.
Context {U : Unicode}.
Variable cls : str -> char -> bool.

Lemma email_at_domain_In_AT (s : str) (n : nat) :
  email_at_domain cls s = Some n -> In AT s.
Proof.
  unfold email_at_domain. destruct s as [| a [| d s]]; try discriminate.
  destruct (N.eqb_spec a AT) as [-> | _]; [| discriminate].
  intros _. now left.
Qed.

Lemma email_local_rest_In_AT (s : str) :
  forall n, email_local_rest cls s = Some n -> In AT s.
Proof.
  induction s as [| c s IH]; intros n H; [discriminate |].
  cbn [email_local_rest] in H.
  destruct (cls EMAIL_LOCAL c).
  - destruct (email_local_rest cls s) as [k |] eqn:Hk.
    + right. now apply (IH k).
    + now apply (email_at_domain_In_AT _ n).
  - now apply (email_at_domain_In_AT _ n).
Qed.

Lemma email_match_In_AT (prev : option char) (s : str) (n : nat) :
  email_match cls prev s = Some n -> In AT s.
Proof.
  unfold email_match. destruct s as [| c s]; [discriminate |].
  destruct (cls EMAIL_LOCAL c); [| discriminate].
  destruct (email_local_rest cls s) as [k |] eqn:Hk; [| discriminate].
  intros _. right. now apply (email_local_rest_In_AT s k).
Qed.

Lemma findall_email_without_AT (s : str) :
  ~ In AT s -> findall (email_match cls) s = [].
Proof.
  unfold findall. generalize (@None char).
  induction s as [| c s IH]; intros prev Hno; [reflexivity |].
  cbn [findall_from].
  destruct (email_match cls prev (c :: s)) as [n |] eqn:Hm.
  - exfalso. apply Hno. now apply (email_match_In_AT prev _ n).
  - apply IH. intros H. apply Hno. now right.
Qed.

End NoAtSign.

(** X3.  In a text without an at sign neither e-mail extractor finds
    anything: [extract_emails] returns the empty list and
    [basic_regex_overrides] leaves [cv_email] at the sentinel. *)
Theorem no_at_sign_no_email {U : Unicode} (text : str) :
  ~ In AT text ->
  entities.extract_emails text = [] /\
  In ("cv_email"%string, DEFAULT_NA) (import_cvs.basic_regex_overrides text).
Proof.
  intros Hno. split.
  - unfold entities.extract_emails, entities.EMAIL_RE.
    now rewrite findall_email_without_AT.
  - unfold import_cvs.basic_regex_overrides, import_cvs.EMAIL_REGEX.
    rewrite findall_email_without_AT by assumption. now left.
Qed.

Lemma no_at_sign_no_email_witness :
  let text := py "Asha Rao, Pune 411001" in
  ~ In AT text /\
  entities.extract_emails (U:=ascii_tables) text = [].
Proof.
  intros text.
  assert (Hno : ~ In AT text) by (vm_compute; intuition discriminate).
  split; [exact Hno |].
  exact (proj1 (no_at_sign_no_email (U:=ascii_tables) text Hno)).
Defined.

(** ** Mobile numbers, again *)

Section MobileAgain.
Context {U : Unicode}.
Import import_cvs.

Lemma sentinel_length : length DEFAULT_NA = 4%nat.
Proof. reflexivity. Qed.

Lemma filter_id_Forall (p : char -> bool) (s : str) :
  Forall (fun c => p c = true) s -> List.filter p s = s.
Proof.
  induction 1 as [| c s Hc _ IH]; [reflexivity |].
  simpl. now rewrite Hc, IH.
Qed.

(** Ten decimal digits are a mobile number as they are. *)
Lemma clean_mobile_number_ten_digits (s : str) :
  length s = 10%nat -> Forall (fun c => isdecimal c = true) s ->
  clean_mobile_number s = s.
Proof.
  intros Hlen Hdec. unfold clean_mobile_number.
  unfold str_eqb. rewrite bool_decide_eq_false_2
    by (intros ->; rewrite sentinel_length in Hlen; discriminate).
  rewrite (filter_id_Forall _ _ Hdec). cbv zeta. rewrite Hlen.
  change (10 <? 10)%nat with false. cbv iota. now rewrite Hlen.
Qed.

Lemma clean_mobile_number_cases (raw_number : str) :
  clean_mobile_number raw_number = DEFAULT_NA \/
  (length (clean_mobile_number raw_number) = 10%nat /\
   Forall (fun c => isdecimal c = true) (clean_mobile_number raw_number)).
Proof.
  unfold clean_mobile_number.
  destruct (str_eqb raw_number DEFAULT_NA); [now left |].
  set (digits := List.filter isdecimal raw_number).
  destruct (Nat.ltb_spec 10 (length digits)) as [Hlong | Hshort].
  - assert (Hlen : length (lastn 10 digits) = 10%nat)
      by (apply length_lastn; lia).
    rewrite Hlen. right. split; [exact Hlen |].
    apply Forall_lastn, filter_isdecimal_Forall.
  - destruct (Nat.eqb_spec (length digits) 10) as [Heq | Hne]; [| now left].
    right. split; [exact Heq | apply filter_isdecimal_Forall].
Qed.

(** X4.  [clean_mobile_number] is idempotent: a cleaned number is left as
    it is. *)
Theorem clean_mobile_number_idempotent (raw_number : str) :
  clean_mobile_number (clean_mobile_number raw_number)
  = clean_mobile_number raw_number.
Proof.
  destruct (clean_mobile_number_cases raw_number) as [-> | [Hlen Hdec]].
  - unfold clean_mobile_number at 1. unfold str_eqb.
    now rewrite bool_decide_eq_true_2.
  - now apply clean_mobile_number_ten_digits.
Qed.

(** *** What the phone pattern matches *)

Lemma firstn_plus {A} (a b : nat) (l : list A) :
  firstn (a + b) l = firstn a l ++ firstn b (skipn a l).
Proof.
  revert l. induction a as [| a IH]; intros l; [reflexivity |].
  destruct l as [| x l]; [now destruct b |].
  simpl. now rewrite IH.
Qed.

Lemma phone_core_Some (s : str) (n : nat) :
  phone_core s = Some n ->
  n = 10%nat /\ national_number (firstn 10 s).
Proof.
  unfold phone_core. destruct s as [| c s]; [discriminate |].
  destruct (in_class (py "6789") c) eqn:Hc; [| discriminate].
  destruct (length (firstn 9 s) =? 9)%nat eqn:Hlen; [| discriminate].
  destruct (forallb isdecimal (firstn 9 s)) eqn:Hds; [| discriminate].
  intros [= <-]. split; [reflexivity |].
  exists c, (firstn 9 s). split; [reflexivity |].
  split; [exact Hc |].
  split; [now apply Nat.eqb_eq |].
  apply List.Forall_forall. rewrite forallb_forall in Hds. exact Hds.
Qed.

Lemma PHONE_REGEX_Some (prev : option char) (s : str) (n : nat) :
  PHONE_REGEX prev s = Some n ->
  exists pre core, firstn n s = pre ++ core /\ national_number core /\
                   Forall (fun c => in_class (py "+91- ") c = true
                                    \/ is_space c = true) pre.
Proof.
  unfold PHONE_REGEX.
  destruct (starts_with (py "+91") s) eqn:Hplus.
  - assert (Hpre : firstn 3 s = py "+91").
    { change (py "+91") with [43; 57; 49]%N in *.
      destruct s as [| a [| b [| c s]]]; cbn [starts_with] in Hplus;
        rewrite ?andb_false_r in Hplus; try discriminate.
      repeat (apply andb_true_iff in Hplus as [? Hplus]).
      repeat match goal with
             | H : (_ =? _)%N = true |- _ => apply N.eqb_eq in H
             end.
      subst. reflexivity. }
    assert (Hpre_ok : Forall (fun c => in_class (py "+91- ") c = true
                                       \/ is_space c = true) (py "+91"))
      by (change (py "+91") with [43; 57; 49]%N;
          repeat (constructor; [left; reflexivity |]); constructor).
    destruct (skipn 3 s) as [| c r'] eqn:Hr.
    + change (phone_core []) with (@None nat).
      cbn [fmap option_fmap option_map]. intros H.
      destruct (phone_core_Some s n H) as [-> Hcore].
      exists [], (firstn 10 s). split; [reflexivity |].
      split; [exact Hcore | constructor].
    + destruct ((c =? HYPHEN)%N || is_space c) eqn:Hsep.
      * destruct (phone_core r') as [k |] eqn:Hk.
        -- cbn [fmap option_fmap option_map]. intros [= <-].
           destruct (phone_core_Some r' k Hk) as [-> Hcore].
           exists (py "+91" ++ [c]), (firstn 10 r').
           split; [| split; [exact Hcore |]].
           ++ etransitivity; [exact (firstn_plus 3 11 s) |].
              rewrite Hpre, Hr. reflexivity.
           ++ apply Forall_app. split; [exact Hpre_ok |].
              constructor; [| constructor].
              apply orb_true_iff in Hsep as [Hh | Hs]; [| now right].
              apply N.eqb_eq in Hh. subst c. now left.
        -- cbn [fmap option_fmap option_map].
           destruct (phone_core (c :: r')) as [k |] eqn:Hk'.
           ++ intros [= <-].
              destruct (phone_core_Some _ k Hk') as [-> Hcore].
              exists (py "+91"), (firstn 10 (c :: r')).
              split; [| split; [exact Hcore | exact Hpre_ok]].
              etransitivity; [exact (firstn_plus 3 10 s) |].
              rewrite Hpre, Hr. reflexivity.
           ++ intros H. destruct (phone_core_Some s n H) as [-> Hcore].
              exists [], (firstn 10 s). split; [reflexivity |].
              split; [exact Hcore | constructor].
      * cbn [fmap option_fmap option_map].
        destruct (phone_core (c :: r')) as [k |] eqn:Hk.
        -- intros [= <-].
           destruct (phone_core_Some _ k Hk) as [-> Hcore].
           exists (py "+91"), (firstn 10 (c :: r')).
           split; [| split; [exact Hcore | exact Hpre_ok]].
           etransitivity; [exact (firstn_plus 3 10 s) |].
              rewrite Hpre, Hr. reflexivity.
        -- intros H. destruct (phone_core_Some s n H) as [-> Hcore].
           exists [], (firstn 10 s). split; [reflexivity |].
           split; [exact Hcore | constructor].
  - intros H. destruct (phone_core_Some s n H) as [-> Hcore].
    exists [], (firstn 10 s). split; [reflexivity |].
    split; [exact Hcore | constructor].
Qed.

(** Every string that [findall] returns is a match of the pattern. *)
Lemma findall_from_In (m : matcher) (s : str) :
  forall skip prev x,
    In x (findall_from m skip prev s) ->
    exists prev' s' n, m prev' s' = Some n /\ x = firstn n s'.
Proof.
  induction s as [| c s IH]; intros skip prev x Hin.
  - destruct skip; contradiction.
  - destruct skip as [| k]; cbn [findall_from] in Hin.
    + destruct (m prev (c :: s)) as [n |] eqn:Hm.
      * destruct Hin as [<- | Hin]; [now exists prev, (c :: s), n |].
        now apply (IH _ _ _ Hin).
      * now apply (IH _ _ _ Hin).
    + now apply (IH _ _ _ Hin).
Qed.

End MobileAgain.

(** ** The record of the batch path *)

Section BatchRecord.
Context {U : Unicode} {names : NameDB} {store : LocationStore} {env : FileEnv}.
Import import_cvs.

Lemma process_file_eq (text_data : str) (ai_data : gmap string pyval)
    (existing_cols : gset string) :
  process_file text_data ai_data existing_cols
  = match strip text_data with
    | [] => Some ∅
    | _ =>
        let d := overridden text_data ai_data in
        let d0 := <["cv_originalfilename" := Some basename]> d in
        location_code ←
          find_location_id
            (get_or_NA d0 "cv_location_area") (get_or_NA d0 "cv_location_city")
            (get_or_NA d0 "cv_location_state")
            (get_or_NA d0 "cv_current_location");
        email ← get_or_NA d "cv_email";
        Some (restrict_to_columns existing_cols
                (finish_fields text_data d location_code email))
    end.
Proof.
  unfold process_file, overridden.
  destruct (strip text_data); [reflexivity |].
  cbv zeta.
  destruct (find_location_id _ _ _ _) as [location_code |]; [| reflexivity].
  cbv beta iota delta [mbind option_bind].
  unfold get_or_NA at 1 3.
  do 9 (rewrite lookup_insert_ne by discriminate).
  reflexivity.
Qed.

End BatchRecord.

Lemma is_linebreak_is_space (c : char) : is_linebreak c = true -> is_space c = true.
Proof.
  unfold is_linebreak, is_space.
  rewrite !orb_true_iff, !andb_true_iff, !N.leb_le, !N.eqb_eq. lia.
Qed.

(** A text whose lines are all blank is blank. *)
Lemma all_space_of_lines (s : str) :
  Forall all_space (splitlines s) -> all_space s.
Proof.
  apply (splitlines_ind (fun s ls => Forall all_space ls -> all_space s)).
  - constructor.
  - intros c Hc _. constructor; [now apply is_linebreak_is_space | constructor].
  - intros c d t Hc Hcd IH H. inversion H; subst.
    apply andb_true_iff in Hcd as [_ Hd]. apply N.eqb_eq in Hd. subst d.
    constructor; [now apply is_linebreak_is_space |].
    constructor; [reflexivity | now apply IH].
  - intros c d t Hc _ IH H. inversion H; subst.
    constructor; [now apply is_linebreak_is_space | now apply IH].
  - intros c t _ IH H. destruct (splitlines t) as [| l ls].
    + inversion H as [| ? ? Hl _]; subst. inversion Hl; subst.
      constructor; [assumption | apply IH; constructor].
    + inversion H as [| ? ? Hl Hls]; subst. inversion Hl; subst.
      constructor; [assumption |]. apply IH. now constructor.
Qed.

(** A text that is not blank has a line that is not blank. *)
Lemma nonblank_lines_nonempty (s : str) :
  strip s <> [] -> nonblank_lines s <> [].
Proof.
  intros Hs Hnil. apply Hs, strip_all_space, all_space_of_lines.
  unfold nonblank_lines in Hnil.
  induction (splitlines s) as [| l ls IH]; [constructor |].
  cbn [List.map List.filter] in Hnil.
  unfold str_eqb at 1 in Hnil. case_bool_decide as Hl; [| discriminate].
  constructor; [now apply strip_nil_all_space | now apply IH].
Qed.

Section BatchRecordFields.
Context {U : Unicode} {names : NameDB} {store : LocationStore} {env : FileEnv}.
Import import_cvs.

Lemma list_to_map_tabulate_None (f : string -> option str) (ks : list string)
    (k : string) :
  ~ In k ks ->
  (list_to_map (List.map (fun k => (k, f k)) ks) : gmap string (option str)) !! k
  = None.
Proof.
  induction ks as [| k' ks IH]; intros Hnot; [apply lookup_empty |].
  simpl. rewrite lookup_insert_ne by (intros ->; apply Hnot; now left).
  apply IH. intros H. apply Hnot. now right.
Qed.

(** What [restrict_to_columns] holds for every field name. *)
Lemma restrict_to_columns_spec (existing_cols : gset string)
    (d : gmap string (option str)) (k : string) :
  restrict_to_columns existing_cols d !! k
  = if bool_decide (In k ALL_COLUMNS /\ k ∈ existing_cols)
    then Some (get_or_NA d k) else None.
Proof.
  case_bool_decide as Hk.
  - now apply restrict_to_columns_lookup.
  - unfold restrict_to_columns. apply list_to_map_tabulate_None.
    rewrite List.filter_In. intros [Hall Hcol]. apply Hk.
    split; [exact Hall | now apply bool_decide_eq_true_1 in Hcol].
Qed.

(** A run on a text that is not blank, taken apart. *)
Lemma process_file_Some (text_data : str) (ai_data : gmap string pyval)
    (existing_cols : gset string) (record : gmap string (option str)) :
  strip text_data <> [] ->
  process_file text_data ai_data existing_cols = Some record ->
  exists location_code email,
    get_or_NA (overridden text_data ai_data) "cv_email" = Some email /\
    record = restrict_to_columns existing_cols
               (finish_fields text_data (overridden text_data ai_data)
                  location_code email).
Proof.
  intros Hblank Hrun. rewrite process_file_eq in Hrun.
  destruct (strip text_data); [contradiction |].
  cbv zeta in Hrun.
  destruct (find_location_id _ _ _ _) as [location_code |]; [| discriminate].
  cbv beta iota delta [mbind option_bind] in Hrun.
  destruct (get_or_NA (overridden text_data ai_data) "cv_email") as [email |];
    [| discriminate].
  apply (inj Some) in Hrun. now exists location_code, email.
Qed.

Ltac finish_lookup :=
  unfold finish_fields; cbv zeta; cbn [foldl];
  repeat (rewrite ensure_present_other by discriminate);
  repeat (rewrite lookup_insert_ne by discriminate);
  rewrite ?lookup_insert_eq.

Lemma finish_fields_metadata (text_data : str) (d : gmap string (option str))
    (location_code email : str) (k : string) (v : str) :
  In (k, v) [("cv_originalfilename"%string, basename);
             ("cv_location_code"%string, location_code);
             ("cv_parsingtimestamp"%string, parsing_timestamp);
             ("cv_source"%string, py "OCR_UPLOAD");
             ("cv_parsingstatus"%string, py "PARSED");
             ("user_id"%string, uuid4)] ->
  finish_fields text_data d location_code email !! k = Some (Some v).
Proof.
  intros Hin. cbn [In] in Hin.
  destruct Hin as [H | [H | [H | [H | [H | [H | []]]]]]];
    injection H as <- <-; finish_lookup; reflexivity.
Qed.

Lemma choose_username_insert (d : gmap string (option str)) (lines : list str)
    (k : string) (v : option str) :
  k <> "cv_username"%string -> k <> "cv_email"%string ->
  choose_username (<[k := v]> d) lines = choose_username d lines.
Proof.
  intros H1 H2. unfold choose_username, get.
  now rewrite !lookup_insert_ne by assumption.
Qed.

Lemma finish_fields_username (text_data : str) (d : gmap string (option str))
    (location_code email : str) :
  finish_fields text_data d location_code email !! "username"
  = Some (Some (choose_username d (nonblank_lines text_data))).
Proof.
  finish_lookup. now rewrite !choose_username_insert by discriminate.
Qed.

Lemma finish_fields_mobile_number (text_data : str) (d : gmap string (option str))
    (location_code email : str) :
  finish_fields text_data d location_code email !! "mobile_number"
  = Some (Some (clean_mobile_number (or_NA (get d "cv_mobile_number")))).
Proof.
  finish_lookup. unfold get.
  now rewrite !lookup_insert_ne by discriminate.
Qed.

Lemma finish_fields_email (text_data : str) (d : gmap string (option str))
    (location_code email : str) :
  finish_fields text_data d location_code email !! "email"
  = Some (Some (or_NA (get d "cv_email"))).
Proof.
  finish_lookup. unfold get.
  now rewrite !lookup_insert_ne by discriminate.
Qed.

Lemma finish_fields_cv_email (text_data : str) (d : gmap string (option str))
    (location_code email : str) :
  finish_fields text_data d location_code email !! "cv_email" = d !! "cv_email".
Proof. finish_lookup. reflexivity. Qed.

End BatchRecordFields.

Section RegexPhone.
Context {U : Unicode}.
Import import_cvs.

Lemma in_class_6789_digit (c : char) :
  in_class (py "6789") c = true -> in_class (py "0123456789") c = true.
Proof.
  unfold in_class. change (py "6789") with [54; 55; 56; 57]%N.
  change (py "0123456789") with [48; 49; 50; 51; 52; 53; 54; 55; 56; 57]%N.
  cbn [existsb]. rewrite !orb_true_iff. tauto.
Qed.

Lemma national_number_length (core : str) :
  national_number core -> length core = 10%nat.
Proof. intros [c [ds [-> [_ [Hlen _]]]]]. simpl. now rewrite Hlen. Qed.

Lemma national_number_decimal (core : str) :
  ascii_digits_are_decimal -> national_number core ->
  Forall (fun c => isdecimal c = true) core.
Proof.
  intros Hdec [c [ds [-> [Hc [_ Hds]]]]].
  constructor; [| exact Hds]. now apply Hdec, in_class_6789_digit.
Qed.

Lemma lastn_app_exact {A} (x y : list A) : lastn (length y) (x ++ y) = y.
Proof.
  unfold lastn. rewrite length_app.
  replace (length x + length y - length y)%nat with (length x) by lia.
  induction x as [| a x IH]; [reflexivity | exact IH].
Qed.

(** A match of the phone pattern, its whitespace and hyphens removed, is
    cleaned to its national number. *)
Lemma clean_mobile_number_of_match (pre core : str) :
  ascii_digits_are_decimal -> decimals_are_visible ->
  national_number core ->
  let v := List.filter (fun c => negb (is_space c || (c =? HYPHEN)%N))
             (pre ++ core) in
  v <> [] /\ clean_mobile_number v = core.
Proof.
  intros Hdec Hvis Hcore v.
  pose proof (national_number_length core Hcore) as Hlen.
  pose proof (national_number_decimal core Hdec Hcore) as Hdigits.
  assert (Hkeep : List.filter (fun c => negb (is_space c || (c =? HYPHEN)%N)) core
                  = core).
  { apply filter_id_Forall. eapply Forall_impl; [exact Hdigits |].
    intros c Hc. destruct (Hvis c Hc) as [Hs Hh].
    rewrite Hs. apply N.eqb_neq in Hh. now rewrite Hh. }
  assert (Hv : exists x, v = x ++ core).
  { subst v. rewrite List.filter_app, Hkeep. eauto. }
  destruct Hv as [x Hv].
  assert (Hd : exists y, List.filter isdecimal v = y ++ core).
  { rewrite Hv, List.filter_app, (filter_id_Forall _ _ Hdigits). eauto. }
  destruct Hd as [y Hd].
  split.
  { rewrite Hv. destruct core; [discriminate |]. now destruct x. }
  unfold clean_mobile_number. unfold str_eqb.
  rewrite bool_decide_eq_false_2.
  2:{ intros Hna. apply (f_equal (@length char)) in Hna.
      rewrite Hv, length_app, Hlen, sentinel_length in Hna. lia. }
  rewrite Hd. cbv zeta.
  assert (Hlast : (if (10 <? length (y ++ core))%nat
                   then lastn 10 (y ++ core) else y ++ core) = core).
  { rewrite <- Hlen at 2. rewrite lastn_app_exact.
    destruct (Nat.ltb_spec 10 (length (y ++ core))) as [_ | Hle];
      [reflexivity |].
    rewrite length_app, Hlen in Hle.
    destruct y; [reflexivity | simpl in Hle; lia]. }
  rewrite Hlast, Hlen. reflexivity.
Qed.

(** The phone number of the regex extractor, when there is one. *)
Lemma regex_phone_national (text : str) (v : str) :
  ascii_digits_are_decimal -> decimals_are_visible ->
  In ("cv_mobile_number"%string, v) (basic_regex_overrides text) ->
  v <> DEFAULT_NA ->
  v <> [] /\ national_number (clean_mobile_number v).
Proof.
  intros Hdec Hvis Hin Hv. unfold basic_regex_overrides in Hin.
  cbv zeta in Hin. cbn [In] in Hin.
  destruct Hin as [H | [H | [H | [H | []]]]]; try discriminate H.
  apply (f_equal snd) in H. cbn [snd] in H.
  destruct (findall PHONE_REGEX text) as [| p ps] eqn:Hfind;
    [now symmetry in H |].
  assert (Hp : In p (findall PHONE_REGEX text)) by (rewrite Hfind; now left).
  unfold findall in Hp.
  destruct (findall_from_In _ _ _ _ _ Hp) as [prev [s [n [Hm ->]]]].
  destruct (PHONE_REGEX_Some prev s n Hm) as [pre [core [Hsplit [Hcore _]]]].
  rewrite Hsplit in H. subst v.
  destruct (clean_mobile_number_of_match pre core Hdec Hvis Hcore) as [Hne Hclean].
  split; [exact Hne | now rewrite Hclean].
Qed.

End RegexPhone.

Section BatchRecordProperties.
Context {U : Unicode} {names : NameDB} {store : LocationStore} {env : FileEnv}.
Import import_cvs.

Lemma ALL_COLUMNS_has (k : string) :
  bool_decide (k ∈ ALL_COLUMNS) = true -> In k ALL_COLUMNS.
Proof. intros H. apply list_elem_of_In. now apply bool_decide_eq_true_1 in H. Qed.

(** X5.  The record that [process_file] returns has exactly the fields that
    are both in [ALL_COLUMNS] and among the existing columns, when the text
    is not blank; for a blank text it has no field at all. *)
Theorem process_file_columns (text_data : str) (ai_data : gmap string pyval)
    (existing_cols : gset string) (record : gmap string (option str)) :
  process_file text_data ai_data existing_cols = Some record ->
  (strip text_data = [] -> record = ∅) /\
  (strip text_data <> [] ->
   forall k, is_Some (record !! k) <-> In k ALL_COLUMNS /\ k ∈ existing_cols).
Proof.
  intros Hrun. split.
  - intros Hblank. rewrite process_file_eq, Hblank in Hrun. congruence.
  - intros Hblank k.
    destruct (process_file_Some _ _ _ _ Hblank Hrun)
      as [location_code [email [_ ->]]].
    rewrite restrict_to_columns_spec.
    case_bool_decide as Hk; split; intros H.
    + exact Hk.
    + eauto.
    + now destruct H.
    + contradiction.
Qed.

(** X6.  The provenance fields of the record are those of the run, whatever
    the model or the text gave for them: the source is "OCR_UPLOAD", the
    status "PARSED", and the file name, the user id and the time stamp are
    those of the run. *)
Theorem process_file_provenance (text_data : str) (ai_data : gmap string pyval)
    (existing_cols : gset string) (record : gmap string (option str))
    (k : string) (v : str) :
  strip text_data <> [] ->
  process_file text_data ai_data existing_cols = Some record ->
  In (k, v) [("cv_source"%string, py "OCR_UPLOAD");
             ("cv_parsingstatus"%string, py "PARSED");
             ("cv_originalfilename"%string, basename);
             ("user_id"%string, uuid4);
             ("cv_parsingtimestamp"%string, parsing_timestamp)] ->
  k ∈ existing_cols ->
  record !! k = Some (Some v).
Proof.
  intros Hblank Hrun Hin Hcol.
  destruct (process_file_Some _ _ _ _ Hblank Hrun)
    as [location_code [email [_ ->]]].
  assert (Hall : In k ALL_COLUMNS).
  { cbn [In] in Hin.
    destruct Hin as [H | [H | [H | [H | [H | []]]]]];
      apply (f_equal fst) in H; cbn [fst] in H; subst k;
      apply ALL_COLUMNS_has; vm_compute; reflexivity. }
  rewrite restrict_to_columns_lookup by assumption.
  unfold get_or_NA.
  rewrite (finish_fields_metadata _ _ _ _ k v); [reflexivity |].
  cbn [In] in *. tauto.
Qed.

(** X7.  The mobile number of the record is the sentinel or exactly ten
    decimal digits.  When the regex extractor found a phone number in the
    text, it is the ten digits of that number, starting with a digit from 6
    to 9, whatever the model gave. *)
Theorem process_file_mobile_number (text_data : str)
    (ai_data : gmap string pyval) (existing_cols : gset string)
    (record : gmap string (option str)) :
  strip text_data <> [] ->
  process_file text_data ai_data existing_cols = Some record ->
  "mobile_number"%string ∈ existing_cols ->
  exists m,
    record !! "mobile_number" = Some (Some m) /\
    (m = DEFAULT_NA \/
     (length m = 10%nat /\ Forall (fun c => isdecimal c = true) m)) /\
    (ascii_digits_are_decimal -> decimals_are_visible ->
     forall v, In ("cv_mobile_number"%string, v) (basic_regex_overrides text_data) ->
               v <> DEFAULT_NA ->
               m = clean_mobile_number v /\ national_number m).
Proof.
  intros Hblank Hrun Hcol.
  destruct (process_file_Some _ _ _ _ Hblank Hrun)
    as [location_code [email [_ ->]]].
  set (d := overridden text_data ai_data).
  exists (clean_mobile_number (or_NA (get d "cv_mobile_number"))).
  split; [| split].
  - rewrite restrict_to_columns_lookup;
      [| apply ALL_COLUMNS_has; vm_compute; reflexivity | exact Hcol].
    unfold get_or_NA. now rewrite finish_fields_mobile_number.
  - apply clean_mobile_number_cases.
  - intros Hdec Hvis v Hin Hv.
    destruct (regex_phone_national text_data v Hdec Hvis Hin Hv) as [Hne Hnat].
    assert (Hd : d !! "cv_mobile_number" = Some (Some v)).
    { subst d. unfold overridden.
      apply apply_overrides_lookup; [| exact Hin | exact Hv].
      rewrite basic_regex_overrides_keys.
      repeat constructor; cbn [In]; intuition discriminate. }
    unfold get. rewrite Hd. cbn [default from_option id].
    destruct v as [| c v]; [contradiction |]. cbn [or_NA].
    split; [reflexivity | exact Hnat].
Qed.

(** X8.  The [email] field of the record repeats its [cv_email] field, but
    for an empty [cv_email], where it is the sentinel. *)
Theorem process_file_email_mirrors_cv_email (text_data : str)
    (ai_data : gmap string pyval) (existing_cols : gset string)
    (record : gmap string (option str)) :
  strip text_data <> [] ->
  process_file text_data ai_data existing_cols = Some record ->
  "email"%string ∈ existing_cols -> "cv_email"%string ∈ existing_cols ->
  exists e,
    record !! "cv_email" = Some (Some e) /\
    record !! "email" = Some (Some (match e with [] => DEFAULT_NA | _ => e end)).
Proof.
  intros Hblank Hrun Hcol1 Hcol2.
  destruct (process_file_Some _ _ _ _ Hblank Hrun)
    as [location_code [email [Hemail ->]]].
  set (d := overridden text_data ai_data) in *.
  exists email.
  rewrite !restrict_to_columns_lookup;
    try (apply ALL_COLUMNS_has; vm_compute; reflexivity); try assumption.
  unfold get_or_NA at 1 2.
  rewrite finish_fields_cv_email, finish_fields_email.
  unfold get_or_NA in Hemail. unfold get.
  destruct (d !! "cv_email") as [[e |] |]; cbn [default from_option id] in *.
  - injection Hemail as ->. split; [reflexivity |]. now destruct email.
  - discriminate.
  - injection Hemail as <-. split; reflexivity.
Qed.

Lemma overridden_cv_username (text_data : str) (ai_data : gmap string pyval) :
  get (overridden text_data ai_data) "cv_username"
  = get (flatten_value <$> ai_data) "cv_username".
Proof.
  unfold get, overridden. rewrite apply_overrides_other; [reflexivity |].
  rewrite basic_regex_overrides_keys. cbn [In]. intuition discriminate.
Qed.

(** X9.  When the model gives no usable name (none, an empty or a blank
    one, or the sentinel), the user name of the record is the first
    non-blank line of the text, stripped; the e-mail address is not looked
    at. *)
Theorem process_file_username_first_line (text_data : str)
    (ai_data : gmap string pyval) (existing_cols : gset string)
    (record : gmap string (option str)) :
  let name := or_NA (get (flatten_value <$> ai_data) "cv_username") in
  strip text_data <> [] ->
  process_file text_data ai_data existing_cols = Some record ->
  "username"%string ∈ existing_cols ->
  name = DEFAULT_NA \/ strip name = [] ->
  exists l ls,
    nonblank_lines text_data = l :: ls /\
    record !! "username" = Some (Some l).
Proof.
  intros name Hblank Hrun Hcol Hname.
  destruct (process_file_Some _ _ _ _ Hblank Hrun)
    as [location_code [email [_ ->]]].
  pose proof (nonblank_lines_nonempty text_data Hblank) as Hlines.
  destruct (nonblank_lines text_data) as [| l ls] eqn:El; [contradiction |].
  exists l, ls. split; [reflexivity |].
  rewrite restrict_to_columns_lookup;
    [| apply ALL_COLUMNS_has; vm_compute; reflexivity | exact Hcol].
  unfold get_or_NA. rewrite finish_fields_username.
  cbn [default from_option id]. do 2 f_equal.
  unfold choose_username. rewrite overridden_cv_username. fold name.
  rewrite El.
  destruct Hname as [-> | Hstrip].
  - unfold str_eqb. now rewrite bool_decide_eq_true_2.
  - rewrite Hstrip. cbn [truthy negb]. now rewrite orb_true_r.
Qed.

Lemma ensure_present_truthy (key : string) (d : gmap string (option str)) :
  truthy (get (ensure_present key d) key) = true.
Proof.
  unfold ensure_present. destruct (truthy (get d key)) eqn:Ht; [exact Ht |].
  unfold get. rewrite lookup_insert_eq. reflexivity.
Qed.

Lemma get_ensure_present_other (key k : string) (d : gmap string (option str)) :
  key <> k -> get (ensure_present key d) k = get d k.
Proof. intros H. unfold get. now rewrite ensure_present_other. Qed.

(** X10.  The three fields on past positions are never empty in the record:
    each holds a string that is not empty. *)
Theorem process_file_past_fields (text_data : str)
    (ai_data : gmap string pyval) (existing_cols : gset string)
    (record : gmap string (option str)) (k : string) :
  strip text_data <> [] ->
  process_file text_data ai_data existing_cols = Some record ->
  In k ["cv_pastcompanies"; "cv_pastdesignations"; "cv_pastduration"]%string ->
  k ∈ existing_cols ->
  exists v, record !! k = Some (Some v) /\ v <> [].
Proof.
  intros Hblank Hrun Hk Hcol.
  destruct (process_file_Some _ _ _ _ Hblank Hrun)
    as [location_code [email [_ ->]]].
  assert (Htruthy : truthy (get (finish_fields text_data
                                   (overridden text_data ai_data)
                                   location_code email) k) = true).
  { unfold finish_fields. cbv zeta. cbn [foldl]. cbn [In] in Hk.
    destruct Hk as [<- | [<- | [<- | []]]].
    - rewrite !get_ensure_present_other by discriminate.
      apply ensure_present_truthy.
    - rewrite !get_ensure_present_other by discriminate.
      apply ensure_present_truthy.
    - apply ensure_present_truthy. }
  assert (Hall : In k ALL_COLUMNS).
  { cbn [In] in Hk. destruct Hk as [<- | [<- | [<- | []]]];
      apply ALL_COLUMNS_has; vm_compute; reflexivity. }
  rewrite restrict_to_columns_lookup by assumption.
  unfold get_or_NA. unfold get in Htruthy.
  destruct (finish_fields _ _ _ _ !! k) as [[[| c v] |] |];
    try discriminate Htruthy.
  exists (c :: v). split; [reflexivity | discriminate].
Qed.

End BatchRecordProperties.

Section BatchFailures.
Context {U : Unicode} {names : NameDB} {store : LocationStore} {env : FileEnv}.
Import import_cvs.

(** A regex value that is the sentinel leaves the dictionary as it is. *)
Lemma apply_overrides_sentinel (ovs : list (string * str)) (k : string) :
  forall d : gmap string (option str),
    List.NoDup (List.map fst ovs) ->
    In (k, DEFAULT_NA) ovs ->
    apply_overrides ovs d !! k = d !! k.
Proof.
  induction ovs as [| [k' v'] ovs IH]; intros d Hnd Hin; [contradiction |].
  simpl in Hnd. inversion Hnd as [| ? ? Hnotin Hnd']; subst.
  change (apply_overrides ((k', v') :: ovs) d)
    with (apply_overrides ovs
            (if str_eqb v' DEFAULT_NA then d else <[k' := Some v']> d)).
  destruct Hin as [Heq | Hin].
  - injection Heq as -> ->.
    rewrite apply_overrides_other by assumption.
    unfold str_eqb. now rewrite bool_decide_eq_true_2.
  - rewrite IH by assumption.
    destruct (str_eqb v' DEFAULT_NA); [reflexivity |].
    apply lookup_insert_ne. intros ->. apply Hnotin.
    now apply (List.in_map fst) in Hin.
Qed.

Lemma basic_regex_overrides_NoDup (text : str) :
  List.NoDup (List.map fst (basic_regex_overrides text)).
Proof.
  rewrite basic_regex_overrides_keys.
  repeat constructor; cbn [In]; intuition discriminate.
Qed.

(** X11.  A null e-mail address from the model makes [process_file] fail
    when the text holds no e-mail address of its own: no record is
    returned. *)
Theorem process_file_null_email_fails (text_data : str)
    (ai_data : gmap string pyval) (existing_cols : gset string) :
  strip text_data <> [] ->
  ai_data !! "cv_email" = Some VNone ->
  In ("cv_email"%string, DEFAULT_NA) (basic_regex_overrides text_data) ->
  process_file text_data ai_data existing_cols = None.
Proof.
  intros Hblank Hnull Hregex. rewrite process_file_eq.
  destruct (strip text_data); [contradiction |]. cbv zeta.
  assert (Hemail : get_or_NA (overridden text_data ai_data) "cv_email" = None).
  { unfold get_or_NA, overridden.
    rewrite apply_overrides_sentinel
      by (apply basic_regex_overrides_NoDup || exact Hregex).
    now rewrite lookup_fmap, Hnull. }
  rewrite Hemail.
  destruct (find_location_id _ _ _ _); reflexivity.
Qed.

(** [find_location_id] on strings always returns. *)
Lemma find_location_id_on_strings (area city state : str)
    (free_text_location : option str) :
  is_Some (find_location_id (Some area) (Some city) (Some state)
             free_text_location).
Proof.
  unfold find_location_id.
  destruct (not_NA (Some city) && not_NA (Some state));
    cbn [mbind option_bind];
    [destruct (by_city_state (strip city) (strip state)); [eauto |] |];
    (destruct (not_NA (Some area) && not_NA (Some city));
     cbn [mbind option_bind];
     [destruct (by_area_city (strip area) (strip city)); eauto | eauto]).
Qed.

(** X12.  [find_location_id] fails only when [None] reaches a [strip]: it
    returns for all strings as area, city and state, whatever the free text
    is; and with [None] as city it fails exactly when the state or the area
    is not the sentinel. *)
Theorem find_location_id_failures
    (area state free_text_location : option str) :
  (forall a c s,
      is_Some (find_location_id (Some a) (Some c) (Some s) free_text_location)) /\
  (find_location_id area None state free_text_location = None
   <-> not_NA state = true \/ not_NA area = true).
Proof.
  split; [intros a c s; apply find_location_id_on_strings |].
  unfold find_location_id. cbn [not_NA andb].
  destruct (not_NA state) eqn:Hs; cbn [mbind option_bind andb].
  - split; [now left | reflexivity].
  - rewrite andb_true_r.
    destruct (not_NA area) eqn:Ha; cbn [mbind option_bind].
    + split; [now right |]. intros _. now destruct area.
    + split; [discriminate | intros [H | H]; discriminate].
Qed.






End BatchFailures.

(** ** The sample run *)

Lemma ascii_tables_digits_decimal : ascii_digits_are_decimal (U:=ascii_tables).
Proof.
  intros c. unfold in_class.
  change (py "0123456789") with [48; 49; 50; 51; 52; 53; 54; 55; 56; 57]%N.
  cbn [existsb]. rewrite !orb_true_iff, !N.eqb_eq.
  intros H. repeat (destruct H as [-> | H]; [reflexivity |]). discriminate.
Qed.

Lemma ascii_tables_decimals_visible : decimals_are_visible (U:=ascii_tables).
Proof.
  intros c. cbn [isdecimal ascii_tables]. unfold ascii_digit_p.
  rewrite andb_true_iff, !N.leb_le. intros [H1 H2].
  split; [| unfold HYPHEN; lia].
  apply not_true_iff_false. unfold is_space.
  rewrite !orb_true_iff, !andb_true_iff, !N.leb_le, !N.eqb_eq. lia.
Qed.

Lemma sample_text_not_blank : strip sample_text <> [].
Proof. vm_compute. discriminate. Qed.

Lemma Some_default {A} (o : option A) (a : A) :
  match o with Some _ => true | None => false end = true ->
  o = Some (default a o).
Proof. destruct o; [reflexivity | discriminate]. Qed.

Lemma sample_run_Some :
  import_cvs.process_file (U:=ascii_tables) (names:=sample_names)
    (store:=table_store sample_rows) (env:=sample_env)
    sample_text sample_answer sample_cols
  = Some sample_record.
Proof. apply Some_default. vm_compute. reflexivity. Qed.

Lemma sample_cols_all (k : string) :
  bool_decide (k ∈ import_cvs.ALL_COLUMNS) = true -> k ∈ sample_cols.
Proof.
  intros H. apply bool_decide_eq_true_1 in H.
  unfold sample_cols. now apply elem_of_list_to_set.
Qed.

Lemma process_file_columns_witness :
  is_Some (sample_record !! "cv_pincode"%string) /\
  sample_record !! "bogus"%string = None.
Proof.
  pose proof (proj2 (process_file_columns (U:=ascii_tables) (names:=sample_names)
                       (store:=table_store sample_rows) (env:=sample_env)
                       sample_text sample_answer sample_cols sample_record
                       sample_run_Some) sample_text_not_blank) as H.
  split.
  - apply H. split.
    + apply list_elem_of_In, (bool_decide_unpack _). vm_compute. exact I.
    + apply sample_cols_all. vm_compute. reflexivity.
  - destruct (sample_record !! "bogus"%string) eqn:E; [| reflexivity].
    exfalso. assert (Hs : is_Some (sample_record !! "bogus"%string)) by eauto.
    apply H in Hs. destruct Hs as [Hin _].
    apply list_elem_of_In in Hin. revert Hin.
    apply (bool_decide_unpack _). vm_compute. exact I.
Defined.

Lemma process_file_provenance_witness :
  sample_answer !! "cv_source"%string = Some (VStr (py "MODEL")) /\
  sample_record !! "cv_source"%string = Some (Some (py "OCR_UPLOAD")).
Proof.
  split; [vm_compute; reflexivity |].
  apply (process_file_provenance (U:=ascii_tables) (names:=sample_names)
           (store:=table_store sample_rows) (env:=sample_env)
           sample_text sample_answer sample_cols sample_record
           "cv_source"%string (py "OCR_UPLOAD")
           sample_text_not_blank sample_run_Some).
  - now left.
  - apply sample_cols_all. vm_compute. reflexivity.
Defined.

Lemma process_file_mobile_number_witness :
  In ("cv_mobile_number"%string, py "+919876543210")
     (import_cvs.basic_regex_overrides (U:=ascii_tables) sample_text) /\
  exists m, sample_record !! "mobile_number"%string = Some (Some m) /\
            import_cvs.national_number (U:=ascii_tables) m.
Proof.
  assert (Hin : In ("cv_mobile_number"%string, py "+919876543210")
                   (import_cvs.basic_regex_overrides (U:=ascii_tables)
                      sample_text))
    by (vm_compute; tauto).
  split; [exact Hin |].
  destruct (process_file_mobile_number (U:=ascii_tables) (names:=sample_names)
              (store:=table_store sample_rows) (env:=sample_env)
              sample_text sample_answer sample_cols sample_record
              sample_text_not_blank sample_run_Some
              (sample_cols_all "mobile_number" eq_refl))
    as [m [Hm [_ Hregex]]].
  exists m. split; [exact Hm |].
  apply (Hregex ascii_tables_digits_decimal ascii_tables_decimals_visible
           (py "+919876543210") Hin).
  vm_compute. discriminate.
Defined.

Lemma process_file_email_mirrors_cv_email_witness :
  exists e, sample_record !! "cv_email"%string = Some (Some e) /\
            sample_record !! "email"%string
            = Some (Some (match e with [] => DEFAULT_NA | _ => e end)).
Proof.
  apply (process_file_email_mirrors_cv_email (U:=ascii_tables)
           (names:=sample_names) (store:=table_store sample_rows)
           (env:=sample_env) sample_text sample_answer sample_cols sample_record
           sample_text_not_blank sample_run_Some);
    apply sample_cols_all; vm_compute; reflexivity.
Defined.

Lemma process_file_username_first_line_witness :
  exists l ls,
    nonblank_lines sample_text = l :: ls /\
    sample_record !! "username"%string = Some (Some l).
Proof.
  apply (process_file_username_first_line (U:=ascii_tables)
           (names:=sample_names) (store:=table_store sample_rows)
           (env:=sample_env) sample_text sample_answer sample_cols sample_record
           sample_text_not_blank sample_run_Some).
  - apply sample_cols_all. vm_compute. reflexivity.
  - left. vm_compute. reflexivity.
Defined.

Lemma process_file_past_fields_witness :
  exists v, sample_record !! "cv_pastduration"%string = Some (Some v) /\ v <> [].
Proof.
  apply (process_file_past_fields (U:=ascii_tables)
           (names:=sample_names) (store:=table_store sample_rows)
           (env:=sample_env) sample_text sample_answer sample_cols sample_record
           "cv_pastduration"%string sample_text_not_blank sample_run_Some).
  - cbn. tauto.
  - apply sample_cols_all. vm_compute. reflexivity.
Defined.

Lemma process_file_null_email_fails_witness :
  let text := py "Asha Rao, Pune" in
  let answer : gmap string pyval :=
    {[ "cv_username"%string := VStr (py "Asha Rao");
       "cv_email"%string := VNone ]} in
  import_cvs.process_file (U:=ascii_tables) (names:=sample_names)
    (store:=table_store sample_rows) (env:=sample_env) text answer sample_cols
  = None.
Proof.
  intros text answer.
  apply (process_file_null_email_fails (U:=ascii_tables)).
  - vm_compute. discriminate.
  - vm_compute. reflexivity.
  - vm_compute. tauto.
Defined.

Lemma find_location_id_failures_witness :
  import_cvs.find_location_id (store:=table_store sample_rows)
    (Some DEFAULT_NA) None (Some (py "Goa")) None = None.
Proof.
  apply (proj2 (find_location_id_failures (store:=table_store sample_rows)
                  (Some DEFAULT_NA) (Some (py "Goa")) None)).
  left. vm_compute. reflexivity.
Defined.


(** ** The normalized text, line by line *)

Lemma blank_ok_no_TAB (s : str) : forall b, blank_ok b s -> ~ In TAB s.
Proof.
  induction s as [| c s IH]; intros b H Hin; [exact Hin |].
  cbn [blank_ok] in H. destruct H as [Hc [_ Hs]].
  destruct Hin as [-> | Hin]; [now apply Hc | exact (IH _ Hs Hin)].
Qed.

Lemma blank_ok_no_double_SP (s : str) :
  blank_ok false s -> ~ occurs [SP; SP] s.
Proof.
  intros H [l1 [l2 Hs]]. rewrite Hs in H.
  apply blank_ok_suffix in H. cbn in H.
  destruct H as [_ [_ [_ [H _]]]]. now specialize (H eq_refl).
Qed.

Lemma filter_all_false {A} (f : A -> bool) (l : list A) :
  (forall x, In x l -> f x = false) -> List.filter f l = [].
Proof.
  induction l as [| a l IH]; intros H; [reflexivity |].
  cbn [List.filter]. rewrite (H a) by now left.
  apply IH. intros x Hx. apply H. now right.
Qed.

Lemma filter_length_le {A} (f : A -> bool) (l : list A) :
  (length (List.filter f l) <= length l)%nat.
Proof.
  induction l as [| a l IH]; [reflexivity |].
  cbn [List.filter]. destruct (f a); simpl; lia.
Qed.

Lemma mem_app (x : str) (a b : list str) : mem x (a ++ b) = mem x a || mem x b.
Proof. unfold mem. apply existsb_app. Qed.

(** Dropping the lines found among the first [n] and last [m] drops at
    least [n + m] lines when there are that many. *)
Lemma filter_outer_length (n m : nat) (lines : list str) :
  (n + m <= length lines)%nat ->
  (length (List.filter
             (fun ln => negb (mem ln (firstn n lines ++ lastn m lines))) lines)
   + (n + m) <= length lines)%nat.
Proof.
  intros Hlen.
  set (keep := fun ln => negb (mem ln (firstn n lines ++ lastn m lines))).
  assert (Hsplit : lines = firstn n lines
                           ++ firstn (length lines - n - m) (skipn n lines)
                           ++ lastn m lines).
  { unfold lastn.
    replace (skipn (length lines - m) lines)
      with (skipn (length lines - n - m) (skipn n lines))
      by (rewrite skipn_skipn; f_equal; lia).
    now rewrite firstn_skipn, firstn_skipn. }
  assert (Hdrop : forall part,
             (forall x, In x part -> In x (firstn n lines ++ lastn m lines)) ->
             List.filter keep part = []).
  { intros part Hpart. apply filter_all_false. intros x Hx.
    unfold keep. apply negb_false_iff, mem_In, Hpart, Hx. }
  assert (Hf : List.filter keep lines
               = List.filter keep
                   (firstn n lines
                      ++ firstn (length lines - n - m) (skipn n lines)
                      ++ lastn m lines))
    by (f_equal; exact Hsplit).
  rewrite Hf, !List.filter_app.
  rewrite (Hdrop (firstn n lines)) by (intros; apply in_or_app; now left).
  rewrite (Hdrop (lastn m lines)) by (intros; apply in_or_app; now right).
  rewrite app_nil_r. cbn [app].
  pose proof (filter_length_le keep
                (firstn (length lines - n - m) (skipn n lines))) as Hle.
  rewrite length_firstn, length_skipn in Hle. lia.
Qed.

Section Trim.
Context {U : Unicode}.
Import layout.

(** X14.  The normalized text holds no tab and no two spaces in a row. *)
Theorem normalize_text_single_blanks (text : str) :
  ~ In TAB (normalize_text text) /\ ~ occurs [SP; SP] (normalize_text text).
Proof.
  split.
  - exact (blank_ok_no_TAB _ _ (normalize_text_blank_ok text)).
  - exact (blank_ok_no_double_SP _ (normalize_text_blank_ok text)).
Qed.

(** X15.  When the cleaned text has more than six non-blank lines, the lines
    of the normalized text are those that differ from each of the first two
    and each of the last two lines, in their order: these four lines go
    whether or not they recur, so at least four lines are dropped.  Only
    when no line would be left are all of them kept. *)
Theorem normalize_text_drops_outer_lines (text : str) :
  let lines := nonblank_lines (clean_up text) in
  let kept :=
    List.filter
      (fun ln => negb (mem ln (firstn 2 lines ++ lastn 2 lines))) lines in
  text <> [] ->
  (6 < length lines)%nat ->
  nonblank_lines (normalize_text text)
  = match kept with [] => lines | _ => kept end
  /\ (forall l, In l (firstn 2 lines) \/ In l (lastn 2 lines) -> ~ In l kept)
  /\ (length kept + 4 <= length lines)%nat.
Proof.
  intros lines kept Htext Hlong.
  assert (Hkept : kept
                  = List.filter (fun ln => negb (mem ln (firstn 2 lines))
                                           && negb (mem ln (lastn 2 lines)))
                      lines).
  { unfold kept. apply List.filter_ext. intros ln.
    now rewrite mem_app, negb_orb. }
  split; [| split].
  - unfold normalize_text. destruct text as [| c text]; [contradiction |].
    fold lines. unfold trim_boilerplate. cbv zeta. fold lines.
    destruct (Nat.ltb_spec 6 (length lines)) as [_ | Hshort]; [| lia].
    rewrite <- Hkept.
    assert (Hp : Forall proper_line lines) by apply nonblank_lines_proper.
    assert (Hs : Forall (fun l => strip l = l) lines)
      by apply nonblank_lines_stripped.
    assert (Hsub : forall l, In l kept -> In l lines)
      by (intros l Hl; apply List.filter_In in Hl; tauto).
    destruct kept as [| k0 kept0] eqn:Ek.
    + rewrite strip_join by assumption. now apply nonblank_lines_join.
    + rewrite <- Ek in *.
      assert (Hp' : Forall proper_line kept).
      { apply List.Forall_forall. intros l Hl.
        rewrite List.Forall_forall in Hp. apply Hp, Hsub, Hl. }
      assert (Hs' : Forall (fun l => strip l = l) kept).
      { apply List.Forall_forall. intros l Hl.
        rewrite List.Forall_forall in Hs. apply Hs, Hsub, Hl. }
      rewrite strip_join by assumption. now apply nonblank_lines_join.
  - intros l Hl Hin. apply List.filter_In in Hin as [_ Hin].
    apply negb_true_iff in Hin.
    assert (Hm : mem l (firstn 2 lines ++ lastn 2 lines) = true)
      by (apply mem_In, in_or_app; exact Hl).
    congruence.
  - apply (filter_outer_length 2 2 lines). lia.
Qed.

End Trim.

(** Nine lines, none of them repeated but "Acme", which is the second line
    and the sixth: the first two and the last two go, and the sixth with
    them. *)
Lemma normalize_text_drops_outer_lines_witness :
  let text :=
    join [LF] [py "Page 1"; py "Acme"; py "a"; py "b"; py "c"; py "Acme";
               py "d"; py "e"; py "f"] in
  text <> [] /\
  (6 < length (nonblank_lines (layout.clean_up (U:=ascii_tables) text)))%nat /\
  nonblank_lines (layout.normalize_text (U:=ascii_tables) text)
  = [py "a"; py "b"; py "c"; py "d"].
Proof.
  intros text.
  assert (Htext : text <> []) by (vm_compute; discriminate).
  assert (Hlong : (6 < length (nonblank_lines
                                 (layout.clean_up (U:=ascii_tables) text)))%nat)
    by (vm_compute; lia).
  split; [exact Htext | split; [exact Hlong |]].
  rewrite (proj1 (normalize_text_drops_outer_lines (U:=ascii_tables) text
                    Htext Hlong)).
  vm_compute. reflexivity.
Defined.

(** ** The user name and the write of the API path *)

Section ApiDetails.
Import app.

(** What the model's user name leaves in [details]. *)
Lemma fill_from_llm_username (llm_info : gmap string pyval) :
  fill_from_llm llm_info !! "username"
  = if present (default VNone (llm_info !! "cv_username"))
    then Some (default VNone (llm_info !! "cv_username"))
    else None.
Proof.
  unfold fill_from_llm.
  change mapping with
    ([] ++ ("cv_username"%string, "username"%string) :: skipn 1 mapping).
  rewrite fill_lookup_target by (simpl; intuition discriminate).
  destruct (present (default VNone (llm_info !! "cv_username")));
    [reflexivity | apply lookup_empty].
Qed.

(** X16.  On the API path the user name is the model's when it gave one;
    otherwise the name found by the entity recogniser when that is not
    empty; otherwise what stands before the first at-sign of the first
    e-mail address found; and absent when all three are missing.  The phone
    numbers play no part in it. *)
Theorem upload_resume_username_precedence (llm_info : gmap string pyval)
    (emails phones : list str) (name : option str) (filename : str)
    (cv_summary : pyval) :
  upload_resume llm_info emails phones name filename cv_summary !! "username"
  = if present (default VNone (llm_info !! "cv_username"))
    then Some (default VNone (llm_info !! "cv_username"))
    else match name, emails with
         | Some (c :: n), _ => Some (VStr (c :: n))
         | _, e :: _ => Some (VStr (before AT e))
         | _, [] => None
         end.
Proof.
  unfold upload_resume.
  do 3 (rewrite lookup_insert_ne by discriminate).
  set (d0 := fill_from_llm llm_info).
  set (d1 := match d0 !! "mobile_number" with
             | Some _ => d0
             | None => match phones with
                       | [] => d0
                       | p :: _ => <["mobile_number" := VStr p]> d0
                       end
             end).
  assert (H1 : d1 !! "username" = d0 !! "username").
  { subst d1. destruct (d0 !! "mobile_number"); [reflexivity |].
    destruct phones; [reflexivity |].
    now rewrite lookup_insert_ne by discriminate. }
  assert (H0 : d0 !! "username"
               = if present (default VNone (llm_info !! "cv_username"))
                 then Some (default VNone (llm_info !! "cv_username"))
                 else None)
    by apply fill_from_llm_username.
  rewrite <- H1 in H0. clearbody d1. clear H1 d0.
  destruct (present (default VNone (llm_info !! "cv_username"))).
  - rewrite H0. destruct name as [[| c n] |]; rewrite H0; exact H0.
  - rewrite H0. destruct name as [[| c n] |].
    + rewrite H0. destruct emails; [exact H0 | apply lookup_insert_eq].
    + rewrite lookup_insert_eq. apply lookup_insert_eq.
    + rewrite H0. destruct emails; [exact H0 | apply lookup_insert_eq].
Qed.

Lemma truthy_value_present (d : gmap string pyval) (k : string) :
  truthy_value (default VNone (d !! k)) = true ->
  d !! k = Some (default VNone (d !! k)).
Proof. destruct (d !! k); [reflexivity | discriminate]. Qed.

(** X17.  The write of the API path.  Nothing is sent to the table, and no
    error is raised, exactly when the write was not asked for or [details]
    holds no usable mobile number, which is so when neither the model nor
    the phone extractor gave one.  When a write is due and the table has the
    column [mobile_number], the statement is executed without [ValueError];
    it carries the mobile number, no field outside the columns of the table,
    and an explicit null for [created] when that is a column. *)
Theorem upload_resume_store (llm_info : gmap string pyval)
    (emails phones : list str) (name : option str) (filename : str)
    (cv_summary : pyval) (upload_to_db : bool) (cols : list string) :
  let details := upload_resume llm_info emails phones name filename cv_summary in
  let mobile := default VNone (details !! "mobile_number") in
  (store upload_to_db cols details = Some None
   <-> upload_to_db = false \/ truthy_value mobile = false) /\
  (present (default VNone (llm_info !! "cv_mobile_number")) = false ->
   phones = [] -> truthy_value mobile = false) /\
  (upload_to_db = true -> truthy_value mobile = true ->
   "mobile_number"%string ∈ cols ->
   exists payload,
     store upload_to_db cols details = Some (Some payload) /\
     payload !! "mobile_number" = Some mobile /\
     (forall k, k ∉ cols -> payload !! k = None) /\
     ("created"%string ∈ cols -> payload !! "created" = Some VNone)).
Proof.
  intros details mobile.
  assert (Hpayload : truthy_value mobile = true ->
                     "mobile_number"%string ∈ cols ->
                     filter (fun kv : string * pyval => kv.1 ∈ cols) details
                       !! "mobile_number" = Some mobile).
  { intros Hm Hcol. apply map_lookup_filter_Some. split; [| exact Hcol].
    now apply truthy_value_present. }
  split; [| split].
  - unfold store. fold mobile.
    destruct upload_to_db; cbn [andb]; [| split; [now left | reflexivity]].
    destruct (truthy_value mobile) eqn:Hm;
      [| split; [now right | reflexivity]].
    split; [| intros [H | H]; discriminate].
    unfold crud.upsert_candidate_details. cbv zeta.
    destruct (decide (_ = ∅)); cbn; discriminate.
  - intros Hmodel ->. unfold mobile, details.
    rewrite upload_resume_mobile, fill_from_llm_mobile, Hmodel. reflexivity.
  - intros -> Hm Hcol.
    exists (filter (fun kv : string * pyval => kv.1 ∈ cols) details).
    split; [| split; [| split]].
    + unfold store. fold mobile. rewrite Hm. cbn [andb].
      unfold crud.upsert_candidate_details. cbv zeta.
      destruct (decide (_ = ∅)) as [He |]; [| reflexivity].
      specialize (Hpayload Hm Hcol). rewrite He, lookup_empty in Hpayload.
      discriminate.
    + exact (Hpayload Hm Hcol).
    + intros k Hk. apply map_lookup_filter_None. right.
      intros v _ Hin. exact (Hk Hin).
    + intros Hcreated. apply map_lookup_filter_Some. split; [| exact Hcreated].
      unfold details, upload_resume.
      rewrite lookup_insert_ne by discriminate. apply lookup_insert_eq.
Qed.

End ApiDetails.

Lemma upload_resume_store_witness :
  let llm_info : gmap string pyval :=
    {[ "cv_username"%string := VStr (py "Asha Rao") ]} in
  let cols := ["mobile_number"; "username"; "created"]%string in
  let details :=
    app.upload_resume llm_info [] [py "+919876543210"] None (py "cv.pdf") VNone in
  exists payload,
    app.store true cols details = Some (Some payload) /\
    payload !! "mobile_number"%string = Some (VStr (py "+919876543210")) /\
    payload !! "resume"%string = None /\
    payload !! "created"%string = Some VNone.
Proof.
  intros llm_info cols details.
  destruct (upload_resume_store llm_info [] [py "+919876543210"] None
              (py "cv.pdf") VNone true cols) as [_ [_ H]].
  destruct H as [payload [H1 [H2 [H3 H4]]]].
  - reflexivity.
  - vm_compute. reflexivity.
  - apply (bool_decide_unpack _). vm_compute. exact I.
  - exists payload. split; [exact H1 |]. split; [| split].
    + rewrite H2. vm_compute. reflexivity.
    + apply H3. apply (bool_decide_unpack _). vm_compute. exact I.
    + apply H4. apply (bool_decide_unpack _). vm_compute. exact I.
Defined.

(** ** The fields prepared by llm_utils *)

Section ExtractFields.
Context {U : Unicode} {names : NameDB} {fl : FloatEnv} {dates : DateEnv}.
Import llm_utils.

(** A field of the answer is never an integer, so its score is written
    without [OverflowError]. *)
Lemma finscore_text_returns (v : pyval) :
  exists finscore, finscore_text v = Returned finscore.
Proof.
  unfold finscore_text, normalize_bfsi_score, py_float.
  destruct v as [| s | items]; cbn; eauto.
  destruct (parse_float s); eauto.
Qed.

Lemma extract_full_cv_fields_eq (result : gmap string pyval) (text : str) :
  exists finscore,
    extract_full_cv_fields result text
    = (gender ←
         detect_gender_of (default (VStr DEFAULT_NA) (result !! "cv_username"))
           text (default (VStr DEFAULT_NA) (result !! "cv_email"));
       r ← for_each_key first_past_step past_keys
             (with_derived_fields result finscore gender);
       for_each_key second_past_step past_keys r).
Proof.
  destruct (finscore_text_returns (default VNone (result !! "cv_finscore")))
    as [finscore Hf].
  exists finscore. unfold extract_full_cv_fields. rewrite Hf.
  cbn [mbind option_bind]. cbv zeta.
  rewrite !(lookup_insert_ne _ "cv_finscore") by discriminate.
  reflexivity.
Qed.

(** [detect_gender] fails on a list only. *)
Lemma detect_gender_of_None (name email : pyval) (text : str) :
  detect_gender_of name text email = None
  <-> (exists i items, name = VList (i :: items))
      \/ (exists items, email = VList items /\ Some [AT] ∈ items).
Proof.
  unfold detect_gender_of. split.
  - destruct name as [| n | [| i items]]; cbn;
      try (intros _; left; now eauto).
    all: destruct email as [| e | items]; cbn; try discriminate.
    all: case_bool_decide as Hin; cbn; [| discriminate].
    all: intros _; right; now eauto.
  - intros [[i [items ->]] | [items [-> Hin]]]; [reflexivity |].
    destruct (name_argument name); [| reflexivity]. cbn.
    now rewrite bool_decide_eq_true_2.
Qed.

Lemma detect_gender_values (n text e : str) :
  In (detect_gender n text e) [py "Male"; py "Female"; DEFAULT_NA].
Proof.
  unfold detect_gender. destruct (gender_scores n text e) as [m f].
  unfold decide_gender. cbn [In].
  destruct (f <? m)%nat; [tauto |]. destruct (m <? f)%nat; tauto.
Qed.

Lemma detect_gender_of_values (name email : pyval) (text g : str) :
  detect_gender_of name text email = Some g ->
  In g [py "Male"; py "Female"; DEFAULT_NA].
Proof.
  unfold detect_gender_of.
  destruct (name_argument name) as [n |]; [| discriminate].
  destruct (email_argument email) as [e |]; [| discriminate].
  cbn. intros [= <-]. apply detect_gender_values.
Qed.

(** *** The location loop *)

Lemma ensure_location_other (d : gmap string pyval) (key k : string) :
  k <> key -> ensure_location d key !! k = d !! k.
Proof.
  intros Hk. unfold ensure_location.
  destruct (truthy_value _); [reflexivity |].
  now rewrite lookup_insert_ne by congruence.
Qed.

Lemma ensure_location_same (d : gmap string pyval) (key : string) :
  exists v, ensure_location d key !! key = Some v /\ truthy_value v = true
            /\ (v = VStr DEFAULT_NA \/ d !! key = Some v).
Proof.
  unfold ensure_location.
  destruct (truthy_value (default VNone (d !! key))) eqn:Ht.
  - destruct (d !! key) as [v |] eqn:Hv; [| discriminate].
    exists v. cbn in Ht. auto.
  - exists (VStr DEFAULT_NA). rewrite lookup_insert_eq. auto.
Qed.

Lemma ensure_location_keeps (d : gmap string pyval) (key k : string) (v : pyval) :
  d !! k = Some v -> truthy_value v = true -> ensure_location d key !! k = Some v.
Proof.
  intros Hv Ht. destruct (decide (k = key)) as [-> | Hne].
  - unfold ensure_location. rewrite Hv. cbn. now rewrite Ht.
  - now rewrite ensure_location_other.
Qed.

Lemma ensure_locations_keeps (keys : list string) :
  forall (d : gmap string pyval) (k : string) (v : pyval),
    d !! k = Some v -> truthy_value v = true ->
    foldl ensure_location d keys !! k = Some v.
Proof.
  induction keys as [| key keys IH]; intros d k v Hv Ht; [exact Hv |].
  cbn [foldl]. apply IH; [| exact Ht]. now apply ensure_location_keeps.
Qed.

Lemma ensure_locations_other (keys : list string) :
  forall (d : gmap string pyval) (k : string),
    ~ In k keys -> foldl ensure_location d keys !! k = d !! k.
Proof.
  induction keys as [| key keys IH]; intros d k Hk; [reflexivity |].
  cbn [foldl]. rewrite IH by (intros H; apply Hk; now right).
  apply ensure_location_other. intros ->. apply Hk. now left.
Qed.

Lemma ensure_locations_truthy (keys : list string) :
  forall (d : gmap string pyval) (k : string),
    In k keys ->
    exists v, foldl ensure_location d keys !! k = Some v
              /\ truthy_value v = true
              /\ (v = VStr DEFAULT_NA \/ d !! k = Some v).
Proof.
  induction keys as [| key keys IH]; intros d k Hk; [contradiction |].
  cbn [foldl]. destruct (decide (k = key)) as [-> | Hne].
  - destruct (ensure_location_same d key) as [v [Hv [Ht Hor]]].
    exists v. split; [now apply ensure_locations_keeps | auto].
  - destruct Hk as [-> | Hk]; [contradiction |].
    destruct (IH (ensure_location d key) k Hk) as [v [Hv [Ht Hor]]].
    exists v. split; [exact Hv |]. split; [exact Ht |].
    rewrite ensure_location_other in Hor by assumption. exact Hor.
Qed.

Lemma with_derived_fields_other (result : gmap string pyval) (fs g : str)
    (k : string) :
  ~ In k (["cv_finscore"; "cv_gender"; "cv_age"]%string ++ location_keys) ->
  with_derived_fields result fs g !! k = result !! k.
Proof.
  intros Hk. unfold with_derived_fields. cbv zeta.
  rewrite ensure_locations_other
    by (intros H; apply Hk; apply in_or_app; now right).
  cbn [app In] in Hk.
  rewrite !lookup_insert_ne by (intros <-; tauto). reflexivity.
Qed.

Lemma with_derived_fields_gender (result : gmap string pyval) (fs g : str) :
  with_derived_fields result fs g !! "cv_gender" = Some (VStr g).
Proof.
  unfold with_derived_fields. cbv zeta.
  rewrite ensure_locations_other
    by (cbn; intuition discriminate).
  rewrite lookup_insert_ne by discriminate. apply lookup_insert_eq.
Qed.

Lemma with_derived_fields_location (result : gmap string pyval) (fs g : str)
    (k : string) :
  In k location_keys ->
  exists v, with_derived_fields result fs g !! k = Some v
            /\ truthy_value v = true
            /\ (v = VStr DEFAULT_NA \/ result !! k = Some v).
Proof.
  intros Hk. unfold with_derived_fields. cbv zeta.
  match goal with
  | |- context [foldl ensure_location ?d location_keys] =>
      destruct (ensure_locations_truthy location_keys d k Hk)
        as [v [Hv [Ht Hor]]]
  end.
  exists v. split; [exact Hv |]. split; [exact Ht |].
  destruct Hor as [-> | Hor]; [now left | right].
  cbn [location_keys In] in Hk.
  rewrite !lookup_insert_ne in Hor
    by (destruct Hk as [<- | [<- | [<- | [<- | []]]]]; discriminate).
  exact Hor.
Qed.

(** *** The two loops on the past positions *)

Lemma as_text_not_list (v : pyval) (items : list (option str)) :
  as_text v <> VList items.
Proof. destruct v; discriminate. Qed.

Lemma first_past_step_Some (d : gmap string pyval) (key : string) (v : pyval) :
  d !! key = Some v ->
  exists d', first_past_step d key = Some d'
             /\ d' !! key = Some (as_text v)
             /\ (forall k, k <> key -> d' !! k = d !! k).
Proof.
  intros Hv. unfold first_past_step. rewrite Hv. cbn.
  destruct v as [| s | items].
  - exists d. auto.
  - exists d. auto.
  - eexists. split; [reflexivity |]. split; [apply lookup_insert_eq |].
    intros k Hk. now rewrite lookup_insert_ne by congruence.
Qed.

Lemma first_loop_None (keys : list string) :
  forall (d : gmap string pyval) (k : string),
    In k keys -> d !! k = None ->
    for_each_key first_past_step keys d = None.
Proof.
  induction keys as [| key keys IH]; intros d k Hk Hnone; [contradiction |].
  cbn [for_each_key].
  destruct (d !! key) as [v |] eqn:Hv.
  - destruct (first_past_step_Some d key v Hv) as [d' [-> [_ Hother]]].
    cbn. destruct Hk as [-> | Hk]; [congruence |].
    apply (IH d' k Hk). rewrite Hother by congruence. exact Hnone.
  - unfold first_past_step. now rewrite Hv.
Qed.

Lemma first_loop_Some (keys : list string) :
  List.NoDup keys ->
  forall d : gmap string pyval,
    (forall k, In k keys -> is_Some (d !! k)) ->
    exists d', for_each_key first_past_step keys d = Some d'
               /\ (forall k, In k keys -> d' !! k = as_text <$> d !! k)
               /\ (forall k, ~ In k keys -> d' !! k = d !! k).
Proof.
  induction 1 as [| key keys Hnotin _ IH]; intros d Hall.
  - exists d. split; [reflexivity |]. split; [contradiction | reflexivity].
  - destruct (Hall key (or_introl eq_refl)) as [v Hv].
    destruct (first_past_step_Some d key v Hv) as [d1 [Hstep [Hkey Hother]]].
    destruct (IH d1) as [d' [Hloop [Hin Hout]]].
    { intros k Hk. rewrite Hother by (intros ->; contradiction).
      apply Hall. now right. }
    exists d'. cbn [for_each_key]. rewrite Hstep. cbn.
    split; [exact Hloop |]. split.
    + intros k [<- | Hk].
      * rewrite Hout by assumption. now rewrite Hkey, Hv.
      * rewrite Hin by assumption.
        now rewrite Hother by (intros ->; contradiction).
    + intros k Hk. rewrite Hout by (intros H; apply Hk; now right).
      apply Hother. intros ->. apply Hk. now left.
Qed.

(** The second loop finds no list, and changes nothing. *)
Lemma second_loop_id (keys : list string) (d : gmap string pyval) :
  (forall k, In k keys ->
             exists v, d !! k = Some v /\ forall items, v <> VList items) ->
  for_each_key second_past_step keys d = Some d.
Proof.
  induction keys as [| key keys IH]; intros Hall; [reflexivity |].
  cbn [for_each_key].
  destruct (Hall key (or_introl eq_refl)) as [v [Hv Hlist]].
  assert (Hstep : second_past_step d key = Some d).
  { unfold second_past_step. rewrite Hv. cbn.
    destruct v as [| s | items]; [reflexivity | reflexivity |].
    now contradiction (Hlist items). }
  rewrite Hstep. cbn. apply IH. intros k Hk. apply Hall. now right.
Qed.

Lemma past_keys_NoDup : List.NoDup past_keys.
Proof. repeat constructor; cbn [In]; intuition discriminate. Qed.

Lemma past_key_not_derived (fs g : str) (result : gmap string pyval)
    (k : string) :
  In k past_keys -> with_derived_fields result fs g !! k = result !! k.
Proof.
  intros Hk. apply with_derived_fields_other.
  cbn [past_keys In] in Hk. cbn [app location_keys In].
  destruct Hk as [<- | [<- | [<- | []]]]; intuition discriminate.
Qed.

(** The outcome of a run that returns, field by field. *)
Lemma extract_full_cv_fields_Some (result out : gmap string pyval) (text : str) :
  extract_full_cv_fields result text = Some out ->
  exists fs g,
    detect_gender_of (default (VStr DEFAULT_NA) (result !! "cv_username"))
      text (default (VStr DEFAULT_NA) (result !! "cv_email")) = Some g
    /\ (forall k, In k past_keys ->
                  exists v, result !! k = Some v /\ out !! k = Some (as_text v))
    /\ (forall k, ~ In k past_keys ->
                  out !! k = with_derived_fields result fs g !! k).
Proof.
  destruct (extract_full_cv_fields_eq result text) as [fs ->].
  destruct (detect_gender_of _ text _) as [g |]; [| discriminate].
  cbn [mbind option_bind]. intros Hrun. exists fs, g. split; [reflexivity |].
  set (d := with_derived_fields result fs g) in *.
  assert (Hall : forall k, In k past_keys -> is_Some (d !! k)).
  { intros k Hk. destruct (d !! k) eqn:Hd; [eauto |].
    rewrite (first_loop_None past_keys d k Hk Hd) in Hrun. discriminate. }
  destruct (first_loop_Some past_keys past_keys_NoDup d Hall)
    as [d' [Hloop [Hin Hout]]].
  rewrite Hloop in Hrun. cbn [mbind option_bind] in Hrun.
  rewrite second_loop_id in Hrun.
  2:{ intros k Hk. destruct (Hall k Hk) as [v Hv].
      exists (as_text v). rewrite (Hin k Hk), Hv.
      split; [reflexivity | apply as_text_not_list]. }
  injection Hrun as <-. split.
  - intros k Hk. destruct (Hall k Hk) as [v Hv].
    exists v. rewrite (Hin k Hk), Hv. split; [| reflexivity].
    unfold d in Hv. now rewrite past_key_not_derived in Hv.
  - exact Hout.
Qed.

(** X18.  On an answer whose fields are strings, nulls and lists of these,
    [extract_full_cv_fields] raises exactly when one of the three fields on
    past positions is missing from the answer, or the user name is a list
    that is not empty, or the e-mail address is a list that holds ["@"].
    The fields on past positions are thus not supplied when missing; in
    particular the function raises on the empty answer, which is what a
    failed call of the model leaves. *)
Theorem extract_full_cv_fields_raises (result : gmap string pyval) (text : str) :
  (extract_full_cv_fields result text = None
   <-> (exists k, In k past_keys /\ result !! k = None)
       \/ (exists i items, result !! "cv_username" = Some (VList (i :: items)))
       \/ (exists items, result !! "cv_email" = Some (VList items)
                         /\ Some [AT] ∈ items))
  /\ extract_full_cv_fields ∅ text = None.
Proof.
  assert (Hmissing : forall r : gmap string pyval,
             (exists k, In k past_keys /\ r !! k = None) ->
             extract_full_cv_fields r text = None).
  { intros r [k [Hk Hnone]].
    destruct (extract_full_cv_fields_eq r text) as [fs ->].
    destruct (detect_gender_of _ text _) as [g |]; [| reflexivity].
    cbn [mbind option_bind].
    rewrite (first_loop_None past_keys _ k Hk); [reflexivity |].
    now rewrite past_key_not_derived. }
  split.
  2:{ apply Hmissing. exists "cv_pastcompanies"%string.
      split; [now left | apply lookup_empty]. }
  split.
  - intros Hrun.
    destruct (detect_gender_of
                (default (VStr DEFAULT_NA) (result !! "cv_username")) text
                (default (VStr DEFAULT_NA) (result !! "cv_email")))
      as [g |] eqn:Hg.
    + left. destruct (extract_full_cv_fields_eq result text) as [fs Heq].
      rewrite Heq, Hg in Hrun.
      cbn [mbind option_bind] in Hrun.
      set (d := with_derived_fields result fs g) in *.
      destruct (result !! "cv_pastcompanies") as [v1 |] eqn:H1;
        [| exists "cv_pastcompanies"%string; split; [cbn; tauto | exact H1]].
      destruct (result !! "cv_pastdesignations") as [v2 |] eqn:H2;
        [| exists "cv_pastdesignations"%string; split; [cbn; tauto | exact H2]].
      destruct (result !! "cv_pastduration") as [v3 |] eqn:H3;
        [| exists "cv_pastduration"%string; split; [cbn; tauto | exact H3]].
      exfalso.
      assert (Hall : forall k, In k past_keys -> is_Some (d !! k)).
      { intros k Hk. unfold d. rewrite past_key_not_derived by assumption.
        cbn [past_keys In] in Hk.
        destruct Hk as [<- | [<- | [<- | []]]]; eauto. }
      destruct (first_loop_Some past_keys past_keys_NoDup d Hall)
        as [d' [Hloop [Hin _]]].
      rewrite Hloop in Hrun. cbn [mbind option_bind] in Hrun.
      rewrite second_loop_id in Hrun; [discriminate |].
      intros k Hk. destruct (Hall k Hk) as [v Hv].
      exists (as_text v). rewrite (Hin k Hk), Hv.
      split; [reflexivity | apply as_text_not_list].
    + right. apply detect_gender_of_None in Hg.
      destruct Hg as [[i [items Hn]] | [items [He Hin]]].
      * left. exists i, items.
        destruct (result !! "cv_username"); cbn in Hn; [now subst | discriminate].
      * right. exists items.
        destruct (result !! "cv_email"); cbn in He; [now subst | discriminate].
  - intros [Hk | [[i [items Hn]] | [items [He Hin]]]].
    + now apply Hmissing.
    + destruct (extract_full_cv_fields_eq result text) as [fs ->].
      rewrite Hn. reflexivity.
    + destruct (extract_full_cv_fields_eq result text) as [fs ->].
      rewrite He.
      assert (Hg : detect_gender_of
                     (default (VStr DEFAULT_NA) (result !! "cv_username")) text
                     (default (VStr DEFAULT_NA) (Some (VList items))) = None).
      { apply detect_gender_of_None. right. now exists items. }
      now rewrite Hg.
Qed.

(** The location fields after a run that returns. *)
Lemma extract_full_cv_fields_locations (result out : gmap string pyval)
    (text : str) (k : string) :
  extract_full_cv_fields result text = Some out ->
  In k location_keys ->
  exists v, out !! k = Some v /\ truthy_value v = true
            /\ (v = VStr DEFAULT_NA \/ result !! k = Some v).
Proof.
  intros Hrun Hk.
  destruct (extract_full_cv_fields_Some result out text Hrun)
    as [fs [g [_ [_ Hrest]]]].
  rewrite Hrest
    by (cbn [location_keys past_keys In] in *;
        destruct Hk as [<- | [<- | [<- | [<- | []]]]]; intuition discriminate).
  now apply with_derived_fields_location.
Qed.

(** X19.  When [extract_full_cv_fields] returns (on an answer whose fields
    are strings, nulls and lists of these), each of the four location fields
    holds a value that is not empty, namely the model's or else the
    sentinel; none of the three fields on past positions is a list any more;
    the gender is one of Male, Female and the sentinel; and every field that
    the function does not write is the model's. *)
Theorem extract_full_cv_fields_shape (result out : gmap string pyval)
    (text : str) :
  extract_full_cv_fields result text = Some out ->
  (forall k, In k location_keys ->
             exists v, out !! k = Some v /\ truthy_value v = true
                       /\ (v = VStr DEFAULT_NA \/ result !! k = Some v)) /\
  (forall k, In k past_keys ->
             exists v, out !! k = Some v /\ forall items, v <> VList items) /\
  (exists g, out !! "cv_gender" = Some (VStr g)
             /\ In g [py "Male"; py "Female"; DEFAULT_NA]) /\
  (forall k, ~ In k derived_keys -> out !! k = result !! k).
Proof.
  intros Hrun.
  destruct (extract_full_cv_fields_Some result out text Hrun)
    as [fs [g [Hg [Hpast Hrest]]]].
  split; [| split; [| split]].
  - intros k Hk. exact (extract_full_cv_fields_locations _ _ _ k Hrun Hk).
  - intros k Hk. destruct (Hpast k Hk) as [v [_ Hv]].
    exists (as_text v). split; [exact Hv | apply as_text_not_list].
  - exists g. split; [| exact (detect_gender_of_values _ _ _ _ Hg)].
    rewrite Hrest by (cbn; intuition discriminate).
    apply with_derived_fields_gender.
  - intros k Hk. unfold derived_keys in Hk.
    rewrite Hrest by (intros H; apply Hk; apply in_or_app; right;
                      apply in_or_app; now right).
    apply with_derived_fields_other.
    intros H. apply Hk. rewrite app_assoc. apply in_or_app. now left.
Qed.

End ExtractFields.

(** ** From llm_utils to the batch importer *)

Section BatchAfterExtract.
Context {U : Unicode} {names : NameDB} {fl : FloatEnv} {dates : DateEnv}
        {store : LocationStore} {env : FileEnv}.
Import import_cvs.





End BatchAfterExtract.

(** ** A run of llm_utils *)

Lemma sample_prepared_Some :
  llm_utils.extract_full_cv_fields (U:=ascii_tables) (names:=sample_names)
    (fl:=sample_floats) (dates:=sample_dates) sample_reply sample_plain_text
  = Some sample_prepared.
Proof. apply Some_default. vm_compute. reflexivity. Qed.

Lemma extract_full_cv_fields_raises_witness :
  let reply : gmap string pyval :=
    {[ "raw_output"%string := VStr (py "I cannot read this resume.") ]} in
  llm_utils.extract_full_cv_fields (U:=ascii_tables) (names:=sample_names)
    (fl:=sample_floats) (dates:=sample_dates) reply sample_plain_text
  = None.
Proof.
  intros reply.
  apply (proj2 (proj1 (extract_full_cv_fields_raises (U:=ascii_tables)
                         (names:=sample_names) (fl:=sample_floats)
                         (dates:=sample_dates) reply sample_plain_text))).
  left. exists "cv_pastduration"%string. split; [cbn; tauto |].
  vm_compute. reflexivity.
Defined.

Lemma extract_full_cv_fields_shape_witness :
  sample_prepared !! "cv_location_city"%string = Some (VStr (py "Pune")) /\
  sample_prepared !! "cv_location_state"%string = Some (VStr DEFAULT_NA) /\
  sample_prepared !! "cv_pastcompanies"%string = Some (VStr (py "A, B")) /\
  sample_prepared !! "cv_finscore"%string = Some (VStr (py "8.5")) /\
  exists g, sample_prepared !! "cv_gender"%string = Some (VStr g)
            /\ In g [py "Male"; py "Female"; DEFAULT_NA].
Proof.
  destruct (extract_full_cv_fields_shape (U:=ascii_tables)
              (names:=sample_names) (fl:=sample_floats) (dates:=sample_dates)
              sample_reply sample_prepared sample_plain_text
              sample_prepared_Some) as [_ [_ [Hg _]]].
  repeat split; try (vm_compute; reflexivity). exact Hg.
Defined.

